(** * pm_universe: the fetch-orchestration pipeline

    A shallow embedding of [pm_universe/utils.py], [pm_universe/clob.py],
    [pm_universe/gamma.py] and [pm_universe/runner.py], and the properties
    of the price client, the catalog client and the orchestrator.

    Conventions of the embedding.
    - Python exceptions are values of [exn]; a computation that can raise
      returns a [result].
    - The remote services are an explicit environment: for every request
      the outcome of each attempt is given by a function, and the worker
      pool by the moment at which each batch completes.
    - Pacing (the rate limiter, the backoff sleeps) and the duration of a
      run are not part of the embedding; file writes succeed.
    - Text is [string], read as ASCII.  JSON values that the code only
      passes to [str()] and to truth tests are kept as [scalar]s.
    - Python's [decimal] module (default context: 28 digits, half-even,
      Emax 999999, traps InvalidOperation, DivisionByZero and Overflow) is
      modelled in [Module Dec]. *)

From Stdlib Require Import ZArith QArith_base Ascii String List Lia Bool.
From stdpp Require Import base option list gmap strings.

Local Open Scope string_scope.
Local Open Scope list_scope.
Local Open Scope Z_scope.

(** ** Exceptions and results *)

Inductive exn : Type :=
  | ValueError
  | InvalidOperation
  | Overflow
  | AttributeError
  | RequestError
  | HTTPStatusError
  | DivisionByZero
  | ZeroDivisionError
  | TypeError
  | JSONDecodeError
  | RuntimeError.

Inductive result (A : Type) : Type :=
  | Ok (a : A)
  | Raise (e : exn).
Arguments Ok {A} a.
Arguments Raise {A} e.

Definition rbind {A B : Type} (r : result A) (k : A → result B) : result B :=
  match r with
  | Ok a => k a
  | Raise e => Raise e
  end.

Notation "'attempt' x ':=' r 'in' k" := (rbind r (λ x, k))
  (at level 10, x name, r at level 100, k at level 200, only parsing).

Definition returns {A : Type} (r : result A) : Prop := ∃ a, r = Ok a.

(** ** Text helpers *)

Definition chars (s : string) : list ascii := list_ascii_of_string s.
Definition text (l : list ascii) : string := string_of_list_ascii l.

Definition code (c : ascii) : Z := Z.of_N (N_of_ascii c).

Definition is_digit (c : ascii) : bool := (48 <=? code c) && (code c <=? 57).
Definition digit_val (c : ascii) : Z := code c - 48.

(** [str.isspace] on the ASCII range. *)
Definition is_space (c : ascii) : bool :=
  ((9 <=? code c) && (code c <=? 13)) || ((28 <=? code c) && (code c <=? 32)).

(** [str.lower] on the ASCII range. *)
Definition lower_char (c : ascii) : ascii :=
  if (65 <=? code c) && (code c <=? 90)
  then ascii_of_N (Z.to_N (code c + 32)) else c.
Definition lower (s : string) : string := text (map lower_char (chars s)).

Fixpoint lstrip (l : list ascii) : list ascii :=
  match l with
  | c :: r => if is_space c then lstrip r else l
  | [] => []
  end.
Definition strip (l : list ascii) : list ascii :=
  rev (lstrip (rev (lstrip l))).

Fixpoint is_prefix (p l : list ascii) : bool :=
  match p, l with
  | [], _ => true
  | a :: p', b :: l' => if Ascii.eqb a b then is_prefix p' l' else false
  | _ :: _, [] => false
  end.

(** [needle in hay] on strings. *)
Fixpoint contains (needle hay : list ascii) : bool :=
  is_prefix needle hay ||
  match hay with
  | [] => false
  | _ :: hay' => contains needle hay'
  end.
Definition substring_in (needle hay : string) : bool :=
  contains (chars needle) (chars hay).

Definition nonempty (s : string) : bool :=
  match s with EmptyString => false | _ => true end.

(** Decimal digits of a natural number, most significant first. *)
Fixpoint digits_go (fuel : nat) (n : Z) (acc : list ascii) : list ascii :=
  let d := ascii_of_N (Z.to_N (48 + n mod 10)) in
  match fuel with
  | O => d :: acc
  | S f => if n <? 10 then d :: acc else digits_go f (n / 10) (d :: acc)
  end.
Definition digits (n : Z) : list ascii :=
  digits_go (Z.to_nat (Z.log2 n)) n [].
Definition ndigits (n : Z) : Z := Z.of_nat (length (digits n)).

Fixpoint number_of (l : list ascii) (acc : Z) : Z :=
  match l with
  | [] => acc
  | c :: r => number_of r (10 * acc + digit_val c)
  end.

Fixpoint span_digits (l : list ascii) : list ascii * list ascii :=
  match l with
  | c :: r =>
      if is_digit c then let '(d, rest) := span_digits r in (c :: d, rest)
      else ([], l)
  | [] => ([], [])
  end.

(** ** JSON scalars as the code sees them: [str(v)] and [bool(v)] *)

Inductive scalar : Type :=
  | SNone
  | SBool (b : bool)
  | SStr (s : string)
  | SInt (z : Z)
  | SOther (shown : string) (truth : bool).

Definition show_int (z : Z) : string :=
  if z <? 0 then String "-" (text (digits (- z))) else text (digits z).

Definition py_str (v : scalar) : string :=
  match v with
  | SNone => "None"
  | SBool true => "True"
  | SBool false => "False"
  | SStr s => s
  | SInt z => show_int z
  | SOther shown _ => shown
  end.

Definition truthy (v : scalar) : bool :=
  match v with
  | SNone => false
  | SBool b => b
  | SStr s => nonempty s
  | SInt z => negb (z =? 0)
  | SOther _ t => t
  end.

(** ** Python's [decimal.Decimal] under the default context *)

Module Dec.

(** A decimal is [(-1)^neg * coeff * 10^exp] with [0 <= coeff], an
    infinity, or a (quiet or signaling) NaN with a diagnostic payload. *)
Inductive t : Type :=
  | Finite (neg : bool) (coeff : Z) (exp : Z)
  | Inf (neg : bool)
  | NaN (neg : bool) (signaling : bool) (payload : Z).

Definition prec : Z := 28.
Definition Emax : Z := 999999.
Definition Emin : Z := -999999.
Definition Etiny : Z := Emin - prec + 1.
Definition Etop : Z := Emax - prec + 1.

(** Limits of the conversion from text (64-bit libmpdec). *)
Definition MAX_PREC : Z := 999999999999999999.
Definition MAX_EMAX : Z := 999999999999999999.
Definition MIN_ETINY : Z := - MAX_EMAX - (MAX_PREC - 1).

(** *** [Decimal(str)] *)

Definition parse_sign (l : list ascii) : bool * list ascii :=
  match l with
  | "-"%char :: r => (true, r)
  | "+"%char :: r => (false, r)
  | _ => (false, l)
  end.

Definition parse_exponent (l : list ascii) : option Z :=
  let '(neg, r) := parse_sign l in
  let '(d, rest) := span_digits r in
  match d, rest with
  | _ :: _, [] => Some (if neg then - number_of d 0 else number_of d 0)
  | _, _ => None
  end.

Definition in_range (coeff exp : Z) : bool :=
  if coeff =? 0 then (MIN_ETINY <=? exp) && (exp <=? MAX_EMAX)
  else (ndigits coeff <=? MAX_PREC) && (MIN_ETINY <=? exp)
       && (exp + ndigits coeff - 1 <=? MAX_EMAX).

Definition parse_number (neg : bool) (l : list ascii) : option t :=
  let '(ip, r1) := span_digits l in
  let '(fp, r2) :=
    match r1 with
    | "."%char :: r => span_digits r
    | _ => ([], r1)
    end in
  match ip ++ fp with
  | [] => None
  | ds =>
      let e :=
        match r2 with
        | [] => Some 0
        | "e"%char :: r => parse_exponent r
        | _ => None
        end in
      match e with
      | Some e =>
          let coeff := number_of ds 0 in
          let exp := e - Z.of_nat (length fp) in
          if in_range coeff exp then Some (Finite neg coeff exp) else None
      | None => None
      end
  end.

Definition parse_nan (neg signaling : bool) (l : list ascii) : option t :=
  let '(d, rest) := span_digits l in
  match rest with
  | [] => Some (NaN neg signaling (number_of d 0))
  | _ => None
  end.

(** Surrounding whitespace is stripped, underscores are dropped and the
    match is case-insensitive. *)
Definition of_string (s : string) : option t :=
  let l := map lower_char
             (filter (λ c, c ≠ "_"%char) (strip (chars s))) in
  let '(neg, r) := parse_sign l in
  if decide (r = chars "inf" ∨ r = chars "infinity") then Some (Inf neg)
  else if is_prefix (chars "nan") r then parse_nan neg false (drop 3 r)
  else if is_prefix (chars "snan") r then parse_nan neg true (drop 4 r)
  else parse_number neg r.

(** *** Rounding to the context: [Decimal._fix] *)

Definition round_half_even (c k : Z) : Z :=
  let q := c / 10 ^ k in
  let r := c mod 10 ^ k in
  if (10 ^ k <? 2 * r) || ((2 * r =? 10 ^ k) && Z.odd q) then q + 1 else q.

Definition fix_nan (neg signaling : bool) (payload : Z) : t :=
  NaN neg signaling (payload mod 10 ^ prec).

Definition fix_ (d : t) : result t :=
  match d with
  | Inf _ => Ok d
  | NaN neg sg p => Ok (fix_nan neg sg p)
  | Finite neg c e =>
      if c =? 0 then Ok (Finite neg 0 (Z.min (Z.max e Etiny) Emax))
      else
        let exp_min := ndigits c + e - prec in
        if Etop <? exp_min then Raise Overflow
        else
          let exp_min := Z.max exp_min Etiny in
          if e <? exp_min then
            let coeff := round_half_even c (exp_min - e) in
            let '(coeff, exp_min) :=
              if prec <? ndigits coeff
              then (coeff / 10, exp_min + 1) else (coeff, exp_min) in
            if Etop <? exp_min then Raise Overflow
            else Ok (Finite neg coeff exp_min)
          else Ok d
  end.

(** *** [Decimal.__add__] *)

Definition signed (neg : bool) (c : Z) : Z := if neg then - c else c.

Definition check_nans (a b : t) : option (result t) :=
  match a, b with
  | NaN _ true _, _ => Some (Raise InvalidOperation)
  | _, NaN _ true _ => Some (Raise InvalidOperation)
  | NaN neg sg p, _ => Some (Ok (fix_nan neg sg p))
  | _, NaN neg sg p => Some (Ok (fix_nan neg sg p))
  | _, _ => None
  end.

(** The sum of two finite decimals is the exact sum at the smaller
    exponent, rounded by [fix_]; a zero sum of opposite signs is [+0],
    and the sum of two zeros is negative only when both are. *)
Definition add (a b : t) : result t :=
  match check_nans a b with
  | Some r => r
  | None =>
      match a, b with
      | Inf sa, Inf sb =>
          if Bool.eqb sa sb then Ok a else Raise InvalidOperation
      | Inf _, _ => Ok a
      | _, Inf _ => Ok b
      | Finite sa ca ea, Finite sb cb eb =>
          let e := Z.min ea eb in
          let s := signed sa ca * 10 ^ (ea - e)
                   + signed sb cb * 10 ^ (eb - e) in
          let neg :=
            if s =? 0
            then (if (ca =? 0) && (cb =? 0) then sa && sb else false)
            else s <? 0 in
          fix_ (Finite neg (Z.abs s) e)
      | _, _ => Raise InvalidOperation
      end
  end.

(** *** [Decimal.__truediv__] *)

Fixpoint to_ideal (fuel : nat) (coeff exp ideal : Z) : Z * Z :=
  match fuel with
  | O => (coeff, exp)
  | S f =>
      if (exp <? ideal) && (coeff mod 10 =? 0)
      then to_ideal f (coeff / 10) (exp + 1) ideal
      else (coeff, exp)
  end.

Definition truediv (a b : t) : result t :=
  match check_nans a b with
  | Some r => r
  | None =>
      match a, b with
      | Inf _, Inf _ => Raise InvalidOperation
      | Inf sa, Finite sb _ _ => Ok (Inf (xorb sa sb))
      | Finite sa _ _, Inf sb => Ok (Finite (xorb sa sb) 0 Etiny)
      | Finite sa ca ea, Finite sb cb eb =>
          let neg := xorb sa sb in
          if cb =? 0 then
            if ca =? 0 then Raise InvalidOperation else Raise DivisionByZero
          else if ca =? 0 then fix_ (Finite neg 0 (ea - eb))
          else
            let shift := ndigits cb - ndigits ca + prec + 1 in
            let exp := ea - eb - shift in
            let num := if 0 <=? shift then ca * 10 ^ shift else ca in
            let den := if 0 <=? shift then cb else cb * 10 ^ (- shift) in
            let coeff := num / den in
            let '(coeff, exp) :=
              if num mod den =? 0
              then to_ideal (Z.to_nat (ea - eb - exp)) coeff exp (ea - eb)
              else (if coeff mod 5 =? 0 then coeff + 1 else coeff, exp) in
            fix_ (Finite neg coeff exp)
      | _, _ => Raise InvalidOperation
      end
  end.

Definition two : t := Finite false 2 0.

(** *** [Decimal.__str__] (scientific notation, [capitals = 1]) *)

Definition sign_str (neg : bool) : list ascii :=
  if neg then chars "-" else [].

Definition zeros (n : Z) : list ascii := replicate (Z.to_nat n) "0"%char.

Definition show_exp (z : Z) : list ascii :=
  (if z <? 0 then chars "E-" else chars "E+") ++ digits (Z.abs z).

Definition to_string (d : t) : string :=
  text
    match d with
    | Inf neg => sign_str neg ++ chars "Infinity"
    | NaN neg sg p =>
        sign_str neg ++ (if sg then chars "sNaN" else chars "NaN")
        ++ (if p =? 0 then [] else digits p)
    | Finite neg c e =>
        let ds := digits c in
        let len := Z.of_nat (length ds) in
        let leftdigits := e + len in
        let dotplace :=
          if (e <=? 0) && (-6 <? leftdigits) then leftdigits else 1 in
        let intpart :=
          if dotplace <=? 0 then chars "0"
          else if len <=? dotplace then ds ++ zeros (dotplace - len)
          else take (Z.to_nat dotplace) ds in
        let fracpart :=
          if dotplace <=? 0 then "."%char :: zeros (- dotplace) ++ ds
          else if len <=? dotplace then []
          else "."%char :: drop (Z.to_nat dotplace) ds in
        let exppart :=
          if leftdigits =? dotplace then []
          else show_exp (leftdigits - dotplace) in
        sign_str neg ++ intpart ++ fracpart ++ exppart
    end.

End Dec.

(** ** [pm_universe/models.py] *)

Module TokenOutcome.
Record t : Type := mk {
  token_id : string;
  outcome : string;
  market_id : string;
  slug : string;
  question : string;
  active : scalar;
  volume_num : scalar;
  liquidity_num : scalar;
}.
End TokenOutcome.

Module PriceResult.
Record t : Type := mk {
  snapshot_ts_utc : string;
  source : string;
  market_id : string;
  slug : string;
  question : string;
  token_id : string;
  outcome : string;
  bid : string;
  ask : string;
  mid : string;
  active : scalar;
  status : string;
  volume_num : scalar;
  liquidity_num : scalar;
}.
End PriceResult.

Module MarketRecord.
(** [outcomes_json] and [clob_token_ids_json] hold the lists that
    [safe_json_dumps] serialises. *)
Record t : Type := mk {
  pulled_at_utc : string;
  source : string;
  market_id : string;
  slug : string;
  question : string;
  category : string;
  condition_id : string;
  active : scalar;
  closed : scalar;
  end_date_utc : string;
  outcomes_json : list scalar;
  clob_token_ids_json : list scalar;
  volume_num : scalar;
  liquidity_num : scalar;
}.
End MarketRecord.

Module RunManifest.
Record t : Type := mk {
  start_ts_utc : string;
  end_ts_utc : string;
  date : string;
  markets_total : Z;
  markets_with_tokens : Z;
  markets_skipped_no_tokens : Z;
  markets_skipped_mismatched_arrays : Z;
  markets_not_clob_tradable : Z;
  tokens_total : Z;
  tokens_priced_ok : Z;
  tokens_missing_price : Z;
  api_errors : Z;
  price_batches : Z;
  files : list (string * string);
}.
End RunManifest.

(** ** [pm_universe/utils.py] *)

Fixpoint chunks {A : Type} (fuel size : nat) (items : list A) : list (list A) :=
  match fuel, items with
  | S f, _ :: _ => take size items :: chunks f size (drop size items)
  | _, _ => []
  end.

(** [range(0, len(items), size)] raises on a zero step and is empty on a
    negative one. *)
Definition chunk_list {A : Type} (items : list A) (size : Z)
  : result (list (list A)) :=
  if size =? 0 then Raise ValueError
  else if size <? 0 then Ok []
  else Ok (chunks (length items) (Z.to_nat size) items).

Definition parse_decimal (value : scalar) : option Dec.t :=
  match value with
  | SNone => None
  | _ => Dec.of_string (py_str value)
  end.

(** ** The transport seen by the retry loops *)

(** One attempt of a request: a response with its status code and its
    decoded body ([None] when [response.json()] raises), an
    [httpx.RequestError], or any other exception raised while the attempt
    is handled (a [Retry-After] header that is not a number, for one). *)
Inductive attempt_outcome (B : Type) : Type :=
  | Response (status : Z) (body : option B)
  | TransportError
  | Failure (e : exn).
Arguments Response {B} status body.
Arguments TransportError {B}.
Arguments Failure {B} e.

Definition MAX_RETRIES : nat := 3.

(** ** [pm_universe/clob.py] *)

Module Clob.

Record request_item : Type := mk_item {
  item_token_id : string;
  item_side : string;
}.

(** The body of [POST /prices]: a dict from token id to a dict of sides,
    or some other JSON value. *)
Inductive sides : Type :=
  | SidesDict (entries : list (string * scalar))
  | SidesOther.
Inductive data : Type :=
  | DataDict (entries : list (string * sides))
  | DataOther (truth : bool).

Definition data_truthy (d : data) : bool :=
  match d with
  | DataDict es => match es with [] => false | _ => true end
  | DataOther t => t
  end.

Record raw_response : Type := mk_raw {
  raw_batch_num : nat;
  raw_status : Z;
  raw_data : data;
}.

Record stats : Type := mk_stats {
  tokens_priced_ok : Z;
  tokens_missing_price : Z;
  api_errors : Z;
}.

(** The pricing service: the outcome of attempt [k] of batch [i]; and
    the pool: the moment batch [i] completes. *)
Record env : Type := mk_env {
  server : nat → nat → attempt_outcome data;
  completion_time : nat → nat;
}.

Fixpoint retry (serve : nat → attempt_outcome data) (attempt_no remaining : nat)
  : result (data * Z) :=
  match remaining with
  | O => Ok (DataDict [], 0)
  | S r =>
      match serve attempt_no with
      | Response status body =>
          if status =? 429 then retry serve (S attempt_no) r
          else if 500 <=? status then retry serve (S attempt_no) r
          else if status =? 200 then
            match body with
            | Some d => Ok (d, status)
            | None => Raise JSONDecodeError
            end
          else Ok (DataDict [], status)
      | TransportError => retry serve (S attempt_no) r
      | Failure e => Raise e
      end
  end.

Definition _request_with_retry (E : env) (batch_num : nat)
  : result (data * Z) :=
  retry (server E batch_num) 0 MAX_RETRIES.

Definition _fetch_batch (E : env) (batch_num : nat)
  : result (nat * data * Z) :=
  attempt r := _request_with_retry E batch_num in
  Ok (batch_num, r.1, r.2).

Definition build_request_items (token_outcomes : list TokenOutcome.t)
  : list request_item :=
  flat_map
    (λ token, [mk_item (TokenOutcome.token_id token) "BUY";
               mk_item (TokenOutcome.token_id token) "SELL"])
    token_outcomes.

(** *** The collecting loop *)

Record collector : Type := mk_collector {
  all_raw_responses : list raw_response;
  prices_by_token : gmap string (gmap string string);
  api_error_tokens : gset string;
}.

Definition merge_sides (entries : list (string * scalar))
    (held : gmap string string) : gmap string string :=
  foldl
    (λ held entry,
       if decide (entry.1 = "BUY" ∨ entry.1 = "SELL")
       then <[entry.1 := py_str entry.2]> held else held)
    held entries.

Definition merge_data (entries : list (string * sides))
    (prices : gmap string (gmap string string))
  : gmap string (gmap string string) :=
  foldl
    (λ prices entry,
       match entry.2 with
       | SidesDict es =>
           <[entry.1 := merge_sides es (default ∅ (prices !! entry.1))]>
             prices
       | SidesOther => prices
       end)
    prices entries.

Definition batch_token_ids (batch : list request_item) : gset string :=
  list_to_set (map item_token_id batch).

Definition flag_batch (batch : list request_item) (c : collector)
  : collector :=
  mk_collector (all_raw_responses c) (prices_by_token c)
    (api_error_tokens c ∪ batch_token_ids batch).

(** The body of [for future in as_completed(futures)], for the future of
    batch [future.1] whose request items are [future.2]. *)
Definition collect (E : env) (c : collector)
    (future : nat * list request_item) : collector :=
  match _fetch_batch E future.1 with
  | Raise _ => flag_batch future.2 c
  | Ok (_, d, status) =>
      let c :=
        mk_collector
          (all_raw_responses c ++ [mk_raw future.1 status d])
          (prices_by_token c) (api_error_tokens c) in
      if (status =? 200) && data_truthy d then
        match d with
        | DataDict entries =>
            mk_collector (all_raw_responses c)
              (merge_data entries (prices_by_token c))
              (api_error_tokens c)
        | DataOther _ => flag_batch future.2 c
        end
      else if negb (status =? 200) then flag_batch future.2 c
      else c
  end.

(** [as_completed]: the futures by completion time. *)
Fixpoint insert_by {A : Type} (key : A → nat) (x : A) (l : list A) : list A :=
  match l with
  | [] => [x]
  | y :: r => if (key x <=? key y)%nat then x :: l else y :: insert_by key x r
  end.
Definition as_completed {A : Type} (key : A → nat) (futures : list A)
  : list A :=
  foldr (insert_by key) [] futures.

Definition enumerate {A : Type} (l : list A) : list (nat * A) :=
  imap (λ i x, (i, x)) l.

(** *** Building the results *)

Definition compute_mid (bid_str ask_str : string) : result string :=
  if nonempty bid_str && nonempty ask_str then
    match parse_decimal (SStr bid_str), parse_decimal (SStr ask_str) with
    | Some bid_dec, Some ask_dec =>
        attempt sum := Dec.add bid_dec ask_dec in
        attempt mid_dec := Dec.truediv sum Dec.two in
        Ok (Dec.to_string mid_dec)
    | _, _ => Ok ""
    end
  else Ok "".

Definition compute_status (c : collector) (token_id bid_str ask_str : string)
  : string :=
  if decide (token_id ∈ api_error_tokens c) then "api_error"
  else if negb (nonempty bid_str) && negb (nonempty ask_str)
  then "missing_price"
  else "ok".

Definition count (st : stats) (status : string) : stats :=
  if decide (status = "api_error")
  then mk_stats (tokens_priced_ok st) (tokens_missing_price st)
         (api_errors st + 1)
  else if decide (status = "missing_price")
  then mk_stats (tokens_priced_ok st) (tokens_missing_price st + 1)
         (api_errors st)
  else mk_stats (tokens_priced_ok st + 1) (tokens_missing_price st)
         (api_errors st).

Definition price_result (snapshot_ts : string) (c : collector)
    (token : TokenOutcome.t) : result PriceResult.t :=
  let token_id := TokenOutcome.token_id token in
  let price_data := default ∅ (prices_by_token c !! token_id) in
  let bid_str := default "" (price_data !! "SELL") in
  let ask_str := default "" (price_data !! "BUY") in
  attempt mid_str := compute_mid bid_str ask_str in
  Ok (PriceResult.mk snapshot_ts "polymarket_clob"
        (TokenOutcome.market_id token) (TokenOutcome.slug token)
        (TokenOutcome.question token) token_id
        (TokenOutcome.outcome token) bid_str ask_str mid_str
        (TokenOutcome.active token)
        (compute_status c token_id bid_str ask_str)
        (TokenOutcome.volume_num token)
        (TokenOutcome.liquidity_num token)).

Fixpoint build_results (snapshot_ts : string) (c : collector)
    (tokens : list TokenOutcome.t) (results : list PriceResult.t)
    (st : stats) : result (list PriceResult.t * stats) :=
  match tokens with
  | [] => Ok (results, st)
  | token :: rest =>
      attempt r := price_result snapshot_ts c token in
      build_results snapshot_ts c rest (results ++ [r])
        (count st (PriceResult.status r))
  end.

Definition run_batches (E : env) (batches : list (list request_item))
  : collector :=
  foldl (collect E) (mk_collector [] ∅ ∅)
    (as_completed (λ f, completion_time E f.1) (enumerate batches)).

(** [clock] is [utc_now_iso()]; [ThreadPoolExecutor] rejects a pool
    without workers. *)
Definition fetch_all_prices (E : env) (clock : string)
    (token_outcomes : list TokenOutcome.t) (concurrency batch_size : Z)
    (snapshot_ts : option string)
  : result (list PriceResult.t * list raw_response * stats) :=
  let snapshot_ts := default clock snapshot_ts in
  let request_items := build_request_items token_outcomes in
  attempt batches := chunk_list request_items batch_size in
  if concurrency <=? 0 then Raise ValueError
  else
    let c := run_batches E batches in
    attempt out :=
      build_results snapshot_ts c token_outcomes [] (mk_stats 0 0 0) in
    Ok (out.1, all_raw_responses c, out.2).

End Clob.

(** ** [pm_universe/gamma.py] *)

Module Gamma.

(** A market field that arrives as a native list, as a JSON-encoded
    string ([FieldText], with the list it decodes to, if it decodes to
    one), or as something else. *)
Inductive raw_field : Type :=
  | FieldNone
  | FieldList (items : list scalar)
  | FieldText (decoded : option (list scalar))
  | FieldOther.

(** [utils.parse_json_string_field] *)
Definition parse_json_string_field (value : raw_field)
  : option (list scalar) :=
  match value with
  | FieldNone => None
  | FieldList items => Some items
  | FieldText decoded => decoded
  | FieldOther => None
  end.

(** A market dict; an absent key is [None]. *)
Record market : Type := mk_market {
  id : option scalar;
  slug : option scalar;
  question : option scalar;
  conditionId : option scalar;
  active : option scalar;
  closed : option scalar;
  endDateIso : option scalar;
  endDate : option scalar;
  volumeNum : option scalar;
  liquidityNum : option scalar;
  enableOrderBook : option scalar;
  outcomes : raw_field;
  clobTokenIds : raw_field;
  _outcomes_parsed : option (list scalar);
  _clobTokenIds_parsed : option (list scalar);
}.

Inductive tag : Type :=
  | TagDict (label slug : option scalar)
  | TagStr (s : string)
  | TagOther.
Inductive tags_value : Type :=
  | TagsList (items : list tag)
  | TagsOther (truth : bool).

(** The value of ["markets"]: a list of dicts; a list whose first
    element that is not a dict follows the dicts [before]
    ([MarketsBroken]); a string or a dict ([MarketsOther]), [quiet] when
    it is empty, whose elements are strings when it is not; or a value
    that cannot be iterated ([MarketsScalar]: [null], a number, a
    boolean). *)
Inductive markets_value : Type :=
  | MarketsList (items : list market)
  | MarketsBroken (before : list market)
  | MarketsOther (quiet : bool)
  | MarketsScalar.

Record event : Type := mk_event {
  category : option scalar;
  tags : option tags_value;
  markets : option markets_value;
}.

(** An item of a page: an event dict, or a value that is not a dict.
    For the latter [skipped] tells whether ["markets" in item] is
    [False] (a string or a list without it); otherwise the test raises
    ([null], a number, a boolean) or indexing the item with the key
    does. *)
Inductive item : Type :=
  | Event (e : event)
  | NotADict (skipped : bool).

Inductive body : Type :=
  | PageList (events : list item)
  | PageOther.

Record params : Type := mk_params {
  p_limit : Z;
  p_offset : Z;
  p_tag_id : option string;
  p_series_id : option string;
  p_active : option string;
  p_closed : option string;
}.

(** The catalog service: the outcome of attempt [k] of the request for
    page [page_num] with the given parameters. *)
Definition env : Type := params → nat → nat → attempt_outcome body.

(** [httpx.Response.raise_for_status] passes the 2xx responses. *)
Definition is_success (status : Z) : bool :=
  (200 <=? status) && (status <=? 299).

Fixpoint retry (serve : nat → attempt_outcome body)
    (attempt_no remaining : nat) (last_error : option exn)
  : result (option body) :=
  match remaining with
  | O => Raise (default RuntimeError last_error)
  | S r =>
      match serve attempt_no with
      | Response status b =>
          if status =? 429 then retry serve (S attempt_no) r last_error
          else if 500 <=? status then retry serve (S attempt_no) r last_error
          else if is_success status then Ok b
          else Raise HTTPStatusError
      | TransportError => retry serve (S attempt_no) r (Some RequestError)
      | Failure e => Raise e
      end
  end.

(** Returns the decoded body of the response ([None] when decoding it
    raises). *)
Definition _request_with_retry (E : env) (p : params) (page_num : nat)
  : result (option body) :=
  retry (E p page_num) 0 MAX_RETRIES None.

Definition ingest_market (m : market) : market :=
  mk_market (id m) (slug m) (question m) (conditionId m) (active m)
    (closed m) (endDateIso m) (endDate m) (volumeNum m) (liquidityNum m)
    (enableOrderBook m) (outcomes m) (clobTokenIds m)
    (parse_json_string_field (outcomes m))
    (parse_json_string_field (clobTokenIds m)).

(** The markets of an event receive their parsed fields.  A ["markets"]
    value that cannot be iterated raises [TypeError]; an element that is
    not a dict raises [AttributeError] at [market.get]. *)
Definition ingest_event (e : event) : result event :=
  match markets e with
  | None => Ok e
  | Some (MarketsList ms) =>
      Ok (mk_event (category e) (tags e)
            (Some (MarketsList (map ingest_market ms))))
  | Some (MarketsBroken _) => Raise AttributeError
  | Some (MarketsOther true) => Ok e
  | Some (MarketsOther false) => Raise AttributeError
  | Some MarketsScalar => Raise TypeError
  end.

(** The body of [for event in events]: [if "markets" in event]. *)
Definition ingest_item (i : item) : result item :=
  match i with
  | Event e => attempt e' := ingest_event e in Ok (Event e')
  | NotADict true => Ok i
  | NotADict false => Raise TypeError
  end.

Fixpoint ingest_events (es : list item) : result (list item) :=
  match es with
  | [] => Ok []
  | e :: rest =>
      attempt e' := ingest_item e in
      attempt rest' := ingest_events rest in
      Ok (e' :: rest')
  end.

Definition py_bool_lower (b : bool) : string :=
  if b then "true" else "false".

Definition opt_nonempty (s : option string) : option string :=
  match s with
  | Some v => if nonempty v then Some v else None
  | None => None
  end.

Definition page_params (tag_id series_id : option string)
    (page_size offset : Z) (active closed : option bool) : params :=
  mk_params page_size offset (opt_nonempty tag_id) (opt_nonempty series_id)
    (py_bool_lower <$> active) (py_bool_lower <$> closed).

(** [if max_events and len(all_events) >= max_events] *)
Definition limit_reached (max_events : option Z) (n : nat) : bool :=
  match max_events with
  | Some m => negb (m =? 0) && (m <=? Z.of_nat n)
  | None => false
  end.

(** [all_events[:max_events]] *)
Definition slice_to {A : Type} (l : list A) (m : Z) : list A :=
  if 0 <=? m then take (Z.to_nat m) l
  else take (length l - Z.to_nat (- m))%nat l.

Definition truncate (max_events : option Z) (all_events : list item)
  : list item :=
  match max_events with
  | Some m => if m =? 0 then all_events else slice_to all_events m
  | None => all_events
  end.

(** The [while page < max_pages] loop, [remaining = max_pages - page].
    It yields the requests issued so far next to the outcome. *)
Fixpoint paginate (E : env) (tag_id series_id : option string)
    (max_events : option Z) (page_size : Z) (active closed : option bool)
    (remaining page : nat) (offset : Z) (all_events : list item)
  : list params * result (list item) :=
  match remaining with
  | O => ([], Ok all_events)
  | S r =>
      if limit_reached max_events (length all_events)
      then ([], Ok all_events)
      else
        let p := page_params tag_id series_id page_size offset active closed in
        match _request_with_retry E p page with
        | Raise e => ([p], Raise e)
        | Ok None => ([p], Raise JSONDecodeError)
        | Ok (Some PageOther) => ([p], Ok all_events)
        | Ok (Some (PageList [])) => ([p], Ok all_events)
        | Ok (Some (PageList events)) =>
            match ingest_events events with
            | Raise e => ([p], Raise e)
            | Ok events =>
                let all_events := all_events ++ events in
                if Z.of_nat (length events) <? page_size
                then ([p], Ok all_events)
                else
                  let out :=
                    paginate E tag_id series_id max_events page_size
                      active closed r (S page)
                      (offset + Z.of_nat (length events)) all_events in
                  (p :: out.1, out.2)
            end
        end
  end.

Definition DEFAULT_PAGE_SIZE : Z := 500.
Definition DEFAULT_MAX_PAGES : Z := 500.

Definition fetch_all_events (E : env) (tag_id series_id : option string)
    (max_events : option Z) (page_size max_pages : Z)
    (active closed : option bool)
  : list params * result (list item) :=
  let out :=
    paginate E tag_id series_id max_events page_size active closed
      (Z.to_nat max_pages) 0 0 [] in
  (out.1, attempt all_events := out.2 in Ok (truncate max_events all_events)).

End Gamma.

(** ** [pm_universe/runner.py] *)

Module Runner.

Definition get (field : option scalar) : scalar := default SNone field.
Definition get_or (d : scalar) (field : option scalar) : scalar :=
  default d field.
Definition py_or (a b : scalar) : scalar := if truthy a then a else b.

Definition tags_truthy (t : option Gamma.tags_value) : bool :=
  match t with
  | Some (Gamma.TagsList items) => match items with [] => false | _ => true end
  | Some (Gamma.TagsOther truth) => truth
  | None => false
  end.

Definition event_category (event : Gamma.event) : scalar :=
  let category := get_or (SStr "") (Gamma.category event) in
  if negb (truthy category) && tags_truthy (Gamma.tags event) then
    match Gamma.tags event with
    | Some (Gamma.TagsList (first_tag :: _)) =>
        match first_tag with
        | Gamma.TagDict label slug =>
            py_or (get label) (py_or (get slug) (SStr ""))
        | Gamma.TagStr s => SStr s
        | Gamma.TagOther => category
        end
    | _ => category
    end
  else category.

Definition extract_market_record (market : Gamma.market)
    (event : Gamma.event) (pulled_at : string) : MarketRecord.t :=
  let outcomes := default [] (Gamma._outcomes_parsed market) in
  let token_ids := default [] (Gamma._clobTokenIds_parsed market) in
  MarketRecord.mk pulled_at "polymarket_gamma"
    (py_str (get_or (SStr "") (Gamma.id market)))
    (py_str (get_or (SStr "") (Gamma.slug market)))
    (py_str (get_or (SStr "") (Gamma.question market)))
    (py_str (event_category event))
    (py_str (get_or (SStr "") (Gamma.conditionId market)))
    (get (Gamma.active market))
    (get (Gamma.closed market))
    (py_str (py_or (get (Gamma.endDateIso market))
               (py_or (get (Gamma.endDate market)) (SStr ""))))
    outcomes token_ids
    (get (Gamma.volumeNum market))
    (get (Gamma.liquidityNum market)).

(** [not x] for a parsed list field: absent or empty. *)
Definition missing (field : option (list scalar)) : bool :=
  match field with
  | Some (_ :: _) => false
  | _ => true
  end.

Definition token_outcome (market : Gamma.market) (outcomes : list scalar)
    (i : nat) (token_id : scalar) : list TokenOutcome.t :=
  if truthy token_id then
    [TokenOutcome.mk (py_str token_id)
       (match outcomes !! i with Some o => py_str o | None => "" end)
       (py_str (get_or (SStr "") (Gamma.id market)))
       (py_str (get_or (SStr "") (Gamma.slug market)))
       (py_str (get_or (SStr "") (Gamma.question market)))
       (get (Gamma.active market))
       (get (Gamma.volumeNum market))
       (get (Gamma.liquidityNum market))]
  else [].

Definition extract_token_outcomes (market : Gamma.market)
  : option (list TokenOutcome.t) :=
  let outcomes := Gamma._outcomes_parsed market in
  let token_ids := Gamma._clobTokenIds_parsed market in
  if missing outcomes || missing token_ids then None
  else
    let outcomes := default [] outcomes in
    let token_ids := default [] token_ids in
    if negb (length outcomes =? length token_ids)%nat then None
    else
      match concat (imap (token_outcome market outcomes) token_ids) with
      | [] => None
      | result => Some result
      end.

Record config : Type := mk_config {
  date_str : option string;
  outdir : option string;
  tag_id : option string;
  max_markets : option Z;
  concurrency : Z;
  batch_size : Z;
  dry_run : bool;
  gamma_rate : Q;
  gamma_page_size : Z;
  clob_rate : Q;
  active_only : bool;
  category_filter : option string;
  sports_series_ids : option (list Z);
}.

(** The world of one run: the clock readings, the catalog service as
    seen by the [k]-th enumeration, and the pricing service. *)
Record env : Type := mk_env {
  start_ts : string;
  today : string;
  pulled_at : string;
  end_ts : string;
  catalog : nat → Gamma.env;
  pricing : Clob.env;
}.

(** *** Step 2: extraction *)

Record extraction : Type := mk_extraction {
  market_records : list MarketRecord.t;
  all_token_outcomes : list TokenOutcome.t;
  markets_with_tokens : Z;
  markets_skipped_no_tokens : Z;
  markets_skipped_mismatched : Z;
  markets_not_clob_tradable : Z;
  total_markets_processed : Z;
}.

Definition extraction_start : extraction := mk_extraction [] [] 0 0 0 0 0.

(** [max_markets and total_markets_processed >= max_markets] *)
Definition cap_reached (cfg : config) (st : extraction) : bool :=
  match max_markets cfg with
  | Some m => negb (m =? 0) && (m <=? total_markets_processed st)
  | None => false
  end.

(** The category filter of the loop body: [true] when the market is
    kept. *)
Definition passes_filter (cfg : config) (record : MarketRecord.t) : bool :=
  match category_filter cfg with
  | Some f =>
      if nonempty f
      then substring_in (lower f) (lower (MarketRecord.category record))
      else true
  | None => true
  end.

Definition is_False (v : option scalar) : bool :=
  match v with
  | Some (SBool false) => true
  | _ => false
  end.

(** The body of [for market in event_markets], after the cap test. *)
Definition process_market (cfg : config) (pulled_at : string)
    (event : Gamma.event) (st : extraction) (market : Gamma.market)
  : extraction :=
  let record := extract_market_record market event pulled_at in
  if negb (passes_filter cfg record) then st
  else
    let total := total_markets_processed st + 1 in
    let records := market_records st ++ [record] in
    let outcomes := Gamma._outcomes_parsed market in
    let token_ids := Gamma._clobTokenIds_parsed market in
    if missing outcomes || missing token_ids then
      mk_extraction records (all_token_outcomes st) (markets_with_tokens st)
        (markets_skipped_no_tokens st + 1) (markets_skipped_mismatched st)
        (markets_not_clob_tradable st) total
    else if negb (length (default [] outcomes)
                  =? length (default [] token_ids))%nat then
      mk_extraction records (all_token_outcomes st) (markets_with_tokens st)
        (markets_skipped_no_tokens st) (markets_skipped_mismatched st + 1)
        (markets_not_clob_tradable st) total
    else
      let not_tradable :=
        if is_False (Gamma.enableOrderBook market)
        then markets_not_clob_tradable st + 1
        else markets_not_clob_tradable st in
      match extract_token_outcomes market with
      | Some token_outcomes =>
          mk_extraction records (all_token_outcomes st ++ token_outcomes)
            (markets_with_tokens st + 1) (markets_skipped_no_tokens st)
            (markets_skipped_mismatched st) not_tradable total
      | None =>
          mk_extraction records (all_token_outcomes st)
            (markets_with_tokens st) (markets_skipped_no_tokens st + 1)
            (markets_skipped_mismatched st) not_tradable total
      end.

Fixpoint markets_loop (cfg : config) (pulled_at : string)
    (event : Gamma.event) (event_markets : list Gamma.market)
    (st : extraction) : extraction :=
  match event_markets with
  | [] => st
  | market :: rest =>
      if cap_reached cfg st then st
      else markets_loop cfg pulled_at event rest
             (process_market cfg pulled_at event st market)
  end.

(** The loop [for event in raw_events].  An item that is not a dict
    raises at [event.get]; in a list of markets an element that is not a
    dict raises at [market.get], unless the cap stops the inner loop
    before it. *)
Fixpoint events_loop (cfg : config) (pulled_at : string)
    (raw_events : list Gamma.item) (st : extraction) : result extraction :=
  match raw_events with
  | [] => Ok st
  | Gamma.NotADict _ :: _ => Raise AttributeError
  | Gamma.Event event :: rest =>
      match Gamma.markets event with
      | Some (Gamma.MarketsOther _) => events_loop cfg pulled_at rest st
      | Some Gamma.MarketsScalar => events_loop cfg pulled_at rest st
      | Some (Gamma.MarketsBroken before) =>
          let st := markets_loop cfg pulled_at event before st in
          if cap_reached cfg st then Ok st else Raise AttributeError
      | other =>
          let event_markets :=
            match other with
            | Some (Gamma.MarketsList ms) => ms
            | _ => []
            end in
          let st := markets_loop cfg pulled_at event event_markets st in
          if cap_reached cfg st then Ok st
          else events_loop cfg pulled_at rest st
      end
  end.

Definition extract (cfg : config) (pulled_at : string)
    (raw_events : list Gamma.item) : result extraction :=
  events_loop cfg pulled_at raw_events extraction_start.

(** *** The run *)

Inductive payload : Type :=
  | RawGamma (events : list Gamma.item)
  | MarketsCsv (records : list MarketRecord.t)
  | ClobBatch (response : Clob.raw_response)
  | PricesCsv (rows : list PriceResult.t)
  | ManifestJson (manifest : RunManifest.t).

Record write : Type := mk_write {
  path : string;
  content : payload;
}.

Record call : Type := mk_call {
  call_tag_id : option string;
  call_series_id : option string;
}.

(** What a run does to the outside: the [fetch_all_events] calls, the
    catalog requests, and the files written, in order. *)
Record trace : Type := mk_trace {
  calls : list call;
  requests : list Gamma.params;
  writes : list write;
}.

Definition join (dir name : string) : string :=
  String.append dir (String.append "/" name).

(** [f"{batch_num:04d}"] *)
Definition pad4 (n : nat) : string :=
  let ds := digits (Z.of_nat n) in
  text (replicate (4 - length ds) "0"%char ++ ds).

(** [RateLimiter.__init__] divides by the rate. *)
Definition rate_ok (requests_per_second : Q) : bool :=
  negb (Qnum requests_per_second =? 0).

Definition max_events (cfg : config) : option Z :=
  match max_markets cfg with
  | Some m => if m =? 0 then None else Some m
  | None => None
  end.

Definition gamma_active (cfg : config) : option bool :=
  if active_only cfg then Some true else None.
Definition gamma_closed (cfg : config) : option bool :=
  if active_only cfg then Some false else None.

Fixpoint series_loop (cfg : config) (E : env) (ids : list Z) (k : nat)
    (raw_events : list Gamma.item)
  : list call * list Gamma.params * result (list Gamma.item) :=
  match ids with
  | [] => ([], [], Ok raw_events)
  | sport_series_id :: rest =>
      let series_id := Some (show_int sport_series_id) in
      let out :=
        Gamma.fetch_all_events (catalog E k) None series_id
          (max_events cfg) (gamma_page_size cfg) Gamma.DEFAULT_MAX_PAGES
          (gamma_active cfg) (gamma_closed cfg) in
      match out.2 with
      | Raise e => ([mk_call None series_id], out.1, Raise e)
      | Ok events =>
          let '(cs, rs, r) :=
            series_loop cfg E rest (S k) (raw_events ++ events) in
          (mk_call None series_id :: cs, out.1 ++ rs, r)
      end
  end.

(** Step 1 *)
Definition fetch_catalog (cfg : config) (E : env)
  : list call * list Gamma.params * result (list Gamma.item) :=
  match sports_series_ids cfg with
  | Some (sport_series_id :: rest) =>
      series_loop cfg E (sport_series_id :: rest) 0 []
  | _ =>
      let out :=
        Gamma.fetch_all_events (catalog E 0%nat) (tag_id cfg) None
          (max_events cfg) (gamma_page_size cfg) Gamma.DEFAULT_MAX_PAGES
          (gamma_active cfg) (gamma_closed cfg) in
      ([mk_call (tag_id cfg) None], out.1, out.2)
  end.

Definition manifest_after_extraction (E : env) (date : string)
    (ex : extraction) (files : list (string * string)) : RunManifest.t :=
  RunManifest.mk (start_ts E) "" date
    (total_markets_processed ex) (markets_with_tokens ex)
    (markets_skipped_no_tokens ex) (markets_skipped_mismatched ex)
    (markets_not_clob_tradable ex)
    (Z.of_nat (length (all_token_outcomes ex))) 0 0 0 0 files.

Definition with_prices (m : RunManifest.t) (batches : nat)
    (st : Clob.stats) (files : list (string * string)) : RunManifest.t :=
  RunManifest.mk (RunManifest.start_ts_utc m) (RunManifest.end_ts_utc m)
    (RunManifest.date m) (RunManifest.markets_total m)
    (RunManifest.markets_with_tokens m)
    (RunManifest.markets_skipped_no_tokens m)
    (RunManifest.markets_skipped_mismatched_arrays m)
    (RunManifest.markets_not_clob_tradable m)
    (RunManifest.tokens_total m)
    (Clob.tokens_priced_ok st) (Clob.tokens_missing_price st)
    (Clob.api_errors st) (Z.of_nat batches)
    (RunManifest.files m ++ files).

Definition finished (m : RunManifest.t) (end_ts : string)
    (files : list (string * string)) : RunManifest.t :=
  RunManifest.mk (RunManifest.start_ts_utc m) end_ts
    (RunManifest.date m) (RunManifest.markets_total m)
    (RunManifest.markets_with_tokens m)
    (RunManifest.markets_skipped_no_tokens m)
    (RunManifest.markets_skipped_mismatched_arrays m)
    (RunManifest.markets_not_clob_tradable m)
    (RunManifest.tokens_total m) (RunManifest.tokens_priced_ok m)
    (RunManifest.tokens_missing_price m) (RunManifest.api_errors m)
    (RunManifest.price_batches m)
    (RunManifest.files m ++ files).

Definition run_fetch (cfg : config) (E : env)
  : trace * result RunManifest.t :=
  let date := default (today E) (date_str cfg) in
  let base := default "data" (outdir cfg) in
  if negb (rate_ok (gamma_rate cfg) && rate_ok (clob_rate cfg))
  then (mk_trace [] [] [], Raise ZeroDivisionError)
  else
    let '(cs, rs, fetched) := fetch_catalog cfg E in
    match fetched with
    | Raise e => (mk_trace cs rs [], Raise e)
    | Ok raw_events =>
        let raw_gamma_path :=
          join (join (join base "raw") "gamma")
            (String.append "events_" (String.append date ".json")) in
        let w_raw := mk_write raw_gamma_path (RawGamma raw_events) in
        match extract cfg (pulled_at E) raw_events with
        | Raise e => (mk_trace cs rs [w_raw], Raise e)
        | Ok ex =>
            let markets_csv_path :=
              join (join base "markets")
                (String.append "markets_" (String.append date ".csv")) in
            let w_markets :=
              mk_write markets_csv_path (MarketsCsv (market_records ex)) in
            let manifest :=
              manifest_after_extraction E date ex
                [("raw_gamma", raw_gamma_path);
                 ("markets_csv", markets_csv_path)] in
            let manifest_path :=
              join (join base "run")
                (String.append "run_manifest_" (String.append date ".json")) in
            if dry_run cfg then
              let manifest := finished manifest (end_ts E) [] in
              (mk_trace cs rs
                 [w_raw; w_markets;
                  mk_write manifest_path (ManifestJson manifest)],
               Ok manifest)
            else
              match all_token_outcomes ex with
              | [] =>
                  let manifest := finished manifest (end_ts E) [] in
                  (mk_trace cs rs
                     [w_raw; w_markets;
                      mk_write manifest_path (ManifestJson manifest)],
                   Ok (finished manifest (end_ts E)
                         [("manifest", manifest_path)]))
              | tokens =>
                  match
                    Clob.fetch_all_prices (pricing E) (pulled_at E) tokens
                      (concurrency cfg) (batch_size cfg) (Some (pulled_at E))
                  with
                  | Raise e => (mk_trace cs rs [w_raw; w_markets], Raise e)
                  | Ok (price_results, raw_batches, price_stats) =>
                      let batch_dir :=
                        join (join (join (join base "raw") "clob")
                                "prices_batches")
                          (String.append "markets_" date) in
                      let w_batches :=
                        map
                          (λ r,
                             mk_write
                               (join batch_dir
                                  (String.append "batch_"
                                     (String.append
                                        (pad4 (Clob.raw_batch_num r)) ".json")))
                               (ClobBatch r))
                          raw_batches in
                      let prices_csv_path :=
                        join (join base "prices")
                          (String.append "prices_"
                             (String.append date ".csv")) in
                      let latest_csv_path :=
                        join (join base "prices") "latest.csv" in
                      let manifest :=
                        with_prices manifest (length raw_batches) price_stats
                          [("prices_csv", prices_csv_path);
                           ("latest_csv", latest_csv_path)] in
                      let manifest := finished manifest (end_ts E) [] in
                      (mk_trace cs rs
                         ([w_raw; w_markets] ++ w_batches
                          ++ [mk_write prices_csv_path (PricesCsv price_results);
                              mk_write latest_csv_path (PricesCsv price_results);
                              mk_write manifest_path (ManifestJson manifest)]),
                       Ok (finished manifest (end_ts E)
                             [("manifest", manifest_path)]))
                  end
              end
        end
    end.

(** The manifest files a run has written. *)
Definition manifests_written (t : trace) : list RunManifest.t :=
  omap (λ w, match content w with
             | ManifestJson m => Some m
             | _ => None
             end) (writes t).

End Runner.

(** * Vocabulary of the properties *)

(** ** Extraction *)

(** The classification counters add up to the markets processed. *)
Definition partitioned (st : Runner.extraction) : Prop :=
  Runner.total_markets_processed st
  = Runner.markets_with_tokens st + Runner.markets_skipped_no_tokens st
    + Runner.markets_skipped_mismatched st.

(** The verdict of the loop body on an accepted market. *)
Inductive verdict : Type := WithTokens | NoTokens | Mismatched.

Definition classify (market : Gamma.market) : verdict :=
  if Runner.missing (Gamma._outcomes_parsed market)
     || Runner.missing (Gamma._clobTokenIds_parsed market) then NoTokens
  else if negb (length (default [] (Gamma._outcomes_parsed market))
                =? length (default [] (Gamma._clobTokenIds_parsed market)))%nat
  then Mismatched
  else match Runner.extract_token_outcomes market with
       | Some _ => WithTokens
       | None => NoTokens
       end.

Definition bump (v w : verdict) : Z :=
  match v, w with
  | WithTokens, WithTokens | NoTokens, NoTokens | Mismatched, Mismatched => 1
  | _, _ => 0
  end.

(** The market is kept by the category filter of the loop body. *)
Definition accepted (cfg : Runner.config) (pulled_at : string)
    (event : Gamma.event) (market : Gamma.market) : Prop :=
  Runner.passes_filter cfg (Runner.extract_market_record market event pulled_at)
  = true.

(** Both parsed lists are present and non-empty. *)
Definition both_present (market : Gamma.market) : Prop :=
  Runner.missing (Gamma._outcomes_parsed market) = false
  ∧ Runner.missing (Gamma._clobTokenIds_parsed market) = false.

Definition same_length (market : Gamma.market) : Prop :=
  length (default [] (Gamma._outcomes_parsed market))
  = length (default [] (Gamma._clobTokenIds_parsed market)).

Definition set_enableOrderBook (v : option scalar) (m : Gamma.market)
  : Gamma.market :=
  Gamma.mk_market (Gamma.id m) (Gamma.slug m) (Gamma.question m)
    (Gamma.conditionId m) (Gamma.active m) (Gamma.closed m)
    (Gamma.endDateIso m) (Gamma.endDate m) (Gamma.volumeNum m)
    (Gamma.liquidityNum m) v (Gamma.outcomes m) (Gamma.clobTokenIds m)
    (Gamma._outcomes_parsed m) (Gamma._clobTokenIds_parsed m).

(** ** Sample data *)

Definition sample_market (ident : string) (outcomes token_ids : Gamma.raw_field)
    (enableOrderBook : option scalar) : Gamma.market :=
  Gamma.mk_market (Some (SStr ident)) None None None None None None None
    None None enableOrderBook outcomes token_ids None None.

Definition sample_event (category : string) (ms : list Gamma.market)
  : Gamma.event :=
  Gamma.mk_event (Some (SStr category)) None (Some (Gamma.MarketsList ms)).

Definition plain_config : Runner.config :=
  Runner.mk_config None None None None 5 500 false (2 # 1) 500 (1 # 1) false
    None None.

Definition sports_filter_config : Runner.config :=
  Runner.mk_config None None None None 5 500 false (2 # 1) 500 (1 # 1) false
    (Some "sports") None.

Definition yes_no : Gamma.raw_field :=
  Gamma.FieldList [SStr "Yes"; SStr "No"].

(** Outcome labels [["Yes","No"]] with a single token id. *)
Definition mismatched_market : Gamma.market :=
  Gamma.ingest_market
    (sample_market "m1" yes_no (Gamma.FieldList [SStr "t1"]) None).

(** A market flagged not tradable that carries no token lists. *)
Definition untradable_empty_market : Gamma.market :=
  Gamma.ingest_market
    (sample_market "m2" Gamma.FieldNone Gamma.FieldNone (Some (SBool false))).

(** A market flagged not tradable with two priceable tokens. *)
Definition untradable_market : Gamma.market :=
  Gamma.ingest_market
    (sample_market "m3" yes_no (Gamma.FieldList [SStr "t1"; SStr "t2"])
       (Some (SBool false))).

(** The catalog answers page [k] of every enumeration with the [k]-th
    list of [pages], at the first attempt. *)
Definition catalog_serving (pages : list (list Gamma.event)) : Gamma.env :=
  λ _ page_num _,
    Response 200
      (Some (Gamma.PageList
               (map Gamma.Event (default [] (pages !! page_num))))).

(** The catalog fails every attempt with a transport error. *)
Definition catalog_down : Gamma.env := λ _ _ _, TransportError.

(** The pricing service answers every batch with [body], at the first
    attempt; batches complete in submission order. *)
Definition pricing_serving (body : list (string * Clob.sides)) : Clob.env :=
  Clob.mk_env (λ _ _, Response 200 (Some (Clob.DataDict body))) (λ i, i).

Definition quote (token_id bid ask : string) : string * Clob.sides :=
  (token_id, Clob.SidesDict [("BUY", SStr ask); ("SELL", SStr bid)]).

Definition sample_env (pages : list (list Gamma.event))
    (body : list (string * Clob.sides)) : Runner.env :=
  Runner.mk_env "2026-01-01T00:00:00+00:00" "2026-01-01"
    "2026-01-01T00:00:05+00:00" "2026-01-01T00:00:09+00:00"
    (λ _, catalog_serving pages) (pricing_serving body).

(** The end-to-end scenario: two pages of page size two, three markets,
    four tokens, of which [t4] gets no price. *)
Definition market_A1 : Gamma.market :=
  sample_market "A1" yes_no (Gamma.FieldList [SStr "t1"; SStr "t2"]) None.
Definition market_A2 : Gamma.market :=
  sample_market "A2" (Gamma.FieldList []) (Gamma.FieldList []) None.
Definition market_B1 : Gamma.market :=
  sample_market "B1" (Gamma.FieldText (Some [SStr "Yes"; SStr "No"]))
    (Gamma.FieldText (Some [SStr "t3"; SStr "t4"])) None.

Definition scenario_pages : list (list Gamma.event) :=
  [[sample_event "Sports" [market_A1; market_A2]; sample_event "Sports" []];
   [sample_event "Politics" [market_B1]]].

Definition scenario_config : Runner.config :=
  Runner.mk_config None None None None 5 500 false (2 # 1) 2 (1 # 1) false
    None None.

Definition scenario_env : Runner.env :=
  sample_env scenario_pages
    [quote "t1" "0.45" "0.47"; quote "t2" "0.53" "0.55";
     quote "t3" "0.10" "0.12"].

Definition scenario_run : Runner.trace * result RunManifest.t :=
  Eval vm_compute in Runner.run_fetch scenario_config scenario_env.

Definition manifest_partitioned (m : RunManifest.t) : Prop :=
  RunManifest.markets_total m
  = RunManifest.markets_with_tokens m
    + RunManifest.markets_skipped_no_tokens m
    + RunManifest.markets_skipped_mismatched_arrays m.

(** ** The run *)

(** At most one of the two catalog filters is set. *)
Definition one_filter (tag_id series_id : option string) : Prop :=
  tag_id = None ∨ series_id = None.

(** The stages after the catalog fetch get to the manifest: the
    extraction returns, and the run is a dry run, or no token was queued,
    or the price client returns. *)
Definition pricing_stage_returns (cfg : Runner.config) (E : Runner.env)
    (events : list Gamma.item) : Prop :=
  ∃ ex,
    Runner.extract cfg (Runner.pulled_at E) events = Ok ex
    ∧ let tokens := Runner.all_token_outcomes ex in
      Runner.dry_run cfg = true ∨ tokens = []
      ∨ returns (Clob.fetch_all_prices (Runner.pricing E)
                   (Runner.pulled_at E) tokens (Runner.concurrency cfg)
                   (Runner.batch_size cfg) (Some (Runner.pulled_at E))).

(** [<outdir>/run/run_manifest_<date>.json] *)
Definition run_manifest_path (cfg : Runner.config) (E : Runner.env) : string :=
  Runner.join (Runner.join (default "data" (Runner.outdir cfg)) "run")
    (String.append "run_manifest_"
       (String.append (default (Runner.today E) (Runner.date_str cfg))
          ".json")).

Definition is_manifest_write (cfg : Runner.config) (E : Runner.env)
    (w : Runner.write) (m : RunManifest.t) : Prop :=
  Runner.path w = run_manifest_path cfg E
  ∧ Runner.content w = Runner.ManifestJson m.

(** A catalog that is down, and one that has no events. *)
Definition down_env : Runner.env :=
  Runner.mk_env "2026-01-01T00:00:00+00:00" "2026-01-01"
    "2026-01-01T00:00:05+00:00" "2026-01-01T00:00:09+00:00"
    (λ _, catalog_down) (pricing_serving []).

Definition empty_env : Runner.env := sample_env [] [].

Definition empty_run : Runner.trace * result RunManifest.t :=
  Eval vm_compute in Runner.run_fetch plain_config empty_env.

Definition sports_config : Runner.config :=
  Runner.mk_config None None (Some "100") None 5 500 false (2 # 1) 2 (1 # 1)
    false None (Some [10345; 3]).

Definition one_series_config : Runner.config :=
  Runner.mk_config None None None None 5 500 false (2 # 1) 500 (1 # 1)
    false None (Some [10345]).

(** A catalog whose first page holds a string where an event is
    expected. *)
Definition odd_catalog : Gamma.env :=
  λ _ page_num _,
    Response 200
      (Some (Gamma.PageList
               (match page_num with
                | O => [Gamma.NotADict true]
                | S _ => []
                end))).

Definition odd_env : Runner.env :=
  Runner.mk_env "2026-01-01T00:00:00+00:00" "2026-01-01"
    "2026-01-01T00:00:05+00:00" "2026-01-01T00:00:09+00:00"
    (λ _, odd_catalog) (pricing_serving []).

(** ** Pagination *)

(** The number of events that page [k], requested with parameters [p],
    returns. *)
Definition returned (E : Gamma.env) (p : Gamma.params) (k : nat) : Z :=
  match Gamma._request_with_retry E p k with
  | Ok (Some (Gamma.PageList events)) => Z.of_nat (length events)
  | _ => 0
  end.

(** The events returned by the requests [reqs], made for the pages from
    [page] on. *)
Fixpoint accumulated (E : Gamma.env) (page : nat) (reqs : list Gamma.params)
  : Z :=
  match reqs with
  | [] => 0
  | p :: rest => returned E p page + accumulated E (S page) rest
  end.

(** [count] events reach a limit that is set. *)
Definition at_limit (max_events : option Z) (count : Z) : Prop :=
  ∃ m, max_events = Some m ∧ m ≠ 0 ∧ m ≤ count.

(** What an enumeration that returns [res] after the requests [reqs] has
    done, when it started at page [page] with [offset] events and
    [remaining] pages to go: every request asks for [page_size] events at
    the offset reached so far, below the limit, every request but the last
    got a full page, and the loop stopped because the last page was short
    or brought nothing, or the pages ran out, or the limit was reached. *)
Definition enumerated (E : Gamma.env) (max_events : option Z)
    (page_size : Z) (remaining page : nat) (offset : Z)
    (reqs : list Gamma.params) (res : list Gamma.item) : Prop :=
  (length reqs ≤ remaining)%nat
  ∧ Z.of_nat (length res) = offset + accumulated E page reqs
  ∧ (∀ k p, reqs !! k = Some p →
       Gamma.p_limit p = page_size
       ∧ Gamma.p_offset p = offset + accumulated E page (take k reqs)
       ∧ ¬ at_limit max_events (Gamma.p_offset p)
       ∧ ((S k < length reqs)%nat → page_size ≤ returned E p (page + k)))
  ∧ ((∃ p, last reqs = Some p
           ∧ (returned E p (page + length reqs - 1) < page_size
              ∨ returned E p (page + length reqs - 1) = 0))
     ∨ length reqs = remaining
     ∨ at_limit max_events (offset + accumulated E page reqs)).

Definition scenario_catalog : Gamma.env := catalog_serving scenario_pages.

Definition scenario_enumeration
  : list Gamma.params * result (list Gamma.item) :=
  Eval vm_compute in
    Gamma.fetch_all_events scenario_catalog None None (Some 10) 2 500 None None.

(** ** The price client *)

(** The batches of a call, and what the collecting loop holds after the
    pool has been joined. *)
Definition batches_of (tokens : list TokenOutcome.t) (batch_size : Z)
  : list (list Clob.request_item) :=
  match chunk_list (Clob.build_request_items tokens) batch_size with
  | Ok batches => batches
  | Raise _ => []
  end.

Definition collected (E : Clob.env) (tokens : list TokenOutcome.t)
    (batch_size : Z) : Clob.collector :=
  Clob.run_batches E (batches_of tokens batch_size).

Definition bid_of (c : Clob.collector) (token_id : string) : string :=
  default "" (default ∅ (Clob.prices_by_token c !! token_id) !! "SELL").
Definition ask_of (c : Clob.collector) (token_id : string) : string :=
  default "" (default ∅ (Clob.prices_by_token c !! token_id) !! "BUY").

(** Averaging the collected prices of the tokens raises no decimal
    signal. *)
Definition averaging_returns (c : Clob.collector)
    (tokens : list TokenOutcome.t) : Prop :=
  ∀ token, token ∈ tokens →
    returns (Clob.compute_mid (bid_of c (TokenOutcome.token_id token))
               (ask_of c (TokenOutcome.token_id token))).

(** The collecting loop marks the batch as failed: its worker raised, its
    status is not 200, or its body is not a dict. *)
Definition batch_failed (E : Clob.env) (i : nat) : bool :=
  match Clob._fetch_batch E i with
  | Raise _ => true
  | Ok (_, d, status) =>
      if status =? 200
      then match d with Clob.DataOther true => true | _ => false end
      else true
  end.

(** The token has a request item in a batch that failed. *)
Definition flagged (E : Clob.env) (batches : list (list Clob.request_item))
    (token_id : string) : Prop :=
  ∃ i batch,
    batches !! i = Some batch ∧ batch_failed E i = true
    ∧ token_id ∈ map Clob.item_token_id batch.

(** The attempt is one that the retry loop repeats. *)
Definition retried (o : attempt_outcome Clob.data) : Prop :=
  match o with
  | Response status _ => status = 429 ∨ 500 ≤ status
  | TransportError => True
  | Failure _ => False
  end.

Definition exhausted (E : Clob.env) (i : nat) : Prop :=
  ∀ k, (k < MAX_RETRIES)%nat → retried (Clob.server E i k).

Definition worker_raises (E : Clob.env) (i : nat) : Prop :=
  ∃ e, Clob._fetch_batch E i = Raise e.

(** The entries that the collecting loop merges from batch [i]. *)
Definition delivered (E : Clob.env) (i : nat) : list (string * Clob.sides) :=
  match Clob._fetch_batch E i with
  | Ok (_, Clob.DataDict entries, status) =>
      if status =? 200 then entries else []
  | _ => []
  end.

(** Some batch delivered a dict of sides for the token. *)
Definition priced (E : Clob.env) (batches : list (list Clob.request_item))
    (token_id : string) : Prop :=
  ∃ i es, (i < length batches)%nat
          ∧ (token_id, Clob.SidesDict es) ∈ delivered E i.

Definition token (token_id : string) : TokenOutcome.t :=
  TokenOutcome.mk token_id "Yes" "m" "slug" "question" SNone SNone SNone.




(** Batch 0 fails every attempt with a server error; the other batches
    answer with a SELL price for [t1]. *)
Definition split_env : Clob.env :=
  Clob.mk_env
    (λ i _,
       match i with
       | O => Response 500 None
       | S _ =>
           Response 200
             (Some (Clob.DataDict
                      [("t1", Clob.SidesDict [("SELL", SStr "0.40")])]))
       end)
    (λ i, i).

Definition scenario_tokens : list TokenOutcome.t :=
  [token "t1"; token "t2"; token "t3"; token "t4"].

Definition scenario_pricing : Clob.env :=
  pricing_serving
    [quote "t1" "0.45" "0.47"; quote "t2" "0.53" "0.55";
     quote "t3" "0.10" "0.12"].

Definition split_results : list PriceResult.t :=
  Eval vm_compute in
    match Clob.fetch_all_prices split_env "" [token "t1"] 5 1 None with
    | Ok (results, _, _) => results
    | Raise _ => []
    end.

Definition scenario_prices
  : result (list PriceResult.t * list Clob.raw_response * Clob.stats) :=
  Eval vm_compute in
    Clob.fetch_all_prices scenario_pricing "" scenario_tokens 5 500 None.

(** ** Decimal averages *)

(** The value of a finite decimal in units of [10^E], for [E] at most its
    exponent. *)
Definition units (E : Z) (d : Dec.t) : Z :=
  match d with
  | Dec.Finite neg c e => Dec.signed neg c * 10 ^ (e - E)
  | _ => 0
  end.

(** [m] is exactly the arithmetic mean of [b] and [a]. *)
Definition is_mean (m b a : Dec.t) : Prop :=
  match m, b, a with
  | Dec.Finite _ _ em, Dec.Finite _ _ eb, Dec.Finite _ _ ea =>
      let E := Z.min em (Z.min eb ea) in
      2 * units E m = units E b + units E a
  | _, _, _ => False
  end.

(** Both operands are finite, their smaller exponent is within the
    context's range, and five times their exact sum, written at that
    exponent, has at most 28 digits: the sum and its half need no
    rounding. *)
Definition within_precision (b a : Dec.t) : Prop :=
  match b, a with
  | Dec.Finite _ _ eb, Dec.Finite _ _ ea =>
      let e := Z.min eb ea in
      Dec.Etiny < e ∧ e ≤ Dec.Etop
      ∧ 5 * Z.abs (units e b + units e a) < 10 ^ Dec.prec
  | _, _ => False
  end.

Definition precise_pricing : Clob.env :=
  pricing_serving [quote "t1" "0.1000000000000000000000000001" "0.1"].

Definition precise_results : list PriceResult.t :=
  Eval vm_compute in
    match Clob.fetch_all_prices precise_pricing "" [token "t1"] 5 500 None with
    | Ok (results, _, _) => results
    | Raise _ => []
    end.

(** Configurations at the edge: one market at most, a zero request rate,
    a zero batch size. *)
Definition capped_config : Runner.config :=
  Runner.mk_config None None None (Some 1) 5 500 false (2 # 1) 500 (1 # 1)
    false None None.

Definition zero_rate_config : Runner.config :=
  Runner.mk_config None None None None 5 500 false (0 # 1) 2 (1 # 1) false
    None None.

Definition zero_batch_config : Runner.config :=
  Runner.mk_config None None None None 5 0 false (2 # 1) 2 (1 # 1) false
    None None.

(** A market flagged not tradable whose lists differ in length. *)
Definition untradable_mismatched_market : Gamma.market :=
  Gamma.ingest_market
    (sample_market "m4" yes_no (Gamma.FieldList [SStr "t1"])
       (Some (SBool false))).

(** ** Vocabulary of the further properties *)

(** The number of results with the given status. *)
Definition with_status (status : string) (results : list PriceResult.t) : Z :=
  Z.of_nat (length (filter (λ r, PriceResult.status r = status) results)).

(** The record that the collecting loop keeps of batch [i], if its worker
    returned. *)
Definition raw_of (E : Clob.env) (i : nat) : option Clob.raw_response :=
  match Clob._fetch_batch E i with
  | Ok (_, d, status) => Some (Clob.mk_raw i status d)
  | Raise _ => None
  end.

(** The token ids for which a response body carries a dict of sides. *)
Definition dict_keys (entries : list (string * Clob.sides)) : list string :=
  omap (λ entry, match entry.2 with
                 | Clob.SidesDict _ => Some entry.1
                 | Clob.SidesOther => None
                 end) entries.

(** Two states of the collecting loop that price and mark alike. *)
Definition same_prices (c c' : Clob.collector) : Prop :=
  Clob.prices_by_token c = Clob.prices_by_token c'
  ∧ Clob.api_error_tokens c = Clob.api_error_tokens c'.

(** No token id is delivered by two different batches. *)
Definition deliveries_disjoint (E : Clob.env) (n : nat) : Prop :=
  ∀ i j token_id, (i < n)%nat → (j < n)%nat → i ≠ j →
    token_id ∈ dict_keys (delivered E i) →
    token_id ∉ dict_keys (delivered E j).

(** Batches complete in reverse order of submission. *)
Definition reversed (i : nat) : nat := 1000 - i.

(** The attempt is one that the catalog's retry loop repeats. *)
Definition retried_page (o : attempt_outcome Gamma.body) : Prop :=
  match o with
  | Response status _ => status = 429 ∨ 500 ≤ status
  | TransportError => True
  | Failure _ => False
  end.

(** ** Token extraction *)

Definition token_label (t : TokenOutcome.t) : string * string :=
  (TokenOutcome.token_id t, TokenOutcome.outcome t).

(** The token ids that are not falsy, each with the outcome label at its
    own position. *)
Definition paired (token_ids outcomes : list scalar)
  : list (string * string) :=
  map (λ p, (py_str p.1, py_str p.2))
    (filter (λ p, truthy p.1 = true) (zip token_ids outcomes)).

(** Two outcome labels, the first token id empty. *)
Definition half_listed_market : Gamma.market :=
  Gamma.ingest_market
    (sample_market "m4" yes_no (Gamma.FieldList [SStr ""; SStr "t2"]) None).

(** ** The run *)

(** The same world with another pricing service. *)
Definition with_pricing (E : Runner.env) (P : Clob.env) : Runner.env :=
  Runner.mk_env (Runner.start_ts E) (Runner.today E) (Runner.pulled_at E)
    (Runner.end_ts E) (Runner.catalog E) P.

Definition dry_config : Runner.config :=
  Runner.mk_config None None None None 5 500 true (2 # 1) 2 (1 # 1) false
    None None.

(** The first characters of a path below the output directory. *)
Definition path_key (base : string) (p : string) : list ascii :=
  take 9 (drop (length (chars base)) (chars p)).

(** *** Sports mode *)

(** What the enumeration of the [k]-th series gives. *)
Definition series_events (cfg : Runner.config) (E : Runner.env) (k : nat)
    (sport_series_id : Z) : result (list Gamma.item) :=
  (Gamma.fetch_all_events (Runner.catalog E k) None
     (Some (show_int sport_series_id)) (Runner.max_events cfg)
     (Runner.gamma_page_size cfg) Gamma.DEFAULT_MAX_PAGES
     (Runner.gamma_active cfg) (Runner.gamma_closed cfg)).2.

Definition series_call (sport_series_id : Z) : Runner.call :=
  Runner.mk_call None (Some (show_int sport_series_id)).

(** The same configuration with another tag. *)
Definition with_tag (cfg : Runner.config) (tag_id : option string)
  : Runner.config :=
  Runner.mk_config (Runner.date_str cfg) (Runner.outdir cfg) tag_id
    (Runner.max_markets cfg) (Runner.concurrency cfg) (Runner.batch_size cfg)
    (Runner.dry_run cfg) (Runner.gamma_rate cfg) (Runner.gamma_page_size cfg)
    (Runner.clob_rate cfg) (Runner.active_only cfg)
    (Runner.category_filter cfg) (Runner.sports_series_ids cfg).

(** ** The events of an enumeration *)

(** The item got through the ingestion: the markets of an event are
    dicts that carry the parsed forms of their raw [outcomes] and
    [clobTokenIds], or its ["markets"] is absent or empty; an item that is
    not a dict is one the loop passes over. *)
Definition ingested (i : Gamma.item) : Prop :=
  match i with
  | Gamma.Event e =>
      match Gamma.markets e with
      | Some (Gamma.MarketsList ms) =>
          Forall (λ m, Gamma._outcomes_parsed m
                       = Gamma.parse_json_string_field (Gamma.outcomes m)
                       ∧ Gamma._clobTokenIds_parsed m
                         = Gamma.parse_json_string_field
                             (Gamma.clobTokenIds m))
            ms
      | Some (Gamma.MarketsOther quiet) => quiet = true
      | Some (Gamma.MarketsBroken _) => False
      | Some Gamma.MarketsScalar => False
      | None => True
      end
  | Gamma.NotADict skipped => skipped = true
  end.

(** The events that page [k], requested with parameters [p], adds to the
    enumeration. *)
Definition page_events (E : Gamma.env) (p : Gamma.params) (k : nat)
  : list Gamma.item :=
  match Gamma._request_with_retry E p k with
  | Ok (Some (Gamma.PageList events)) =>
      match Gamma.ingest_events events with
      | Ok events => events
      | Raise _ => []
      end
  | _ => []
  end.

(** A raw market as the catalog serves it, its lists JSON-encoded. *)
Definition served_event : Gamma.event :=
  sample_event "Sports"
    [sample_market "A1" (Gamma.FieldText (Some [SStr "Yes"; SStr "No"]))
       (Gamma.FieldText (Some [SStr "t1"; SStr "t2"])) None].




(** The key under which the manifest indexes a file of this content. *)
Definition indexes (key : string) (c : Runner.payload) : Prop :=
  match c with
  | Runner.RawGamma _ => key = "raw_gamma"
  | Runner.MarketsCsv _ => key = "markets_csv"
  | Runner.PricesCsv _ => key = "prices_csv" ∨ key = "latest_csv"
  | Runner.ManifestJson _ => key = "manifest"
  | Runner.ClobBatch _ => False
  end.

(** ** What the extraction keeps *)

(** The markets of the events, each with its event, in the order of the
    catalog: the dicts of a list of markets (those before the first
    element that is not a dict); anything else has none. *)
Definition candidates (raw_events : list Gamma.item)
  : list (Gamma.event * Gamma.market) :=
  flat_map
    (λ i,
       match i with
       | Gamma.Event event =>
           match Gamma.markets event with
           | Some (Gamma.MarketsList ms) => map (pair event) ms
           | Some (Gamma.MarketsBroken before) => map (pair event) before
           | _ => []
           end
       | Gamma.NotADict _ => []
       end)
    raw_events.

(** As many of [l] as the cap on the markets still allows in state
    [st]. *)
Definition within_room {A : Type} (cfg : Runner.config)
    (st : Runner.extraction) (l : list A) : list A :=
  match Runner.max_markets cfg with
  | Some m =>
      if m =? 0 then l
      else take (Z.to_nat (m - Runner.total_markets_processed st)) l
  | None => l
  end.

(** The record the loop body builds for a market of an event. *)
Definition record_of (pulled : string) (em : Gamma.event * Gamma.market)
  : MarketRecord.t :=
  Runner.extract_market_record em.2 em.1 pulled.

(** The markets that pass the category filter. *)
Definition passing (cfg : Runner.config) (pulled : string)
    (l : list (Gamma.event * Gamma.market))
  : list (Gamma.event * Gamma.market) :=
  filter (λ em, Runner.passes_filter cfg (record_of pulled em) = true) l.

(** The markets that pass the category filter, up to the cap. *)
Definition kept (cfg : Runner.config) (pulled : string)
    (raw_events : list Gamma.item) : list (Gamma.event * Gamma.market) :=
  within_room cfg Runner.extraction_start
    (passing cfg pulled (candidates raw_events)).

Definition tokens_of (em : Gamma.event * Gamma.market)
  : list TokenOutcome.t :=
  default [] (Runner.extract_token_outcomes em.2).

(** What identifies a price row, and a token. *)
Definition row_key (r : PriceResult.t) : string * string * string :=
  (PriceResult.token_id r, PriceResult.outcome r, PriceResult.market_id r).
Definition token_key (t : TokenOutcome.t) : string * string * string :=
  (TokenOutcome.token_id t, TokenOutcome.outcome t, TokenOutcome.market_id t).

(** The sum of the weights of the elements. *)
Definition total_of {A : Type} (w : A → Z) (l : list A) : Z :=
  foldr (λ x n, w x + n) 0 l.

(** The loop body gets to read the enableOrderBook flag of the market:
    both parsed lists are there, not empty and equally long. *)
Definition reads_flag (market : Gamma.market) : bool :=
  negb (Runner.missing (Gamma._outcomes_parsed market)
        || Runner.missing (Gamma._clobTokenIds_parsed market))
  && (length (default [] (Gamma._outcomes_parsed market))
      =? length (default [] (Gamma._clobTokenIds_parsed market)))%nat.

Definition flagged_untradable (em : Gamma.event * Gamma.market) : Z :=
  if Runner.is_False (Gamma.enableOrderBook em.2) && reads_flag em.2
  then 1 else 0.

Definition counted_as (v : verdict) (em : Gamma.event * Gamma.market) : Z :=
  bump (classify em.2) v.

(** An event dict whose list of markets, if it has one, holds dicts. *)
Definition dict_event (i : Gamma.item) : Prop :=
  match i with
  | Gamma.Event e =>
      match Gamma.markets e with
      | Some (Gamma.MarketsBroken _) => False
      | _ => True
      end
  | Gamma.NotADict _ => False
  end.

(** * Properties *)

(** ** Extraction: the market counters *)

Section Extraction.
Import Runner.

Variable cfg : config.
Variable pulled : string.

Lemma process_market_rejected event st market :
  ¬ accepted cfg pulled event market →
  process_market cfg pulled event st market = st.
Proof.
  unfold accepted, process_market. intros H.
  destruct (passes_filter _ _); [done|reflexivity].
Qed.

Lemma process_market_counts event st market :
  accepted cfg pulled event market →
  let st' := process_market cfg pulled event st market in
  total_markets_processed st' = total_markets_processed st + 1
  ∧ market_records st'
    = market_records st ++ [extract_market_record market event pulled]
  ∧ markets_with_tokens st'
    = markets_with_tokens st + bump (classify market) WithTokens
  ∧ markets_skipped_no_tokens st'
    = markets_skipped_no_tokens st + bump (classify market) NoTokens
  ∧ markets_skipped_mismatched st'
    = markets_skipped_mismatched st + bump (classify market) Mismatched.
Proof.
  intros H. cbn zeta. unfold process_market, classify.
  unfold accepted in H. rewrite H. cbn [negb].
  destruct (missing _ || missing _); cbn; [repeat split; lia|].
  destruct (negb _); cbn; [repeat split; lia|].
  destruct (extract_token_outcomes market); cbn; repeat split; lia.
Qed.

Lemma process_market_partitioned event st market :
  partitioned st → partitioned (process_market cfg pulled event st market).
Proof.
  intros Hst.
  destruct (passes_filter cfg (extract_market_record market event pulled))
    eqn:Hf.
  - destruct (process_market_counts event st market Hf)
      as (Ht & _ & Hw & Hn & Hm).
    unfold partitioned in *. rewrite Ht, Hw, Hn, Hm.
    destruct (classify market); cbn; lia.
  - rewrite process_market_rejected; [done|].
    unfold accepted. now rewrite Hf.
Qed.

Lemma markets_loop_partitioned event ms st :
  partitioned st → partitioned (markets_loop cfg pulled event ms st).
Proof.
  revert st. induction ms as [|m ms IH]; intros st Hst; cbn; [done|].
  destruct (cap_reached cfg st); [done|].
  apply IH, process_market_partitioned, Hst.
Qed.

Lemma mismatched_no_tokens market :
  both_present market → ¬ same_length market →
  classify market = Mismatched ∧ extract_token_outcomes market = None.
Proof.
  intros [Ho Ht] Hlen. unfold classify, extract_token_outcomes.
  rewrite Ho, Ht. cbn.
  destruct (Nat.eqb_spec (length (default [] (Gamma._outcomes_parsed market)))
              (length (default [] (Gamma._clobTokenIds_parsed market))));
    [done|]. done.
Qed.

End Extraction.


(** ** Extraction: what the loops keep *)

Lemma process_market_tokens cfg pulled event st market :
  accepted cfg pulled event market →
  Runner.all_token_outcomes (Runner.process_market cfg pulled event st market)
  = Runner.all_token_outcomes st ++ tokens_of (event, market).
Proof.
  unfold accepted, Runner.process_market, tokens_of,
    Runner.extract_token_outcomes. intros ->. cbn [negb snd].
  destruct (Runner.missing _ || Runner.missing _); cbn;
    [now rewrite app_nil_r|].
  destruct (negb _); cbn; [now rewrite app_nil_r|].
  destruct (concat _); cbn; [now rewrite app_nil_r|reflexivity].
Qed.

Lemma within_room_nil {A} cfg st : within_room cfg st (@nil A) = [].
Proof.
  unfold within_room. destruct (Runner.max_markets cfg) as [m|];
    [|reflexivity].
  destruct (m =? 0); [reflexivity|apply take_nil].
Qed.

Lemma within_room_reached {A} cfg st (l : list A) :
  Runner.cap_reached cfg st = true → within_room cfg st l = [].
Proof.
  unfold Runner.cap_reached, within_room.
  destruct (Runner.max_markets cfg) as [m|]; [|discriminate].
  destruct (m =? 0); [discriminate|]. cbn.
  destruct (Z.leb_spec m (Runner.total_markets_processed st));
    [|discriminate].
  intros _.
  replace (Z.to_nat (m - Runner.total_markets_processed st)) with 0%nat
    by lia.
  reflexivity.
Qed.

Lemma within_room_cons {A} cfg st st' (x : A) l :
  Runner.cap_reached cfg st = false →
  Runner.total_markets_processed st'
  = Runner.total_markets_processed st + 1 →
  within_room cfg st (x :: l) = x :: within_room cfg st' l.
Proof.
  unfold Runner.cap_reached, within_room. intros Hcap Ht.
  destruct (Runner.max_markets cfg) as [m|]; [|reflexivity].
  destruct (m =? 0); [reflexivity|]. cbn in Hcap.
  destruct (Z.leb_spec m (Runner.total_markets_processed st));
    [discriminate|].
  rewrite Ht.
  replace (Z.to_nat (m - Runner.total_markets_processed st))
    with (S (Z.to_nat (m - (Runner.total_markets_processed st + 1))))
    by lia.
  reflexivity.
Qed.

Lemma markets_loop_kept cfg pulled event ms st :
  let l := within_room cfg st (passing cfg pulled (map (pair event) ms)) in
  let st' := Runner.markets_loop cfg pulled event ms st in
  Runner.market_records st'
  = Runner.market_records st ++ map (record_of pulled) l
  ∧ Runner.all_token_outcomes st'
    = Runner.all_token_outcomes st ++ concat (map tokens_of l)
  ∧ Runner.total_markets_processed st'
    = Runner.total_markets_processed st + Z.of_nat (length l).
Proof.
  cbn zeta. revert st.
  induction ms as [|market ms IH]; intros st; cbn [Runner.markets_loop map].
  { unfold passing. rewrite filter_nil, within_room_nil. cbn.
    rewrite !app_nil_r. repeat split; lia. }
  destruct (Runner.cap_reached cfg st) eqn:Hcap.
  { rewrite within_room_reached by exact Hcap. cbn.
    rewrite !app_nil_r. repeat split; lia. }
  specialize (IH (Runner.process_market cfg pulled event st market)).
  destruct IH as (Hr & Htok & Ht). rewrite Hr, Htok, Ht. clear Hr Htok Ht.
  assert (Hcons :
    passing cfg pulled ((event, market) :: map (pair event) ms)
    = if decide (Runner.passes_filter cfg
                   (record_of pulled (event, market)) = true)
      then (event, market) :: passing cfg pulled (map (pair event) ms)
      else passing cfg pulled (map (pair event) ms))
    by (unfold passing; rewrite filter_cons; reflexivity).
  rewrite Hcons. clear Hcons.
  destruct (decide (Runner.passes_filter cfg
                      (record_of pulled (event, market)) = true))
    as [Hacc|Hrej].
  - destruct (process_market_counts cfg pulled event st market Hacc)
      as (Ht' & Hr' & _).
    rewrite (within_room_cons cfg st _ _ _ Hcap Ht').
    rewrite (process_market_tokens cfg pulled event st market Hacc).
    rewrite Ht', Hr'. cbn [map concat length].
    rewrite <- !app_assoc. cbn [app].
    repeat split; try reflexivity; lia.
  - rewrite process_market_rejected by exact Hrej. repeat split.
Qed.

Lemma within_room_app {A} cfg st st1 (l1 l2 : list A) :
  Runner.total_markets_processed st1
  = Runner.total_markets_processed st
    + Z.of_nat (length (within_room cfg st l1)) →
  within_room cfg st (l1 ++ l2)
  = within_room cfg st l1 ++ within_room cfg st1 l2.
Proof.
  unfold within_room. destruct (Runner.max_markets cfg) as [m|];
    [|reflexivity].
  destruct (m =? 0); [reflexivity|]. intros ->.
  rewrite take_app, length_take. f_equal. f_equal. lia.
Qed.

Lemma events_loop_kept cfg pulled events st st' :
  Runner.events_loop cfg pulled events st = Ok st' →
  let l := within_room cfg st (passing cfg pulled (candidates events)) in
  Runner.market_records st'
  = Runner.market_records st ++ map (record_of pulled) l
  ∧ Runner.all_token_outcomes st'
    = Runner.all_token_outcomes st ++ concat (map tokens_of l)
  ∧ Runner.total_markets_processed st'
    = Runner.total_markets_processed st + Z.of_nat (length l).
Proof.
  cbn zeta. revert st.
  induction events as [|[event|skipped] events IH]; intros st;
    cbn [Runner.events_loop candidates flat_map]; [| |discriminate].
  { intros [= <-]. unfold passing. rewrite filter_nil, within_room_nil. cbn.
    rewrite !app_nil_r. repeat split; lia. }
  assert (Hstep : ∀ ms (rest : result Runner.extraction),
    let st1 := Runner.markets_loop cfg pulled event ms st in
    (rest = Ok st' → Runner.events_loop cfg pulled events st1 = Ok st') →
    (if Runner.cap_reached cfg st1 then Ok st1 else rest) = Ok st' →
    let l := within_room cfg st
               (passing cfg pulled (map (pair event) ms ++ candidates events)) in
    Runner.market_records st'
    = Runner.market_records st ++ map (record_of pulled) l
    ∧ Runner.all_token_outcomes st'
      = Runner.all_token_outcomes st ++ concat (map tokens_of l)
    ∧ Runner.total_markets_processed st'
      = Runner.total_markets_processed st + Z.of_nat (length l)).
  { intros ms rest. cbn zeta. intros Hrest.
    destruct (markets_loop_kept cfg pulled event ms st) as (Hr & Htok & Ht).
    unfold passing at 1 2 3. rewrite filter_app.
    fold (passing cfg pulled (map (pair event) ms)).
    fold (passing cfg pulled (candidates events)).
    rewrite (within_room_app cfg st _ _ _ Ht).
    rewrite !map_app, concat_app, length_app, !app_assoc, <- Hr, <- Htok.
    destruct (Runner.cap_reached cfg _) eqn:Hcap.
    - intros [= <-]. rewrite within_room_reached by exact Hcap. cbn.
      rewrite !app_nil_r. repeat split; lia.
    - intros Hloop. apply Hrest in Hloop.
      destruct (IH _ Hloop) as (Hr' & Htok' & Ht').
      rewrite Hr', Htok', Ht', Ht. repeat split; lia. }
  destruct (Gamma.markets event) as [[ms|before|quiet|]|].
  - apply (Hstep ms). auto.
  - apply (Hstep before). discriminate.
  - cbn [app]. apply IH.
  - cbn [app]. apply IH.
  - apply (Hstep []). auto.
Qed.

(** ** Extraction: what the counters count *)

Lemma total_of_app {A} (w : A → Z) l1 l2 :
  total_of w (l1 ++ l2) = total_of w l1 + total_of w l2.
Proof.
  unfold total_of. induction l1 as [|x l1 IH]; cbn; [reflexivity|].
  rewrite IH. lia.
Qed.

Lemma total_of_cons {A} (w : A → Z) x l :
  total_of w (x :: l) = w x + total_of w l.
Proof. reflexivity. Qed.

Lemma process_market_flagged cfg pulled event st market :
  accepted cfg pulled event market →
  Runner.markets_not_clob_tradable
    (Runner.process_market cfg pulled event st market)
  = Runner.markets_not_clob_tradable st + flagged_untradable (event, market).
Proof.
  unfold accepted, Runner.process_market, flagged_untradable, reads_flag.
  intros ->. cbn [negb snd].
  destruct (Runner.missing _ || Runner.missing _); cbn;
    [rewrite andb_false_r; lia|].
  destruct (length _ =? length _)%nat; cbn;
    [|rewrite andb_false_r; lia].
  rewrite andb_true_r.
  destruct (Runner.extract_token_outcomes market),
    (Runner.is_False (Gamma.enableOrderBook market)); cbn; lia.
Qed.

Section Counting.

Variable cfg : Runner.config.
Variable pulled : string.
Variable f : Runner.extraction → Z.
Variable w : Gamma.event * Gamma.market → Z.
Hypothesis f_step : ∀ event st market,
  accepted cfg pulled event market →
  f (Runner.process_market cfg pulled event st market)
  = f st + w (event, market).

Lemma markets_loop_sum event ms st :
  f (Runner.markets_loop cfg pulled event ms st)
  = f st
    + total_of w
        (within_room cfg st (passing cfg pulled (map (pair event) ms))).
Proof.
  revert st.
  induction ms as [|market ms IH]; intros st; cbn [Runner.markets_loop map].
  { unfold passing. rewrite filter_nil, within_room_nil. cbn. lia. }
  destruct (Runner.cap_reached cfg st) eqn:Hcap.
  { rewrite within_room_reached by exact Hcap. cbn. lia. }
  rewrite IH.
  assert (Hcons :
    passing cfg pulled ((event, market) :: map (pair event) ms)
    = if decide (Runner.passes_filter cfg
                   (record_of pulled (event, market)) = true)
      then (event, market) :: passing cfg pulled (map (pair event) ms)
      else passing cfg pulled (map (pair event) ms))
    by (unfold passing; rewrite filter_cons; reflexivity).
  rewrite Hcons. clear Hcons.
  destruct (decide (Runner.passes_filter cfg
                      (record_of pulled (event, market)) = true))
    as [Hacc|Hrej].
  - destruct (process_market_counts cfg pulled event st market Hacc)
      as (Ht' & _).
    rewrite (within_room_cons cfg st _ _ _ Hcap Ht').
    rewrite (f_step event st market Hacc), total_of_cons. lia.
  - rewrite process_market_rejected by exact Hrej. reflexivity.
Qed.

Lemma events_loop_sum events st st' :
  Runner.events_loop cfg pulled events st = Ok st' →
  f st'
  = f st + total_of w (within_room cfg st
                         (passing cfg pulled (candidates events))).
Proof.
  revert st.
  induction events as [|[event|skipped] events IH]; intros st;
    cbn [Runner.events_loop candidates flat_map]; [| |discriminate].
  { intros [= <-]. unfold passing. rewrite filter_nil, within_room_nil.
    cbn. lia. }
  assert (Hstep : ∀ ms (rest : result Runner.extraction),
    let st1 := Runner.markets_loop cfg pulled event ms st in
    (rest = Ok st' → Runner.events_loop cfg pulled events st1 = Ok st') →
    (if Runner.cap_reached cfg st1 then Ok st1 else rest) = Ok st' →
    f st'
    = f st
      + total_of w
          (within_room cfg st
             (passing cfg pulled (map (pair event) ms ++ candidates events)))).
  { intros ms rest. cbn zeta. intros Hrest.
    destruct (markets_loop_kept cfg pulled event ms st) as (_ & _ & Ht).
    unfold passing at 1. rewrite filter_app.
    fold (passing cfg pulled (map (pair event) ms)).
    fold (passing cfg pulled (candidates events)).
    rewrite (within_room_app cfg st _ _ _ Ht), total_of_app.
    rewrite Z.add_assoc, <- markets_loop_sum.
    destruct (Runner.cap_reached cfg _) eqn:Hcap.
    - intros [= <-]. rewrite within_room_reached by exact Hcap. cbn. lia.
    - intros Hloop. apply Hrest in Hloop. now apply IH. }
  destruct (Gamma.markets event) as [[ms|before|quiet|]|].
  - apply (Hstep ms). auto.
  - apply (Hstep before). discriminate.
  - cbn [app]. apply IH.
  - cbn [app]. apply IH.
  - apply (Hstep []). auto.
Qed.

End Counting.

Lemma total_of_le {A} (w1 w2 : A → Z) l :
  (∀ x, w1 x ≤ w2 x) → total_of w1 l ≤ total_of w2 l.
Proof.
  intros Hle. induction l as [|x l IH]; [reflexivity|].
  rewrite !total_of_cons. specialize (Hle x). lia.
Qed.

Lemma total_of_plus {A} (w1 w2 : A → Z) l :
  total_of (λ x, w1 x + w2 x) l = total_of w1 l + total_of w2 l.
Proof.
  induction l as [|x l IH]; [reflexivity|].
  rewrite !total_of_cons, IH. lia.
Qed.

Lemma length_concat_map {A B} (g : A → list B) l :
  Z.of_nat (length (concat (map g l)))
  = total_of (λ x, Z.of_nat (length (g x))) l.
Proof.
  induction l as [|x l IH]; [reflexivity|].
  cbn [map concat]. rewrite length_app, total_of_cons. lia.
Qed.

Lemma counted_with_tokens em :
  counted_as WithTokens em ≤ Z.of_nat (length (tokens_of em)).
Proof.
  unfold counted_as, classify, tokens_of, Runner.extract_token_outcomes.
  destruct (Runner.missing _ || Runner.missing _); cbn; [lia|].
  destruct (negb _); cbn; [lia|].
  destruct (concat _); cbn; lia.
Qed.

Lemma flagged_counted em :
  flagged_untradable em
  ≤ counted_as WithTokens em + counted_as NoTokens em.
Proof.
  unfold flagged_untradable, reads_flag, counted_as, classify.
  destruct (Runner.missing _ || Runner.missing _); cbn;
    [rewrite andb_false_r; lia|].
  destruct (length _ =? length _)%nat; cbn;
    [|rewrite andb_false_r; lia].
  destruct (Runner.is_False _), (Runner.extract_token_outcomes em.2);
    cbn; lia.
Qed.

Lemma counted_once em :
  counted_as WithTokens em + counted_as NoTokens em
  + counted_as Mismatched em = 1
  ∧ ∀ v, 0 ≤ counted_as v em ≤ 1.
Proof.
  unfold counted_as. split.
  - destruct (classify em.2); reflexivity.
  - intros v. destruct (classify em.2), v; cbn; lia.
Qed.

Lemma total_of_once (l : list (Gamma.event * Gamma.market)) :
  total_of (counted_as WithTokens) l + total_of (counted_as NoTokens) l
  + total_of (counted_as Mismatched) l = Z.of_nat (length l).
Proof.
  induction l as [|em l IH]; [reflexivity|].
  rewrite !total_of_cons. cbn [length].
  destruct (counted_once em) as [Hone _]. lia.
Qed.

(** The extraction returns on event dicts whose lists of markets hold
    dicts. *)
Lemma events_loop_returns cfg pulled events st :
  Forall dict_event events →
  returns (Runner.events_loop cfg pulled events st).
Proof.
  intros Hall. revert st.
  induction Hall as [|[event|skipped] events Hi _ IH]; intros st;
    cbn [Runner.events_loop]; [now exists st| |contradiction].
  unfold dict_event in Hi.
  destruct (Gamma.markets event) as [[ms|before|quiet|]|];
    try contradiction; try apply IH;
    (destruct (Runner.cap_reached cfg _); [eexists; reflexivity|apply IH]).
Qed.

(** What an extraction that returns has kept and counted. *)
Lemma extract_counts cfg pulled raw_events ex :
  Runner.extract cfg pulled raw_events = Ok ex →
  let markets := kept cfg pulled raw_events in
  Runner.market_records ex = map (record_of pulled) markets
  ∧ Runner.all_token_outcomes ex = concat (map tokens_of markets)
  ∧ Runner.total_markets_processed ex = Z.of_nat (length markets)
  ∧ Runner.markets_with_tokens ex = total_of (counted_as WithTokens) markets
  ∧ Runner.markets_skipped_no_tokens ex
    = total_of (counted_as NoTokens) markets
  ∧ Runner.markets_skipped_mismatched ex
    = total_of (counted_as Mismatched) markets
  ∧ Runner.markets_not_clob_tradable ex
    = total_of flagged_untradable markets.
Proof.
  unfold Runner.extract, kept. intros Hex. cbn zeta.
  destruct (events_loop_kept _ _ _ _ _ Hex) as (Hr & Htok & Ht).
  split; [exact Hr|]. split; [exact Htok|]. split; [exact Ht|].
  split; [|split; [|split]].
  - refine (events_loop_sum cfg pulled Runner.markets_with_tokens
              (counted_as WithTokens) _ _ _ _ Hex).
    intros event st market Hacc.
    now destruct (process_market_counts cfg pulled event st market Hacc)
      as (_ & _ & H & _).
  - refine (events_loop_sum cfg pulled Runner.markets_skipped_no_tokens
              (counted_as NoTokens) _ _ _ _ Hex).
    intros event st market Hacc.
    now destruct (process_market_counts cfg pulled event st market Hacc)
      as (_ & _ & _ & H & _).
  - refine (events_loop_sum cfg pulled Runner.markets_skipped_mismatched
              (counted_as Mismatched) _ _ _ _ Hex).
    intros event st market Hacc.
    now destruct (process_market_counts cfg pulled event st market Hacc)
      as (_ & _ & _ & _ & H).
  - refine (events_loop_sum cfg pulled Runner.markets_not_clob_tradable
              flagged_untradable _ _ _ _ Hex).
    intros event st market Hacc. now apply process_market_flagged.
Qed.

Lemma run_fetch_counters cfg E t m :
  Runner.run_fetch cfg E = (t, Ok m) →
  ∃ events ex,
    (Runner.fetch_catalog cfg E).2 = Ok events
    ∧ Runner.extract cfg (Runner.pulled_at E) events = Ok ex
    ∧ RunManifest.markets_total m = Runner.total_markets_processed ex
    ∧ RunManifest.markets_with_tokens m = Runner.markets_with_tokens ex
    ∧ RunManifest.markets_skipped_no_tokens m
      = Runner.markets_skipped_no_tokens ex
    ∧ RunManifest.markets_skipped_mismatched_arrays m
      = Runner.markets_skipped_mismatched ex
    ∧ RunManifest.markets_not_clob_tradable m
      = Runner.markets_not_clob_tradable ex
    ∧ RunManifest.tokens_total m
      = Z.of_nat (length (Runner.all_token_outcomes ex)).
Proof.
  unfold Runner.run_fetch. intros H.
  destruct (negb _); [discriminate|].
  destruct (Runner.fetch_catalog cfg E) as [[cs rs] [events|e]];
    [|discriminate].
  destruct (Runner.extract cfg (Runner.pulled_at E) events) as [ex|e] eqn:Hex;
    [|discriminate].
  exists events, ex. cbn [snd]. split; [reflexivity|].
  split; [exact Hex|].
  destruct (Runner.dry_run cfg).
  { injection H as _ <-. cbn. tauto. }
  destruct (Runner.all_token_outcomes ex) eqn:Htok.
  { injection H as _ <-. cbn. rewrite Htok. tauto. }
  rewrite <- Htok in *.
  destruct (Clob.fetch_all_prices _ _ _ _ _ _) as [[[prs raws] st]|e];
    [|discriminate].
  injection H as _ <-. cbn. tauto.
Qed.

(** C10, as stated, fails: a market that passes the category filter after
    the max_markets cap is reached increments no counter.  With a cap of
    one, three markets pass the filter and one is counted. *)
Lemma C10_counterexample :
  length (passing capped_config "" (candidates (map Gamma.Event
                                                  (concat scenario_pages))))
  = 3%nat
  ∧ ∃ ex,
      Runner.extract capped_config "" (map Gamma.Event (concat scenario_pages))
      = Ok ex
      ∧ Runner.total_markets_processed ex = 1
      ∧ Runner.markets_with_tokens ex + Runner.markets_skipped_no_tokens ex
        + Runner.markets_skipped_mismatched ex = 1.
Proof.
  split; [vm_compute; reflexivity|].
  eexists. split; [vm_compute; reflexivity|]. split; reflexivity.
Qed.

(** C10 (amended): after extraction the market counters partition the
    markets the extraction keeps, those that pass the category filter up
    to the max_markets cap: markets_total is their number,
    markets_with_tokens, markets_skipped_no_tokens and
    markets_skipped_mismatched_arrays are the numbers of kept markets of
    each class, every market is of exactly one class, and so markets_total
    = markets_with_tokens + markets_skipped_no_tokens +
    markets_skipped_mismatched_arrays; this holds of the extraction state
    and of the manifest of every run that returns one. *)
Theorem C10_market_counters_partition (cfg : Runner.config) (E : Runner.env) :
  (∀ em, counted_as WithTokens em + counted_as NoTokens em
         + counted_as Mismatched em = 1
         ∧ ∀ v, 0 ≤ counted_as v em ≤ 1)
  ∧ (∀ events ex,
       Runner.extract cfg (Runner.pulled_at E) events = Ok ex →
       let markets := kept cfg (Runner.pulled_at E) events in
       Runner.total_markets_processed ex = Z.of_nat (length markets)
       ∧ Runner.markets_with_tokens ex
         = total_of (counted_as WithTokens) markets
       ∧ Runner.markets_skipped_no_tokens ex
         = total_of (counted_as NoTokens) markets
       ∧ Runner.markets_skipped_mismatched ex
         = total_of (counted_as Mismatched) markets
       ∧ partitioned ex)
  ∧ (∀ t m,
       Runner.run_fetch cfg E = (t, Ok m) →
       ∃ events,
         (Runner.fetch_catalog cfg E).2 = Ok events
         ∧ let markets := kept cfg (Runner.pulled_at E) events in
           RunManifest.markets_total m = Z.of_nat (length markets)
           ∧ RunManifest.markets_with_tokens m
             = total_of (counted_as WithTokens) markets
           ∧ RunManifest.markets_skipped_no_tokens m
             = total_of (counted_as NoTokens) markets
           ∧ RunManifest.markets_skipped_mismatched_arrays m
             = total_of (counted_as Mismatched) markets
           ∧ manifest_partitioned m).
Proof.
  split; [exact counted_once|]. split.
  - intros events ex Hex. cbn zeta.
    destruct (extract_counts _ _ _ _ Hex) as (_ & _ & Ht & Hw & Hn & Hm & _).
    repeat (split; [assumption|]).
    unfold partitioned. rewrite Ht, Hw, Hn, Hm.
    symmetry. apply total_of_once.
  - intros t m H.
    destruct (run_fetch_counters _ _ _ _ H)
      as (events & ex & Hev & Hex & Ht & Hw & Hn & Hm & _).
    exists events. split; [exact Hev|]. cbn zeta.
    destruct (extract_counts _ _ _ _ Hex)
      as (_ & _ & Ht' & Hw' & Hn' & Hm' & _).
    rewrite Ht, Hw, Hn, Hm.
    repeat (split; [assumption|]).
    unfold manifest_partitioned. rewrite Ht, Hw, Hn, Hm, Ht', Hw', Hn', Hm'.
    symmetry. apply total_of_once.
Qed.

Lemma C10_witness :
  ∃ m, scenario_run.2 = Ok m ∧ manifest_partitioned m.
Proof.
  eexists. split; [reflexivity|].
  edestruct (proj2 (proj2 (C10_market_counters_partition scenario_config
                             scenario_env)) scenario_run.1)
    as (events & _ & _ & _ & _ & _ & Hpart);
    [vm_compute; reflexivity|exact Hpart].
Defined.

(** C8, as stated, fails: a market with labels [Yes, No] and one token id
    leaves no MarketRecord and is not counted when the category filter
    does not match its event, or when the max_markets cap is reached
    before it. *)
Lemma C8_counterexample :
  both_present mismatched_market ∧ ¬ same_length mismatched_market
  ∧ (∃ ex,
       Runner.extract sports_filter_config ""
         [Gamma.Event (sample_event "Politics" [mismatched_market])]
       = Ok ex
       ∧ Runner.market_records ex = []
       ∧ Runner.markets_skipped_mismatched ex = 0)
  ∧ (∃ ex,
       Runner.extract capped_config ""
         [Gamma.Event
            (sample_event "Sports"
               [Gamma.ingest_market market_A1; mismatched_market])]
       = Ok ex
       ∧ length (Runner.market_records ex) = 1%nat
       ∧ Runner.markets_with_tokens ex = 1
       ∧ Runner.markets_skipped_mismatched ex = 0).
Proof.
  split; [vm_compute; auto|]. split; [vm_compute; intuition discriminate|].
  split; eexists; (split; [vm_compute; reflexivity|]); vm_compute; auto.
Qed.

(** C8 (amended): for every market that the loop body accepts (it is
    reached before the max_markets cap and kept by the category filter)
    whose parsed outcome-label list and token-id list are both non-empty
    but of unequal length, exactly one MarketRecord is appended to the
    markets output, no TokenOutcome is queued, and
    markets_skipped_mismatched_arrays is incremented by one while the other
    classification counters stay as they are. *)
Theorem C8_mismatched_market_kept_unpriced (cfg : Runner.config)
    (pulled_at : string) (event : Gamma.event) (st : Runner.extraction)
    (market : Gamma.market) :
  accepted cfg pulled_at event market →
  both_present market →
  ¬ same_length market →
  let st' := Runner.process_market cfg pulled_at event st market in
  Runner.market_records st'
  = Runner.market_records st
    ++ [Runner.extract_market_record market event pulled_at]
  ∧ Runner.extract_token_outcomes market = None
  ∧ Runner.all_token_outcomes st' = Runner.all_token_outcomes st
  ∧ Runner.markets_skipped_mismatched st'
    = Runner.markets_skipped_mismatched st + 1
  ∧ Runner.markets_with_tokens st' = Runner.markets_with_tokens st
  ∧ Runner.markets_skipped_no_tokens st' = Runner.markets_skipped_no_tokens st
  ∧ Runner.markets_not_clob_tradable st' = Runner.markets_not_clob_tradable st
  ∧ Runner.total_markets_processed st'
    = Runner.total_markets_processed st + 1.
Proof.
  intros Hacc [Ho Ht] Hlen. cbn zeta.
  destruct (mismatched_no_tokens market (conj Ho Ht) Hlen) as [_ Hnone].
  unfold Runner.process_market. unfold accepted in Hacc. rewrite Hacc, Ho, Ht.
  cbn [negb orb].
  destruct (Nat.eqb_spec
              (length (default [] (Gamma._outcomes_parsed market)))
              (length (default [] (Gamma._clobTokenIds_parsed market))));
    [done|].
  cbn. repeat split; try done; lia.
Qed.

Lemma C8_witness :
  let st' :=
    Runner.process_market plain_config ""
      (sample_event "Politics" []) Runner.extraction_start
      mismatched_market in
  length (Runner.market_records st') = 1%nat
  ∧ Runner.all_token_outcomes st' = []
  ∧ Runner.markets_skipped_mismatched st' = 1.
Proof.
  destruct (C8_mismatched_market_kept_unpriced plain_config ""
              (sample_event "Politics" []) Runner.extraction_start
              mismatched_market)
    as (Hr & _ & Hq & Hm & _).
  - vm_compute. reflexivity.
  - vm_compute. auto.
  - vm_compute. discriminate.
  - cbn zeta. rewrite Hr, Hq, Hm. vm_compute. auto.
Defined.

(** C9, as stated, fails: a market whose enableOrderBook is explicitly
    false is classified before the flag is looked at when it carries no
    token lists or lists of unequal length, and is not looked at at all
    when the category filter rejects it; markets_not_clob_tradable stays
    at zero in each case. *)
Lemma C9_counterexample :
  Gamma.enableOrderBook untradable_empty_market = Some (SBool false)
  ∧ Gamma.enableOrderBook untradable_mismatched_market = Some (SBool false)
  ∧ Gamma.enableOrderBook untradable_market = Some (SBool false)
  ∧ (∃ ex,
       Runner.extract plain_config ""
         [Gamma.Event (sample_event "Sports" [untradable_empty_market])]
       = Ok ex
       ∧ length (Runner.market_records ex) = 1%nat
       ∧ Runner.markets_not_clob_tradable ex = 0)
  ∧ (∃ ex,
       Runner.extract plain_config ""
         [Gamma.Event (sample_event "Sports" [untradable_mismatched_market])]
       = Ok ex
       ∧ length (Runner.market_records ex) = 1%nat
       ∧ Runner.markets_not_clob_tradable ex = 0)
  ∧ (∃ ex,
       Runner.extract sports_filter_config ""
         [Gamma.Event (sample_event "Politics" [untradable_market])]
       = Ok ex
       ∧ Runner.all_token_outcomes ex = []
       ∧ Runner.markets_not_clob_tradable ex = 0).
Proof.
  repeat (split; [reflexivity|]).
  repeat split; eexists; (split; [vm_compute; reflexivity|]);
    vm_compute; auto.
Qed.

Lemma extract_token_outcomes_flag v market :
  Runner.extract_token_outcomes (set_enableOrderBook v market)
  = Runner.extract_token_outcomes market.
Proof. reflexivity. Qed.

(** C9 (amended): for every market that the loop body accepts, whose
    parsed outcome-label and token-id lists are both non-empty and of equal
    length, and whose enableOrderBook is explicitly false,
    markets_not_clob_tradable is incremented by one, and the market's
    tokens are extracted and queued, its record written and its
    classification counted, exactly as for the same market with any other
    value [v] of the flag.  A flagged market without usable token lists is
    classified before the flag is read and is not counted as not
    tradable. *)
Theorem C9_untradable_still_priced (cfg : Runner.config) (pulled_at : string)
    (event : Gamma.event) (st : Runner.extraction) (market : Gamma.market)
    (v : option scalar) :
  accepted cfg pulled_at event market →
  both_present market →
  same_length market →
  Gamma.enableOrderBook market = Some (SBool false) →
  Runner.is_False v = false →
  let st' := Runner.process_market cfg pulled_at event st market in
  let tradable :=
    Runner.process_market cfg pulled_at event st
      (set_enableOrderBook v market) in
  Runner.markets_not_clob_tradable st'
  = Runner.markets_not_clob_tradable st + 1
  ∧ Runner.markets_not_clob_tradable tradable
    = Runner.markets_not_clob_tradable st
  ∧ Runner.all_token_outcomes st'
    = Runner.all_token_outcomes st
      ++ default [] (Runner.extract_token_outcomes market)
  ∧ Runner.all_token_outcomes st' = Runner.all_token_outcomes tradable
  ∧ Runner.market_records st' = Runner.market_records tradable
  ∧ Runner.markets_with_tokens st' = Runner.markets_with_tokens tradable
  ∧ Runner.markets_skipped_no_tokens st'
    = Runner.markets_skipped_no_tokens tradable
  ∧ Runner.markets_skipped_mismatched st'
    = Runner.markets_skipped_mismatched tradable
  ∧ Runner.total_markets_processed st'
    = Runner.total_markets_processed tradable.
Proof.
  intros Hacc [Ho Ht] Hlen Hflag Hv. cbn zeta.
  unfold Runner.process_market.
  change (Runner.extract_market_record (set_enableOrderBook v market) event
            pulled_at)
    with (Runner.extract_market_record market event pulled_at).
  unfold accepted in Hacc. rewrite Hacc. cbn [negb].
  change (Gamma._outcomes_parsed (set_enableOrderBook v market))
    with (Gamma._outcomes_parsed market).
  change (Gamma._clobTokenIds_parsed (set_enableOrderBook v market))
    with (Gamma._clobTokenIds_parsed market).
  change (Gamma.enableOrderBook (set_enableOrderBook v market)) with v.
  rewrite extract_token_outcomes_flag.
  rewrite Ho, Ht, Hflag, Hv. cbn [orb Runner.is_False].
  unfold same_length in Hlen. rewrite Hlen, Nat.eqb_refl. cbn [negb].
  destruct (Runner.extract_token_outcomes market); cbn;
    rewrite ?app_nil_r; repeat split; reflexivity.
Qed.

Lemma C9_witness :
  let st' :=
    Runner.process_market plain_config "" (sample_event "Sports" [])
      Runner.extraction_start untradable_market in
  Runner.markets_not_clob_tradable st' = 1
  ∧ length (Runner.all_token_outcomes st') = 2%nat.
Proof.
  destruct (C9_untradable_still_priced plain_config ""
              (sample_event "Sports" []) Runner.extraction_start
              untradable_market None)
    as (Hn & _ & Hq & _).
  - vm_compute. reflexivity.
  - vm_compute. auto.
  - vm_compute. reflexivity.
  - vm_compute. reflexivity.
  - vm_compute. reflexivity.
  - cbn zeta. rewrite Hn, Hq. vm_compute. auto.
Defined.

(** ** The catalog selector *)

Arguments Gamma._request_with_retry : simpl never.
Arguments Gamma.ingest_events : simpl never.
Arguments Gamma.limit_reached : simpl never.
Arguments Gamma.fetch_all_events : simpl never.
Arguments Clob.fetch_all_prices : simpl never.

Lemma paginate_filters E tag_id series_id max_events page_size active closed
    remaining page offset all_events :
  Forall
    (λ p, Gamma.p_tag_id p = Gamma.opt_nonempty tag_id
          ∧ Gamma.p_series_id p = Gamma.opt_nonempty series_id)
    (Gamma.paginate E tag_id series_id max_events page_size active closed
       remaining page offset all_events).1.
Proof.
  revert page offset all_events.
  induction remaining as [|r IH]; intros page offset all_events; cbn;
    [constructor|].
  destruct (Gamma.limit_reached _ _); cbn; [constructor|].
  destruct (Gamma._request_with_retry _ _ _) as [[[[|e es]|]|]|]; cbn;
    try (constructor; [split; reflexivity|constructor]).
  destruct (Gamma.ingest_events _); cbn;
    try (constructor; [split; reflexivity|constructor]).
  destruct (_ <? _); cbn; constructor; try (split; reflexivity);
    [constructor|apply IH].
Qed.

Lemma fetch_all_events_filters E tag_id series_id max_events page_size
    max_pages active closed :
  one_filter tag_id series_id →
  Forall (λ p, one_filter (Gamma.p_tag_id p) (Gamma.p_series_id p))
    (Gamma.fetch_all_events E tag_id series_id max_events page_size
       max_pages active closed).1.
Proof.
  intros Hone. unfold Gamma.fetch_all_events. cbn [fst].
  eapply Forall_impl; [apply paginate_filters|].
  intros p [-> ->]. destruct Hone as [-> | ->]; [left|right]; reflexivity.
Qed.

Lemma series_loop_filters cfg E ids k raw_events :
  let out := Runner.series_loop cfg E ids k raw_events in
  Forall (λ c, one_filter (Runner.call_tag_id c) (Runner.call_series_id c))
    out.1.1
  ∧ Forall (λ p, one_filter (Gamma.p_tag_id p) (Gamma.p_series_id p))
      out.1.2.
Proof.
  revert k raw_events.
  induction ids as [|sid ids IH]; intros k raw_events; cbn;
    [split; constructor|].
  pose proof (fetch_all_events_filters (Runner.catalog E k) None
                (Some (show_int sid)) (Runner.max_events cfg)
                (Runner.gamma_page_size cfg) Gamma.DEFAULT_MAX_PAGES
                (Runner.gamma_active cfg) (Runner.gamma_closed cfg)
                (or_introl eq_refl)) as Hreq.
  destruct (Gamma.fetch_all_events _ _ _ _ _ _ _ _) as [rs [events|e]]; cbn in *.
  - specialize (IH (S k) (raw_events ++ events)).
    destruct (Runner.series_loop _ _ _ _ _) as [[cs rs'] r]. cbn in *.
    destruct IH as [IHc IHr]. split.
    + constructor; [left; reflexivity|exact IHc].
    + apply Forall_app. split; assumption.
  - split; [|exact Hreq]. constructor; [left; reflexivity|constructor].
Qed.

Lemma fetch_catalog_filters cfg E :
  let out := Runner.fetch_catalog cfg E in
  Forall (λ c, one_filter (Runner.call_tag_id c) (Runner.call_series_id c))
    out.1.1
  ∧ Forall (λ p, one_filter (Gamma.p_tag_id p) (Gamma.p_series_id p))
      out.1.2.
Proof.
  unfold Runner.fetch_catalog.
  assert (Hnormal :
    let out :=
      Gamma.fetch_all_events (Runner.catalog E 0%nat) (Runner.tag_id cfg) None
        (Runner.max_events cfg) (Runner.gamma_page_size cfg)
        Gamma.DEFAULT_MAX_PAGES (Runner.gamma_active cfg)
        (Runner.gamma_closed cfg) in
    Forall (λ c, one_filter (Runner.call_tag_id c) (Runner.call_series_id c))
      [Runner.mk_call (Runner.tag_id cfg) None]
    ∧ Forall (λ p, one_filter (Gamma.p_tag_id p) (Gamma.p_series_id p))
        out.1).
  { split.
    - constructor; [right; reflexivity|constructor].
    - apply fetch_all_events_filters. right. reflexivity. }
  destruct (Runner.sports_series_ids cfg) as [[|sid ids]|];
    [exact Hnormal|apply series_loop_filters|exact Hnormal].
Qed.

Lemma run_fetch_trace cfg E :
  let t := (Runner.run_fetch cfg E).1 in
  (Runner.calls t = [] ∧ Runner.requests t = [])
  ∨ (Runner.calls t = (Runner.fetch_catalog cfg E).1.1
     ∧ Runner.requests t = (Runner.fetch_catalog cfg E).1.2).
Proof.
  unfold Runner.run_fetch.
  destruct (negb _); [left; split; reflexivity|]. right.
  destruct (Runner.fetch_catalog cfg E) as [[cs rs] [events|e]];
    [|split; reflexivity].
  destruct (Runner.extract cfg (Runner.pulled_at E) events) as [ex|e];
    [|split; reflexivity].
  destruct (Runner.dry_run cfg); [split; reflexivity|].
  destruct (Runner.all_token_outcomes _); [split; reflexivity|].
  destruct (Clob.fetch_all_prices _ _ _ _ _ _) as [[[prs raws] st]|e];
    split; reflexivity.
Qed.

(** C7: the catalog selector is mutually exclusive in every run: whatever
    the configuration and the services do, the orchestrator never calls
    fetch_all_events with both tag_id and series_id, and no catalog request
    carries both the tag_id and the series_id parameter. *)
Theorem C7_selector_mutually_exclusive (cfg : Runner.config) (E : Runner.env) :
  let t := (Runner.run_fetch cfg E).1 in
  Forall (λ c, one_filter (Runner.call_tag_id c) (Runner.call_series_id c))
    (Runner.calls t)
  ∧ Forall (λ p, one_filter (Gamma.p_tag_id p) (Gamma.p_series_id p))
      (Runner.requests t).
Proof.
  cbn zeta.
  destruct (run_fetch_trace cfg E) as [[-> ->] | [-> ->]].
  - split; constructor.
  - apply fetch_catalog_filters.
Qed.

(** The exclusion is the orchestrator's: [fetch_all_events] itself sends
    both parameters when it is handed both. *)
Remark fetch_all_events_sends_both :
  (Gamma.fetch_all_events (catalog_serving []) (Some "100") (Some "3") None
     500 500 None None).1
  = [Gamma.mk_params 500 0 (Some "100") (Some "3") None None].
Proof. reflexivity. Qed.

(** In sports mode the orchestrator calls [fetch_all_events] once for
    every series id, in their order, as long as the calls return. *)
Lemma series_loop_calls cfg E ids k raw_events :
  let out := Runner.series_loop cfg E ids k raw_events in
  returns out.2 →
  out.1.1 = map (λ i, Runner.mk_call None (Some (show_int i))) ids.
Proof.
  revert k raw_events.
  induction ids as [|sid ids IH]; intros k raw_events; cbn;
    [reflexivity|].
  destruct (Gamma.fetch_all_events _ _ _ _ _ _ _ _) as [rs [events|e]]; cbn.
  - specialize (IH (S k) (raw_events ++ events)).
    destruct (Runner.series_loop _ _ _ _ _) as [[cs rs'] r]. cbn in *.
    intros Hret. now rewrite (IH Hret).
  - intros [? [=]].
Qed.

Remark sports_run_calls_every_series :
  Runner.calls (Runner.run_fetch sports_config scenario_env).1
  = [Runner.mk_call None (Some "10345"); Runner.mk_call None (Some "3")].
Proof. vm_compute. reflexivity. Qed.

(** ** The run manifest *)

Lemma manifests_of_batches (dir : Clob.raw_response → string) raws :
  omap (λ w, match Runner.content w with
             | Runner.ManifestJson m => Some m
             | _ => None
             end)
    (map (λ r, Runner.mk_write (dir r) (Runner.ClobBatch r)) raws) = [].
Proof. induction raws as [|r raws IH]; cbn; [reflexivity|exact IH]. Qed.

(** C5, as stated, fails: when every attempt of the first catalog page
    fails, run_fetch raises the transport error and has written no file,
    so no manifest exists for the aborted run, in tag mode and in sports
    mode alike; nor is one written when a request rate is zero, when the
    price client raises, or when the extraction raises on a page item
    that is not a dict. *)
Lemma C5_counterexample :
  (let out := Runner.run_fetch plain_config down_env in
   out.2 = Raise RequestError
   ∧ Runner.writes out.1 = []
   ∧ Runner.manifests_written out.1 = [])
  ∧ (let out := Runner.run_fetch one_series_config down_env in
     out.2 = Raise RequestError
     ∧ Runner.writes out.1 = []
     ∧ Runner.manifests_written out.1 = [])
  ∧ (let out := Runner.run_fetch zero_rate_config scenario_env in
     out.2 = Raise ZeroDivisionError
     ∧ Runner.manifests_written out.1 = [])
  ∧ (let out := Runner.run_fetch zero_batch_config scenario_env in
     out.2 = Raise ValueError
     ∧ Runner.manifests_written out.1 = [])
  ∧ (let out := Runner.run_fetch plain_config odd_env in
     out.2 = Raise AttributeError
     ∧ length (Runner.writes out.1) = 1%nat
     ∧ Runner.manifests_written out.1 = []).
Proof. vm_compute. auto 10. Qed.

(** C5 (amended): in every execution of run_fetch with non-zero request
    rates, if the catalog fetch fails the run raises that error and writes
    no file at all, so no manifest is produced; if the catalog fetch
    succeeds and the extraction raises, or the extraction returns and
    the price client, called for the tokens queued, raises, the run raises
    that error and no manifest is written; if the catalog fetch succeeds
    and the later stages get to the end (the extraction returns, and the
    run is a dry run, or no token was queued, or the price client
    returns), then exactly one run manifest is written, to the run
    directory, it is the last file written, and run_fetch returns.  A run
    that ran cleanly with zero matches is told from an aborted one by the
    manifest being there. *)
Theorem C5_manifest_written (cfg : Runner.config) (E : Runner.env) :
  Runner.rate_ok (Runner.gamma_rate cfg) = true →
  Runner.rate_ok (Runner.clob_rate cfg) = true →
  let out := Runner.run_fetch cfg E in
  match (Runner.fetch_catalog cfg E).2 with
  | Raise e =>
      out.2 = Raise e ∧ Runner.writes out.1 = []
      ∧ Runner.manifests_written out.1 = []
  | Ok events =>
      (∀ e, Runner.extract cfg (Runner.pulled_at E) events = Raise e →
            out.2 = Raise e ∧ Runner.manifests_written out.1 = [])
      ∧ (∀ ex e,
           Runner.extract cfg (Runner.pulled_at E) events = Ok ex →
           Runner.dry_run cfg = false →
           Runner.all_token_outcomes ex ≠ [] →
           Clob.fetch_all_prices (Runner.pricing E) (Runner.pulled_at E)
             (Runner.all_token_outcomes ex) (Runner.concurrency cfg)
             (Runner.batch_size cfg) (Some (Runner.pulled_at E)) = Raise e →
           out.2 = Raise e ∧ Runner.manifests_written out.1 = [])
      ∧ (pricing_stage_returns cfg E events →
         returns out.2
         ∧ ∃ m w,
             Runner.manifests_written out.1 = [m]
             ∧ last (Runner.writes out.1) = Some w
             ∧ is_manifest_write cfg E w m)
  end.
Proof.
  intros Hg Hc. cbn zeta. unfold Runner.run_fetch. rewrite Hg, Hc.
  cbn [andb negb].
  destruct (Runner.fetch_catalog cfg E) as [[cs rs] [events|e]]; cbn [snd];
    [|auto].
  unfold pricing_stage_returns. cbn zeta.
  destruct (Runner.extract cfg (Runner.pulled_at E) events) as [ex|e0].
  2: { split; [intros e [= <-]; split; reflexivity|].
       split; [intros ex e; discriminate|].
       intros (ex & Hex & _). discriminate. }
  split; [intros e He; discriminate|].
  split.
  { intros ex' e [= <-] -> Hne Hraise.
    destruct (Runner.all_token_outcomes ex) as [|tok toks];
      [contradiction|].
    rewrite Hraise. split; reflexivity. }
  intros (ex' & [= <-] & Hstage).
  destruct (Runner.dry_run cfg).
  { cbn. split; [eexists; reflexivity|]. do 2 eexists.
    split; [reflexivity|]. split; [reflexivity|]. split; reflexivity. }
  destruct (Runner.all_token_outcomes ex) as [|tok toks] eqn:Htok.
  { cbn. split; [eexists; reflexivity|]. do 2 eexists.
    split; [reflexivity|]. split; [reflexivity|]. split; reflexivity. }
  destruct Hstage as [Hd | [Hn | [[[prs raws] st] Hret]]]; try discriminate.
  rewrite Hret. cbn [fst snd]. split; [eexists; reflexivity|].
  do 2 eexists. split; [|split].
  - unfold Runner.manifests_written. cbn [Runner.writes].
    rewrite !omap_app, manifests_of_batches. cbn. reflexivity.
  - cbn [Runner.writes]. rewrite !last_app. reflexivity.
  - split; reflexivity.
Qed.

Lemma C5_witness :
  returns empty_run.2
  ∧ ∃ m w,
      Runner.manifests_written empty_run.1 = [m]
      ∧ last (Runner.writes empty_run.1) = Some w
      ∧ is_manifest_write plain_config empty_env w m.
Proof.
  pose proof (C5_manifest_written plain_config empty_env eq_refl eq_refl)
    as H.
  cbn zeta in H.
  change (Runner.fetch_catalog plain_config empty_env).2
    with (@Ok (list Gamma.item) []) in H.
  change (Runner.run_fetch plain_config empty_env) with empty_run in H.
  apply H. exists Runner.extraction_start. split; [reflexivity|].
  right. left. reflexivity.
Defined.

(** ** Pagination *)

Section Pagination.
Variable E : Gamma.env.
Variables tag_id series_id : option string.
Variable max_events : option Z.
Variable page_size : Z.
Variables active closed : option bool.

Lemma limit_reached_spec n :
  Gamma.limit_reached max_events n = true
  ↔ at_limit max_events (Z.of_nat n).
Proof.
  unfold Gamma.limit_reached, at_limit.
  destruct max_events as [m|].
  - rewrite andb_true_iff, negb_true_iff, Z.eqb_neq, Z.leb_le. split.
    + intros [? ?]. exists m. auto.
    + intros (m' & [= <-] & ? & ?). auto.
  - split; [discriminate|]. intros (m & [=] & _).
Qed.

Lemma ingest_events_length es es' :
  Gamma.ingest_events es = Ok es' → length es' = length es.
Proof.
  revert es'. induction es as [|e es IH]; intros es'.
  - intros [= <-]. reflexivity.
  - change (Gamma.ingest_events (e :: es))
      with (rbind (Gamma.ingest_item e)
              (λ e', rbind (Gamma.ingest_events es)
                       (λ rest', Ok (e' :: rest')))).
    destruct (Gamma.ingest_item e); cbn; [|discriminate].
    destruct (Gamma.ingest_events es); cbn; [|discriminate].
    intros [= <-]. cbn. f_equal. apply IH. reflexivity.
Qed.

Lemma enumerated_single remaining page offset
    (all_events : list Gamma.item) p res :
  offset = Z.of_nat (length all_events) →
  p = Gamma.page_params tag_id series_id page_size offset active closed →
  Gamma.limit_reached max_events (length all_events) = false →
  Z.of_nat (length res) = offset + returned E p page →
  returned E p page < page_size ∨ returned E p page = 0 →
  enumerated E max_events page_size (S remaining) page offset [p] res.
Proof.
  intros Hoff Hp Hlim Hres Hshort. unfold enumerated. cbn.
  split; [lia|]. split; [lia|]. split.
  - intros [|k] q; cbn; [|intros [=]]. intros [= <-].
    split; [subst p; reflexivity|]. split; [subst p; cbn; lia|]. split.
    + subst p. cbn. rewrite Hoff. rewrite <- limit_reached_spec.
      now rewrite Hlim.
    + lia.
  - left. exists p. split; [reflexivity|].
    now replace (page + 1 - 1)%nat with page by lia.
Qed.

Lemma paginate_enumerated remaining :
  ∀ page offset all_events reqs res,
    offset = Z.of_nat (length all_events) →
    Gamma.paginate E tag_id series_id max_events page_size active closed
      remaining page offset all_events = (reqs, Ok res) →
    enumerated E max_events page_size remaining page offset reqs res.
Proof.
  induction remaining as [|r IH]; intros page offset all_events reqs res Hoff;
    cbn [Gamma.paginate].
  { intros [= <- <-]. unfold enumerated. cbn.
    split; [lia|]. split; [lia|]. split; [intros k p [=]|].
    right. left. reflexivity. }
  destruct (Gamma.limit_reached max_events (length all_events)) eqn:Hlim.
  { intros [= <- <-]. unfold enumerated. cbn.
    split; [lia|]. split; [lia|]. split; [intros k p [=]|].
    right. right. rewrite Z.add_0_r, Hoff. now apply limit_reached_spec. }
  set (p := Gamma.page_params tag_id series_id page_size offset active
              closed).
  destruct (Gamma._request_with_retry E p page) as [[[[|e es]|]|]|err]
    eqn:Hreq; try (intros [=]; fail).
  - intros [= <- <-].
    apply (enumerated_single r page offset all_events p); auto;
      unfold returned; rewrite Hreq; cbn; lia.
  - destruct (Gamma.ingest_events (e :: es)) as [evs|err] eqn:Hing;
      [|intros [=]].
    pose proof (ingest_events_length _ _ Hing) as Hlen.
    assert (Hret : returned E p page = Z.of_nat (length evs)).
    { unfold returned. rewrite Hreq, Hlen. reflexivity. }
    destruct (Z.of_nat (length evs) <? page_size) eqn:Hshort.
    + intros [= <- <-].
      apply (enumerated_single r page offset all_events p); auto.
      * rewrite length_app. lia.
      * apply Z.ltb_lt in Hshort. lia.
    + apply Z.ltb_ge in Hshort.
      destruct (Gamma.paginate E tag_id series_id max_events page_size
                  active closed r (S page)
                  (offset + Z.of_nat (length evs)) (all_events ++ evs))
        as [reqs' out] eqn:Hrec.
      cbn [fst snd]. intros [= <- ->].
      specialize (IH (S page) (offset + Z.of_nat (length evs))
                    (all_events ++ evs) reqs' res).
      destruct IH as (Hn & Hres & Hreqs & Hstop);
        [rewrite length_app; lia|exact Hrec|].
      unfold enumerated. cbn [length accumulated].
      split; [lia|]. split; [lia|]. split.
      * intros [|k] q; cbn [lookup list_lookup take accumulated].
        -- intros [= <-]. split; [reflexivity|].
           split; [subst p; cbn; lia|]. split.
           ++ subst p. cbn. rewrite Hoff, <- limit_reached_spec.
              now rewrite Hlim.
           ++ intros _. replace (page + 0)%nat with page by lia. lia.
        -- intros Hq. destruct (Hreqs k q Hq) as (Hl & Ho & Ha & Hf).
           split; [exact Hl|]. split; [lia|]. split; [exact Ha|].
           intros Hk. replace (page + S k)%nat with (S page + k)%nat by lia.
           apply Hf. lia.
      * destruct Hstop as [(q & Hlast & Hq) | [Hfull | Hlimit]].
        -- left. exists q. destruct reqs' as [|q' reqs']; [discriminate|].
           split; [exact Hlast|].
           replace (page + S (length (q' :: reqs')) - 1)%nat
             with (S page + length (q' :: reqs') - 1)%nat by (cbn; lia).
           exact Hq.
        -- right. left. lia.
        -- right. right.
           replace (offset + (returned E p page
                              + accumulated E (S page) reqs'))
             with (offset + Z.of_nat (length evs)
                   + accumulated E (S page) reqs') by lia.
           exact Hlimit.
  - intros [= <- <-].
    apply (enumerated_single r page offset all_events p); auto;
      unfold returned; rewrite Hreq; cbn; lia.
Qed.

Lemma truncate_bound all_events m :
  max_events = Some m → 0 < m →
  Z.of_nat (length (Gamma.truncate max_events all_events)) ≤ m.
Proof.
  intros -> Hm. unfold Gamma.truncate, Gamma.slice_to.
  destruct (Z.eqb_spec m 0); [lia|].
  destruct (Z.leb_spec 0 m); [|lia].
  rewrite length_take. lia.
Qed.

End Pagination.

Lemma accumulated_snoc E page reqs p :
  accumulated E page (reqs ++ [p])
  = accumulated E page reqs + returned E p (page + length reqs).
Proof.
  revert page. induction reqs as [|q reqs IH]; intros page; cbn.
  - replace (page + 0)%nat with page by lia. lia.
  - rewrite IH. replace (S page + length reqs)%nat
      with (page + S (length reqs))%nat by lia. lia.
Qed.

(** C6, as stated, fails for a page size of zero: the first page comes
    back empty and the enumeration stops after one request, although the
    page did not return fewer than page_size items, max_pages is not
    reached and no max_items is set. *)
Lemma C6_counterexample :
  let E := catalog_serving [] in
  ∃ p,
    Gamma.fetch_all_events E None None None 0 500 None None = ([p], Ok [])
    ∧ ¬ returned E p 0 < 0
    ∧ length [p] ≠ Z.to_nat 500
    ∧ ¬ at_limit None (accumulated E 0 [p]).
Proof.
  eexists. split; [vm_compute; reflexivity|].
  split; [vm_compute; discriminate|].
  split; [vm_compute; discriminate|].
  intros (m & [=] & _).
Qed.

(** C6 (amended): in an enumeration of fetch_all_events that returns,
    pagination is strictly sequential: the [k]-th request asks for
    page_size events at an offset that is the number of events the earlier
    pages returned, so that the offset advances by the number of events the
    previous page returned; a request is made only while fewer than
    max_pages pages were fetched and the accumulated events are below
    max_items, and every page but the last was full; for every positive
    page_size the enumeration stops exactly when a page returns fewer than
    page_size events (an empty or malformed page returns none), when
    max_pages pages have been fetched, or when the accumulated events reach
    max_items; for every positive max_items the returned list has at most
    max_items events. *)
Theorem C6_pagination_sequential (E : Gamma.env)
    (tag_id series_id : option string) (max_events : option Z)
    (page_size max_pages : Z) (active closed : option bool)
    (reqs : list Gamma.params) (events : list Gamma.item) :
  Gamma.fetch_all_events E tag_id series_id max_events page_size max_pages
    active closed = (reqs, Ok events) →
  (∀ k p, reqs !! k = Some p →
     Gamma.p_limit p = page_size
     ∧ Gamma.p_offset p = accumulated E 0 (take k reqs)
     ∧ Z.of_nat k < max_pages
     ∧ ¬ at_limit max_events (Gamma.p_offset p)
     ∧ ((S k < length reqs)%nat → page_size ≤ returned E p k))
  ∧ (∀ k p q, reqs !! k = Some p → reqs !! S k = Some q →
       Gamma.p_offset q = Gamma.p_offset p + returned E p k)
  ∧ (0 < page_size →
     (∃ p, last reqs = Some p
           ∧ returned E p (length reqs - 1) < page_size)
     ∨ length reqs = Z.to_nat max_pages
     ∨ at_limit max_events (accumulated E 0 reqs))
  ∧ (∀ m, max_events = Some m → 0 < m → Z.of_nat (length events) ≤ m).
Proof.
  unfold Gamma.fetch_all_events.
  destruct (Gamma.paginate E tag_id series_id max_events page_size active
              closed (Z.to_nat max_pages) 0 0 [])
    as [reqs0 [all_events|e]] eqn:Hpag; cbn; [|intros [=]].
  intros [= <- <-].
  destruct (paginate_enumerated E tag_id series_id max_events page_size
              active closed (Z.to_nat max_pages) 0%nat 0 [] reqs0
              all_events eq_refl Hpag)
    as (Hn & Hres & Hreqs & Hstop).
  assert (Hoffsets : ∀ k p, reqs0 !! k = Some p →
            Gamma.p_offset p = accumulated E 0 (take k reqs0)).
  { intros k p Hk. destruct (Hreqs k p Hk) as (_ & Ho & _). lia. }
  split; [|split; [|split]].
  - intros k p Hk. destruct (Hreqs k p Hk) as (Hl & Ho & Ha & Hf).
    pose proof (lookup_lt_Some _ _ _ Hk).
    repeat split; [exact Hl|lia|lia|exact Ha|exact Hf].
  - intros k p q Hp Hq.
    rewrite (Hoffsets _ _ Hq), (Hoffsets _ _ Hp).
    rewrite (take_S_r _ _ _ Hp), accumulated_snoc.
    pose proof (lookup_lt_Some _ _ _ Hp).
    rewrite length_take. replace (0 + k `min` length reqs0)%nat with k by lia.
    reflexivity.
  - intros Hps.
    destruct Hstop as [(p & Hlast & Hp) | [Hfull | Hlimit]];
      [left; exists p; split; [exact Hlast|cbn in Hp; lia]
      |right; left; exact Hfull|].
    right. right. now rewrite Z.add_0_l in Hlimit.
  - intros m Hm Hpos. now apply truncate_bound.
Qed.

Lemma C6_witness :
  ∃ p q,
    scenario_enumeration.1 !! 0%nat = Some p
    ∧ scenario_enumeration.1 !! 1%nat = Some q
    ∧ Gamma.p_offset q = Gamma.p_offset p + returned scenario_catalog p 0.
Proof.
  do 2 eexists. split; [reflexivity|]. split; [reflexivity|].
  refine (proj1 (proj2 (C6_pagination_sequential scenario_catalog None None
                          (Some 10) 2 500 None None scenario_enumeration.1
                          (match scenario_enumeration.2 with
                           | Ok events => events
                           | Raise _ => []
                           end) _)) 0%nat _ _ _ _).
  - vm_compute. reflexivity.
  - reflexivity.
  - reflexivity.
Defined.

(** ** The price client: one result per token *)

Arguments Clob.compute_mid : simpl never.
Arguments Clob._fetch_batch : simpl never.

Lemma price_result_ok ts c token r :
  Clob.price_result ts c token = Ok r →
  PriceResult.token_id r = TokenOutcome.token_id token
  ∧ PriceResult.market_id r = TokenOutcome.market_id token
  ∧ PriceResult.outcome r = TokenOutcome.outcome token
  ∧ PriceResult.snapshot_ts_utc r = ts
  ∧ PriceResult.bid r = bid_of c (TokenOutcome.token_id token)
  ∧ PriceResult.ask r = ask_of c (TokenOutcome.token_id token)
  ∧ Clob.compute_mid (PriceResult.bid r) (PriceResult.ask r)
    = Ok (PriceResult.mid r)
  ∧ PriceResult.status r
    = Clob.compute_status c (TokenOutcome.token_id token)
        (PriceResult.bid r) (PriceResult.ask r).
Proof.
  unfold Clob.price_result, bid_of, ask_of.
  destruct (Clob.compute_mid _ _) as [mid|e] eqn:Hmid; cbn; [|discriminate].
  intros [= <-]. cbn. repeat split. exact Hmid.
Qed.

Lemma price_result_returns ts c token :
  returns (Clob.compute_mid (bid_of c (TokenOutcome.token_id token))
             (ask_of c (TokenOutcome.token_id token))) →
  returns (Clob.price_result ts c token).
Proof.
  intros [mid Hmid]. unfold Clob.price_result.
  unfold bid_of, ask_of in Hmid. rewrite Hmid. cbn. eexists. reflexivity.
Qed.

Lemma build_results_ok ts c tokens acc st out st' :
  Clob.build_results ts c tokens acc st = Ok (out, st') →
  ∃ rs, out = acc ++ rs
        ∧ Forall2 (λ token r, Clob.price_result ts c token = Ok r) tokens rs.
Proof.
  revert acc st. induction tokens as [|token tokens IH]; intros acc st; cbn.
  - intros [= <- <-]. exists []. split; [now rewrite app_nil_r|constructor].
  - destruct (Clob.price_result ts c token) as [r|e] eqn:Hr; cbn;
      [|discriminate].
    intros H. destruct (IH _ _ H) as (rs & -> & Hrs).
    exists (r :: rs). split; [now rewrite <- app_assoc|].
    constructor; assumption.
Qed.

Lemma build_results_returns ts c tokens acc st :
  averaging_returns c tokens →
  returns (Clob.build_results ts c tokens acc st).
Proof.
  revert acc st. induction tokens as [|token tokens IH]; intros acc st Hav;
    cbn.
  - eexists. reflexivity.
  - destruct (price_result_returns ts c token) as [r Hr].
    { apply Hav. left. }
    rewrite Hr. cbn. apply IH. intros t Ht. apply Hav. now right.
Qed.

Lemma chunk_list_ok {A} (items : list A) size :
  size ≠ 0 → returns (chunk_list items size).
Proof.
  intros H. unfold chunk_list. destruct (Z.eqb_spec size 0); [done|].
  destruct (size <? 0); eexists; reflexivity.
Qed.

(** What a call that returns has computed. *)
Lemma fetch_all_prices_ok E clock tokens concurrency batch_size ts
    results raws st :
  Clob.fetch_all_prices E clock tokens concurrency batch_size ts
  = Ok (results, raws, st) →
  batch_size ≠ 0 ∧ 0 < concurrency
  ∧ raws = Clob.all_raw_responses (collected E tokens batch_size)
  ∧ Forall2
      (λ token r,
         Clob.price_result (default clock ts)
           (collected E tokens batch_size) token = Ok r)
      tokens results.
Proof.
  unfold Clob.fetch_all_prices, collected, batches_of.
  destruct (chunk_list (Clob.build_request_items tokens) batch_size)
    as [batches|e] eqn:Hchunk; cbn; [|discriminate].
  destruct (Z.leb_spec concurrency 0); [discriminate|].
  destruct (Clob.build_results _ _ _ _ _) as [[out st']|e] eqn:Hbuild; cbn;
    [|discriminate].
  intros [= <- <- <-].
  destruct (build_results_ok _ _ _ _ _ _ _ Hbuild) as (rs & -> & Hrs).
  split.
  { intros ->. unfold chunk_list in Hchunk. discriminate. }
  split; [lia|]. split; [reflexivity|]. exact Hrs.
Qed.

Lemma fetch_all_prices_returns E clock tokens concurrency batch_size ts :
  batch_size ≠ 0 → 0 < concurrency →
  averaging_returns (collected E tokens batch_size) tokens →
  returns (Clob.fetch_all_prices E clock tokens concurrency batch_size ts).
Proof.
  intros Hb Hc Hav. unfold Clob.fetch_all_prices.
  unfold collected, batches_of in Hav.
  destruct (chunk_list_ok (Clob.build_request_items tokens) batch_size Hb)
    as [batches Hchunk].
  rewrite Hchunk in *. cbn.
  destruct (Z.leb_spec concurrency 0); [lia|].
  destruct (build_results_returns (default clock ts)
              (Clob.run_batches E batches) tokens []
              (Clob.mk_stats 0 0 0) Hav) as [[out st] Hout].
  rewrite Hout. cbn. eexists. reflexivity.
Qed.

(** ** The collecting loop *)

Lemma insert_by_perm {A} (key : A → nat) x l :
  Clob.insert_by key x l ≡ₚ x :: l.
Proof.
  induction l as [|y l IH]; cbn; [reflexivity|].
  destruct (key x <=? key y)%nat; [reflexivity|].
  rewrite IH. apply Permutation_swap.
Qed.

Lemma as_completed_perm {A} (key : A → nat) l :
  Clob.as_completed key l ≡ₚ l.
Proof.
  induction l as [|x l IH]; cbn; [reflexivity|].
  rewrite insert_by_perm. now rewrite IH.
Qed.

Lemma elem_of_futures {A} (key : nat * A → nat) (l : list A) i x :
  (i, x) ∈ Clob.as_completed key (Clob.enumerate l) ↔ l !! i = Some x.
Proof.
  rewrite as_completed_perm. unfold Clob.enumerate.
  rewrite elem_of_lookup_imap. split.
  - intros (j & y & [= -> ->] & H). exact H.
  - intros H. exists i, x. auto.
Qed.

Lemma collect_errors E c future :
  Clob.api_error_tokens (Clob.collect E c future)
  = Clob.api_error_tokens c
    ∪ (if batch_failed E future.1 then Clob.batch_token_ids future.2 else ∅).
Proof.
  unfold Clob.collect, batch_failed.
  destruct (Clob._fetch_batch E future.1) as [[[n d] status]|e]; cbn;
    [|reflexivity].
  destruct (status =? 200); cbn.
  - destruct d as [[|entry entries]|[|]]; cbn;
      first [reflexivity | now rewrite (right_id_L ∅ (∪))].
  - reflexivity.
Qed.

Lemma collect_prices E c future :
  Clob.prices_by_token (Clob.collect E c future)
  = Clob.merge_data (delivered E future.1) (Clob.prices_by_token c).
Proof.
  unfold Clob.collect, delivered.
  destruct (Clob._fetch_batch E future.1) as [[[n d] status]|e]; cbn;
    [|reflexivity].
  destruct (status =? 200); cbn.
  - destruct d as [[|entry entries]|[|]]; reflexivity.
  - destruct d; reflexivity.
Qed.

Lemma foldl_collect_errors E futures c token_id :
  token_id ∈ Clob.api_error_tokens (foldl (Clob.collect E) c futures)
  ↔ token_id ∈ Clob.api_error_tokens c
    ∨ ∃ future, future ∈ futures ∧ batch_failed E future.1 = true
                ∧ token_id ∈ Clob.batch_token_ids future.2.
Proof.
  revert c. induction futures as [|f futures IH]; intros c; cbn.
  - split; [auto|]. intros [H | (f & Hf & _)]; [exact H|].
    now apply elem_of_nil in Hf.
  - rewrite IH, collect_errors, elem_of_union. split.
    + intros [[H | H] | (f' & Hin & Hfail & Hid)].
      * now left.
      * right. exists f. destruct (batch_failed E f.1) eqn:Hf;
          [|now apply not_elem_of_empty in H].
        split; [left|]. auto.
      * right. exists f'. split; [now right|]. auto.
    + intros [H | (f' & Hin & Hfail & Hid)]; [left; now left|].
      apply elem_of_cons in Hin. destruct Hin as [-> | Hin].
      * left. right. now rewrite Hfail.
      * right. exists f'. auto.
Qed.

(** A token is marked exactly when one of its request items sits in a
    batch that failed. *)
Lemma api_error_tokens_spec E batches token_id :
  token_id ∈ Clob.api_error_tokens (Clob.run_batches E batches)
  ↔ flagged E batches token_id.
Proof.
  unfold Clob.run_batches, flagged. rewrite foldl_collect_errors. cbn. split.
  - intros [H | ([i batch] & Hin & Hfail & Hid)];
      [now apply not_elem_of_empty in H|].
    apply elem_of_futures in Hin. exists i, batch. cbn in *.
    split; [exact Hin|]. split; [exact Hfail|].
    unfold Clob.batch_token_ids in Hid. now apply elem_of_list_to_set in Hid.
  - intros (i & batch & Hin & Hfail & Hid). right. exists (i, batch). cbn.
    split; [now apply elem_of_futures|]. split; [exact Hfail|].
    unfold Clob.batch_token_ids. now apply elem_of_list_to_set.
Qed.

Lemma merge_data_untouched entries prices token_id :
  prices !! token_id = None →
  (∀ es, (token_id, Clob.SidesDict es) ∉ entries) →
  Clob.merge_data entries prices !! token_id = None.
Proof.
  unfold Clob.merge_data. revert prices.
  induction entries as [|[k v] entries IH]; intros prices Hnone Habsent; cbn;
    [exact Hnone|].
  apply IH.
  - destruct v as [es|]; cbn; [|exact Hnone].
    rewrite lookup_insert_ne; [exact Hnone|].
    intros ->. apply (Habsent es). left.
  - intros es Hin. apply (Habsent es). now right.
Qed.

Lemma foldl_collect_untouched E futures c token_id :
  Clob.prices_by_token c !! token_id = None →
  (∀ future es, future ∈ futures →
     (token_id, Clob.SidesDict es) ∉ delivered E future.1) →
  Clob.prices_by_token (foldl (Clob.collect E) c futures) !! token_id = None.
Proof.
  revert c. induction futures as [|f futures IH]; intros c Hnone Habsent;
    cbn; [exact Hnone|].
  apply IH.
  - rewrite collect_prices. apply merge_data_untouched; [exact Hnone|].
    intros es. apply Habsent. left.
  - intros f' es Hin. apply Habsent. now right.
Qed.

Lemma unpriced_no_prices E batches token_id :
  ¬ priced E batches token_id →
  Clob.prices_by_token (Clob.run_batches E batches) !! token_id = None.
Proof.
  intros Hnot. unfold Clob.run_batches.
  apply foldl_collect_untouched; [apply lookup_empty|].
  intros [i batch] es Hin Hdel. apply elem_of_futures in Hin.
  apply Hnot. exists i, es. split; [|exact Hdel].
  now apply lookup_lt_Some in Hin.
Qed.

Lemma exhausted_fails E i :
  exhausted E i ∨ worker_raises E i → batch_failed E i = true.
Proof.
  unfold batch_failed. intros [Hex | [e He]]; [|now rewrite He].
  assert (Hretry : ∀ remaining k, (k + remaining = MAX_RETRIES)%nat →
            Clob.retry (Clob.server E i) k remaining = Ok (Clob.DataDict [], 0)).
  { induction remaining as [|r IH]; intros k Hk; cbn; [reflexivity|].
    assert (Hk' : (k < MAX_RETRIES)%nat) by lia.
    specialize (Hex k Hk'). unfold retried in Hex.
    destruct (Clob.server E i k) as [status body| |e]; [| |done].
    - destruct Hex as [-> | Hge]; [cbn; apply IH; lia|].
      destruct (status =? 429); [apply IH; lia|].
      destruct (Z.leb_spec 500 status); [apply IH; lia|lia].
    - apply IH. lia. }
  unfold Clob._fetch_batch, Clob._request_with_retry.
  rewrite (Hretry MAX_RETRIES 0%nat eq_refl). reflexivity.
Qed.

Lemma compute_status_spec c token_id bid ask :
  let status := Clob.compute_status c token_id bid ask in
  status ∈ ["ok"; "missing_price"; "api_error"]
  ∧ (token_id ∈ Clob.api_error_tokens c → status = "api_error")
  ∧ (token_id ∉ Clob.api_error_tokens c → bid = "" → ask = "" →
     status = "missing_price")
  ∧ (token_id ∉ Clob.api_error_tokens c → bid ≠ "" ∨ ask ≠ "" →
     status = "ok").
Proof.
  cbn zeta. unfold Clob.compute_status.
  destruct (decide (token_id ∈ Clob.api_error_tokens c)) as [Hin|Hout].
  - split; [set_solver|]. repeat split; intros; done.
  - destruct bid, ask; cbn; (split; [set_solver|]);
      repeat split; intros; try done; intuition congruence.
Qed.

(** C1, as stated, fails: the call raises, instead of returning a result
    for the token, when the batch size is zero (the request items cannot
    be chunked), when the pool is given no worker, and when a response
    quotes an infinite ask and the opposite infinite bid (averaging them
    signals InvalidOperation). *)
Lemma C1_counterexample :
  Clob.fetch_all_prices scenario_pricing "" [token "t1"] 5 0 None
  = Raise ValueError
  ∧ Clob.fetch_all_prices scenario_pricing "" [token "t1"] 0 500 None
    = Raise ValueError
  ∧ Clob.fetch_all_prices
      (pricing_serving [quote "t1" "-Infinity" "Infinity"]) ""
      [token "t1"] 5 500 None
    = Raise InvalidOperation.
Proof. vm_compute. auto. Qed.

(** C1 (amended): for every input list of TokenOutcomes, every non-zero
    batch size and every positive concurrency, provided averaging the
    collected prices raises no decimal signal, fetch_all_prices returns
    exactly one PriceResult per input token, in the order of the input
    tokens and carrying the token's identifiers; its status is one of ok,
    missing_price and api_error: api_error if one of the token's request
    items was in a batch that failed, else missing_price if neither bid nor
    ask is present, else ok. *)
Theorem C1_one_result_per_token (E : Clob.env) (clock : string)
    (tokens : list TokenOutcome.t) (concurrency batch_size : Z)
    (snapshot_ts : option string) :
  batch_size ≠ 0 →
  0 < concurrency →
  averaging_returns (collected E tokens batch_size) tokens →
  ∃ results raws st,
    Clob.fetch_all_prices E clock tokens concurrency batch_size snapshot_ts
    = Ok (results, raws, st)
    ∧ length results = length tokens
    ∧ ∀ i token, tokens !! i = Some token →
        ∃ r, results !! i = Some r
          ∧ PriceResult.token_id r = TokenOutcome.token_id token
          ∧ PriceResult.market_id r = TokenOutcome.market_id token
          ∧ PriceResult.outcome r = TokenOutcome.outcome token
          ∧ PriceResult.status r ∈ ["ok"; "missing_price"; "api_error"]
          ∧ let failed :=
              flagged E (batches_of tokens batch_size)
                (TokenOutcome.token_id token) in
            (failed → PriceResult.status r = "api_error")
            ∧ (¬ failed → PriceResult.bid r = "" → PriceResult.ask r = "" →
               PriceResult.status r = "missing_price")
            ∧ (¬ failed → PriceResult.bid r ≠ "" ∨ PriceResult.ask r ≠ "" →
               PriceResult.status r = "ok").
Proof.
  intros Hb Hc Hav.
  destruct (fetch_all_prices_returns E clock tokens concurrency batch_size
              snapshot_ts Hb Hc Hav) as [[[results raws] st] Hret].
  exists results, raws, st. split; [exact Hret|].
  destruct (fetch_all_prices_ok _ _ _ _ _ _ _ _ _ Hret) as (_ & _ & _ & Hall).
  split; [symmetry; eapply Forall2_length, Hall|].
  intros i token Hi.
  destruct (Forall2_lookup_l _ _ _ _ _ Hall Hi) as (r & Hr & Hpr).
  exists r. split; [exact Hr|].
  destruct (price_result_ok _ _ _ _ Hpr)
    as (Hid & Hm & Ho & _ & _ & _ & _ & Hst).
  repeat (split; [assumption|]).
  pose proof (compute_status_spec (collected E tokens batch_size)
                (TokenOutcome.token_id token) (PriceResult.bid r)
                (PriceResult.ask r)) as Hspec.
  cbn zeta in Hspec. rewrite <- Hst in Hspec.
  destruct Hspec as (Hin & Herr & Hmiss & Hok).
  split; [exact Hin|]. cbn zeta.
  unfold collected in *. setoid_rewrite api_error_tokens_spec in Herr.
  setoid_rewrite api_error_tokens_spec in Hmiss.
  setoid_rewrite api_error_tokens_spec in Hok.
  auto.
Qed.

Lemma scenario_averaging :
  averaging_returns (collected scenario_pricing scenario_tokens 500)
    scenario_tokens.
Proof.
  intros t Ht. unfold scenario_tokens in Ht.
  repeat (apply elem_of_cons in Ht; destruct Ht as [-> | Ht]);
    [vm_compute; eexists; reflexivity ..|].
  now apply elem_of_nil in Ht.
Defined.

Lemma C1_witness :
  ∃ results raws st,
    Clob.fetch_all_prices scenario_pricing "" scenario_tokens 5 500 None
    = Ok (results, raws, st)
    ∧ length results = length scenario_tokens.
Proof.
  destruct (C1_one_result_per_token scenario_pricing "" scenario_tokens 5
              500 None)
    as (results & raws & st & Hret & Hlen & _).
  - lia.
  - lia.
  - exact scenario_averaging.
  - exists results, raws, st. split; assumption.
Defined.


(** ** The price client: failed batches *)

Lemma compute_mid_empty mid : Clob.compute_mid "" "" = Ok mid → mid = "".
Proof. unfold Clob.compute_mid. cbn. now intros [= <-]. Qed.

(** C2, as stated, fails: with a batch size of one the BUY item and the
    SELL item of a token travel in different batches; when the BUY batch
    exhausts its retries and the SELL batch succeeds, the token is marked
    api_error and still carries the bid that was delivered. *)
Lemma C2_counterexample :
  exhausted split_env 0
  ∧ batches_of [token "t1"] 1 !! 0%nat = Some [Clob.mk_item "t1" "BUY"]
  ∧ ∃ r raws st,
      Clob.fetch_all_prices split_env "" [token "t1"] 5 1 None
      = Ok ([r], raws, st)
      ∧ PriceResult.token_id r = "t1"
      ∧ PriceResult.status r = "api_error"
      ∧ PriceResult.bid r = "0.40".
Proof.
  split; [|split].
  - intros k _. cbn. right. lia.
  - reflexivity.
  - do 3 eexists. split; [vm_compute; reflexivity|]. auto.
Qed.

(** C2 (amended): if a price batch exhausts its 3 retry attempts, or its
    worker raises, then in the results of the call every token that had a
    BUY or SELL request item in that batch has status api_error; its bid,
    ask and mid are all empty unless some batch delivered prices for the
    same token id, which are kept. *)
Theorem C2_failed_batch_marks_tokens (E : Clob.env) (clock : string)
    (tokens : list TokenOutcome.t) (concurrency batch_size : Z)
    (snapshot_ts : option string) (results : list PriceResult.t)
    (raws : list Clob.raw_response) (st : Clob.stats) (i : nat)
    (batch : list Clob.request_item) :
  Clob.fetch_all_prices E clock tokens concurrency batch_size snapshot_ts
  = Ok (results, raws, st) →
  batches_of tokens batch_size !! i = Some batch →
  exhausted E i ∨ worker_raises E i →
  ∀ r, r ∈ results →
    PriceResult.token_id r ∈ map Clob.item_token_id batch →
    PriceResult.status r = "api_error"
    ∧ (¬ priced E (batches_of tokens batch_size) (PriceResult.token_id r) →
       PriceResult.bid r = "" ∧ PriceResult.ask r = ""
       ∧ PriceResult.mid r = "").
Proof.
  intros Hret Hbatch Hfail r Hr Hid.
  destruct (fetch_all_prices_ok _ _ _ _ _ _ _ _ _ Hret) as (_ & _ & _ & Hall).
  apply list_elem_of_lookup in Hr. destruct Hr as [j Hj].
  destruct (Forall2_lookup_r _ _ _ _ _ Hall Hj) as (token & _ & Hpr).
  destruct (price_result_ok _ _ _ _ Hpr)
    as (Htid & _ & _ & _ & Hbid & Hask & Hmid & Hst).
  rewrite Htid in *. split.
  - rewrite Hst.
    apply (compute_status_spec (collected E tokens batch_size)).
    unfold collected. apply api_error_tokens_spec.
    exists i, batch. split; [exact Hbatch|].
    split; [now apply exhausted_fails|exact Hid].
  - intros Hnot. apply unpriced_no_prices in Hnot.
    unfold bid_of, ask_of, collected in *. rewrite Hnot in *. cbn in *.
    rewrite Hbid, Hask in Hmid.
    split; [exact Hbid|]. split; [exact Hask|].
    now apply compute_mid_empty.
Qed.

Lemma C2_witness :
  Forall (λ r, PriceResult.status r = "api_error") split_results.
Proof.
  apply Forall_forall. intros r Hr.
  refine (proj1 (C2_failed_batch_marks_tokens split_env "" [token "t1"] 5 1
                   None split_results _ _ 0%nat [Clob.mk_item "t1" "BUY"]
                   _ _ _ r Hr _)).
  - vm_compute. reflexivity.
  - reflexivity.
  - left. intros k _. cbn. right. lia.
  - apply list_elem_of_singleton in Hr. subst r. cbn. left.
Defined.

(** ** The price client: request items and sides *)













Lemma build_request_items_lookup tokens i token :
  tokens !! i = Some token →
  Clob.build_request_items tokens !! (2 * i)%nat
  = Some (Clob.mk_item (TokenOutcome.token_id token) "BUY")
  ∧ Clob.build_request_items tokens !! (2 * i + 1)%nat
    = Some (Clob.mk_item (TokenOutcome.token_id token) "SELL").
Proof.
  revert i. induction tokens as [|t tokens IH]; intros i Hi; [done|].
  destruct i as [|i]; cbn in Hi.
  - injection Hi as ->. split; reflexivity.
  - destruct (IH i Hi) as [Hbuy Hsell].
    replace (2 * S i)%nat with (S (S (2 * i))) by lia.
    replace (S (S (2 * i)) + 1)%nat with (S (S (2 * i + 1))) by lia.
    split; assumption.
Qed.




(** ** Decimal arithmetic without rounding *)

Lemma digits_go_length fuel :
  ∀ n acc (k : nat),
    0 ≤ n < 10 ^ Z.of_nat (S k) →
    (S (length acc) ≤ length (digits_go fuel n acc) ≤ length acc + S k)%nat.
Proof.
  induction fuel as [|f IH]; intros n acc k Hn; cbn [digits_go].
  - cbn. lia.
  - destruct (Z.ltb_spec n 10); [cbn; lia|].
    destruct k as [|k]; [cbn in Hn; lia|].
    assert (Hdiv : 0 ≤ n / 10 < 10 ^ Z.of_nat (S k)).
    { split; [apply Z.div_pos; lia|].
      apply Z.div_lt_upper_bound; [lia|].
      replace (Z.of_nat (S (S k))) with (Z.succ (Z.of_nat (S k))) in Hn by lia.
      rewrite Z.pow_succ_r in Hn by lia. lia. }
    specialize (IH (n / 10) (ascii_of_N (Z.to_N (48 + n mod 10)) :: acc) k
                  Hdiv).
    cbn [length] in IH. lia.
Qed.

Lemma ndigits_bound c (k : nat) :
  0 ≤ c < 10 ^ Z.of_nat (S k) → 1 ≤ ndigits c ≤ Z.of_nat (S k).
Proof.
  intros Hc. unfold ndigits, digits.
  pose proof (digits_go_length (Z.to_nat (Z.log2 c)) c [] k Hc) as H.
  cbn [length] in H. lia.
Qed.

Lemma ndigits_prec c : 0 ≤ c < 10 ^ Dec.prec → 1 ≤ ndigits c ≤ Dec.prec.
Proof. apply (ndigits_bound c 27). Qed.

Lemma fix_exact neg c e :
  0 ≤ c < 10 ^ Dec.prec → Dec.Etiny ≤ e ≤ Dec.Etop →
  Dec.fix_ (Dec.Finite neg c e) = Ok (Dec.Finite neg c e).
Proof.
  intros Hc He. unfold Dec.fix_.
  assert (HE : Dec.Etop ≤ Dec.Emax) by (vm_compute; discriminate).
  destruct (Z.eqb_spec c 0) as [->|Hne].
  { do 2 f_equal. lia. }
  pose proof (ndigits_prec c Hc) as Hnd.
  destruct (Z.ltb_spec Dec.Etop (ndigits c + e - Dec.prec)); [lia|].
  destruct (Z.ltb_spec e (Z.max (ndigits c + e - Dec.prec) Dec.Etiny));
    [lia|reflexivity].
Qed.

Lemma to_ideal_zeros n :
  ∀ fuel c x ideal,
    x + Z.of_nat n ≤ ideal →
    Dec.to_ideal (n + fuel) (c * 10 ^ Z.of_nat n) x ideal
    = Dec.to_ideal fuel c (x + Z.of_nat n) ideal.
Proof.
  induction n as [|n IH]; intros fuel c x ideal Hx.
  - cbn [Nat.add]. rewrite Z.mul_1_r, Z.add_0_r. reflexivity.
  - cbn [Nat.add Dec.to_ideal].
    replace (Z.of_nat (S n)) with (Z.succ (Z.of_nat n)) by lia.
    rewrite Z.pow_succ_r by lia.
    replace (c * (10 * 10 ^ Z.of_nat n)) with (c * 10 ^ Z.of_nat n * 10)
      by lia.
    rewrite Z.mod_mul, Z.div_mul by lia.
    destruct (Z.ltb_spec x ideal); [|lia]. cbn.
    rewrite IH by lia. f_equal. lia.
Qed.

(** Halving a decimal whose coefficient leaves room for one more digit is
    exact: the coefficient is halved, or multiplied by five one exponent
    lower. *)
Lemma halve_exact neg c e :
  0 < c → 5 * c < 10 ^ Dec.prec → Dec.Etiny < e ≤ Dec.Etop →
  Dec.truediv (Dec.Finite neg c e) Dec.two
  = Ok (if Z.even c then Dec.Finite neg (c / 2) e
        else Dec.Finite neg (5 * c) (e - 1)).
Proof.
  intros Hpos Hc He. unfold Dec.truediv, Dec.two.
  cbn [Dec.check_nans xorb].
  change (2 =? 0) with false. cbv iota.
  destruct (Z.eqb_spec c 0) as [|_]; [lia|].
  change (ndigits 2) with 1.
  assert (Hc' : 0 ≤ c < 10 ^ Dec.prec) by lia.
  pose proof (ndigits_prec c Hc') as Hnd.
  set (shift := 1 - ndigits c + Dec.prec + 1).
  assert (Hshift : 2 ≤ shift) by (unfold shift; lia).
  destruct (Z.leb_spec 0 shift); [|lia].
  assert (Hpow : c * 10 ^ shift = (5 * c) * 10 ^ (shift - 1) * 2).
  { replace shift with (Z.succ (shift - 1)) at 1 by lia.
    rewrite Z.pow_succ_r by lia. lia. }
  rewrite Hpow, Z.mod_mul, Z.div_mul by lia. cbn [Z.eqb].
  set (n := Z.to_nat (shift - 1)).
  assert (Hn : shift - 1 = Z.of_nat n) by (unfold n; lia).
  replace (Z.to_nat (e - 0 - (e - 0 - shift))) with (n + 1)%nat by lia.
  rewrite Hn, to_ideal_zeros by lia.
  replace (e - 0 - shift + Z.of_nat n) with (e - 1) by lia.
  replace (e - 0) with e by lia.
  rewrite xorb_false_r. cbn [Dec.to_ideal].
  destruct (Z.ltb_spec (e - 1) e); [|lia]. cbn [andb].
  destruct (Z.even c) eqn:Heven.
  - apply Z.even_spec in Heven. destruct Heven as [h ->].
    replace (5 * (2 * h)) with (h * 10) by lia.
    rewrite Z.mod_mul by lia. cbn [Z.eqb].
    rewrite Z.div_mul by lia.
    replace (2 * h / 2) with h by (rewrite Z.mul_comm, Z.div_mul; lia).
    replace (e - 1 + 1) with e by lia.
    apply fix_exact; lia.
  - assert (Hodd : Z.odd c = true) by (rewrite <- Z.negb_even, Heven; done).
    apply Z.odd_spec in Hodd. destruct Hodd as [h ->].
    replace (5 * (2 * h + 1)) with (5 + h * 10) by lia.
    rewrite Z_mod_plus_full. change (5 mod 10 =? 0) with false. cbv iota.
    apply fix_exact; lia.
Qed.

Lemma signed_abs s : Dec.signed (s <? 0) (Z.abs s) = s.
Proof. unfold Dec.signed. destruct (Z.ltb_spec s 0); lia. Qed.

Lemma add_exact sb cb eb sa ca ea :
  let b := Dec.Finite sb cb eb in
  let a := Dec.Finite sa ca ea in
  let e := Z.min eb ea in
  let s := units e b + units e a in
  within_precision b a →
  ∃ neg, Dec.add b a = Ok (Dec.Finite neg (Z.abs s) e)
         ∧ Dec.signed neg (Z.abs s) = s.
Proof.
  cbn zeta. unfold within_precision. cbn zeta. intros (He1 & He2 & Hs).
  unfold Dec.add. cbn [Dec.check_nans]. unfold units in *.
  set (s := Dec.signed sb cb * 10 ^ (eb - Z.min eb ea)
            + Dec.signed sa ca * 10 ^ (ea - Z.min eb ea)) in *.
  eexists. split.
  - apply fix_exact; lia.
  - destruct (Z.eqb_spec s 0) as [Hz|Hnz].
    + rewrite Hz. cbn [Z.abs]. unfold Dec.signed.
      match goal with |- (if ?x then _ else _) = _ => now destruct x end.
    + apply signed_abs.
Qed.

(** Within the precision of the context the average computed by the
    price client is the exact mean. *)
Lemma mean_exact b a :
  within_precision b a →
  ∃ s m, Dec.add b a = Ok s ∧ Dec.truediv s Dec.two = Ok m ∧ is_mean m b a.
Proof.
  destruct b as [sb cb eb| |]; try (intros []; fail).
  destruct a as [sa ca ea| |]; try (intros []; fail).
  intros Hw.
  destruct (add_exact sb cb eb sa ca ea Hw) as (neg & Hadd & Hsign).
  unfold within_precision in Hw. cbn zeta in Hw.
  destruct Hw as (He1 & He2 & Hs).
  set (e := Z.min eb ea) in *.
  set (s := units e (Dec.Finite sb cb eb) + units e (Dec.Finite sa ca ea))
    in *.
  destruct (Z.eq_dec s 0) as [Hz|Hnz];
    (eexists; eexists; split; [exact Hadd|]).
  - rewrite Hz in *. cbn [Z.abs]. split.
    + unfold Dec.truediv, Dec.two. cbn [Dec.check_nans Z.eqb].
      replace (e - 0) with e by lia. rewrite xorb_false_r.
      apply fix_exact; [|lia]. split; [lia|]. apply Z.pow_pos_nonneg; [lia|].
      vm_compute. discriminate.
    + unfold is_mean. cbn zeta. fold e.
      replace (Z.min e e) with e by lia. fold s. rewrite Hz.
      cbn. destruct neg; cbn; lia.
  - split; [apply halve_exact; lia|].
    destruct (Z.even (Z.abs s)) eqn:Heven.
    + unfold is_mean. cbn zeta. fold e.
      replace (Z.min e e) with e by lia. fold s.
      apply Z.even_spec in Heven. destruct Heven as [h Hh].
      cbn [units]. rewrite Z.sub_diag, Z.mul_1_r. rewrite Hh in *.
      replace (2 * h / 2) with h by (rewrite Z.mul_comm, Z.div_mul; lia).
      unfold Dec.signed in *. destruct neg; lia.
    + unfold is_mean. cbn zeta. fold e.
      replace (Z.min (e - 1) e) with (e - 1) by lia.
      assert (Hscale : ∀ d, units (e - 1) (Dec.Finite d.1.1 d.1.2 d.2)
                            = 10 * units e (Dec.Finite d.1.1 d.1.2 d.2)
                            ∨ d.2 < e).
      { intros [[dn dc] de]. cbn [fst snd units].
        destruct (Z.lt_ge_cases de e); [now right|left].
        replace (de - (e - 1)) with (Z.succ (de - e)) by lia.
        rewrite Z.pow_succ_r by lia. lia. }
      destruct (Hscale (sb, cb, eb)) as [Hb|Hb]; [|cbn in Hb; lia].
      destruct (Hscale (sa, ca, ea)) as [Ha|Ha]; [|cbn in Ha; lia].
      cbn [fst snd] in Hb, Ha. rewrite Hb, Ha.
      replace (10 * units e (Dec.Finite sb cb eb)
               + 10 * units e (Dec.Finite sa ca ea))
        with (10 * s) by (unfold s; lia).
      cbn [units]. rewrite Z.sub_diag, Z.mul_1_r.
      unfold Dec.signed in *. destruct neg; lia.
Qed.

(** ** The price client: the mid price *)

Lemma nonempty_spec s : nonempty s = true ↔ s ≠ "".
Proof. destruct s; cbn; split; intros; done. Qed.

Lemma digits_go_nonempty fuel : ∀ n acc, digits_go fuel n acc ≠ [].
Proof.
  induction fuel as [|f IH]; intros n acc; cbn; [done|].
  destruct (n <? 10); [done|apply IH].
Qed.

Lemma text_nonempty l : l ≠ [] → text l ≠ "".
Proof. destruct l; [done|]. intros _. cbn. discriminate. Qed.

Lemma to_string_nonempty d : Dec.to_string d ≠ "".
Proof.
  unfold Dec.to_string. apply text_nonempty.
  destruct d as [neg c e|neg|neg sg p].
  - cbn zeta. intros H.
    apply app_eq_nil in H. destruct H as [_ H].
    apply app_eq_nil in H. destruct H as [H _].
    pose proof (digits_go_nonempty (Z.to_nat (Z.log2 c)) c []) as Hds.
    fold (digits c) in Hds.
    destruct (Z.leb_spec
                (if (e <=? 0) && (-6 <? e + Z.of_nat (length (digits c)))
                 then e + Z.of_nat (length (digits c)) else 1) 0)
      as [Hle|Hgt]; [discriminate|].
    destruct (Z.of_nat (length (digits c)) <=? _).
    + apply app_eq_nil in H. now destruct H.
    + destruct (digits c) as [|x ds]; [done|].
      destruct (Z.to_nat _) eqn:Hn; [lia|]. discriminate.
  - destruct neg; discriminate.
  - destruct neg, sg; discriminate.
Qed.

(** C3, as stated, fails: for a bid of 0.1000000000000000000000000001 and
    an ask of 0.1 the mid is 0.1000000000000000000000000000, the mean
    rounded to the 28 digits of the decimal context, not the exact mean
    0.10000000000000000000000000005. *)
Lemma C3_counterexample :
  ∃ r b a m,
    precise_results = [r]
    ∧ parse_decimal (SStr (PriceResult.bid r)) = Some b
    ∧ parse_decimal (SStr (PriceResult.ask r)) = Some a
    ∧ PriceResult.mid r = "0.1000000000000000000000000000"
    ∧ parse_decimal (SStr (PriceResult.mid r)) = Some m
    ∧ ¬ is_mean m b a.
Proof.
  do 4 eexists. split; [reflexivity|].
  split; [vm_compute; reflexivity|]. split; [vm_compute; reflexivity|].
  split; [reflexivity|]. split; [vm_compute; reflexivity|].
  vm_compute. discriminate.
Qed.

(** C3 (amended): for every PriceResult produced by fetch_all_prices the
    mid is non-empty if and only if both bid and ask are non-empty and
    decimal-parseable; it is then the text of (bid + ask) / 2 computed by
    the decimal addition and division of the 28-digit context, never a
    default; and it equals the exact arithmetic mean whenever bid and ask
    are finite with exponents in range and five times their exact sum has
    at most 28 digits, so that neither step rounds. *)
Theorem C3_mid_decimal_mean (E : Clob.env) (clock : string)
    (tokens : list TokenOutcome.t) (concurrency batch_size : Z)
    (snapshot_ts : option string) (results : list PriceResult.t)
    (raws : list Clob.raw_response) (st : Clob.stats) :
  Clob.fetch_all_prices E clock tokens concurrency batch_size snapshot_ts
  = Ok (results, raws, st) →
  ∀ r, r ∈ results →
    (PriceResult.mid r ≠ ""
     ↔ PriceResult.bid r ≠ "" ∧ PriceResult.ask r ≠ ""
       ∧ is_Some (parse_decimal (SStr (PriceResult.bid r)))
       ∧ is_Some (parse_decimal (SStr (PriceResult.ask r))))
    ∧ (∀ b a,
         PriceResult.bid r ≠ "" → PriceResult.ask r ≠ "" →
         parse_decimal (SStr (PriceResult.bid r)) = Some b →
         parse_decimal (SStr (PriceResult.ask r)) = Some a →
         (∃ s m, Dec.add b a = Ok s ∧ Dec.truediv s Dec.two = Ok m
                 ∧ PriceResult.mid r = Dec.to_string m)
         ∧ (within_precision b a →
            ∃ m, PriceResult.mid r = Dec.to_string m ∧ is_mean m b a)).
Proof.
  intros Hret r Hr.
  destruct (fetch_all_prices_ok _ _ _ _ _ _ _ _ _ Hret) as (_ & _ & _ & Hall).
  apply list_elem_of_lookup in Hr. destruct Hr as [j Hj].
  destruct (Forall2_lookup_r _ _ _ _ _ Hall Hj) as (token & _ & Hpr).
  destruct (price_result_ok _ _ _ _ Hpr) as (_ & _ & _ & _ & _ & _ & Hmid & _).
  revert Hmid. generalize (PriceResult.mid r) as mid.
  generalize (PriceResult.ask r) as ask. generalize (PriceResult.bid r) as bid.
  clear. intros bid ask mid. unfold Clob.compute_mid.
  destruct (nonempty bid) eqn:Hb; cbn [andb].
  2:{ intros [= <-]. assert (bid = "") by (destruct bid; done).
      split; [split; [done|tauto]|]. intros; done. }
  destruct (nonempty ask) eqn:Ha.
  2:{ intros [= <-]. assert (ask = "") by (destruct ask; done).
      split; [split; [done|tauto]|]. intros; done. }
  apply nonempty_spec in Hb, Ha.
  destruct (parse_decimal (SStr bid)) as [b|].
  2:{ intros [= <-]. split; [split; [done|]|intros; done].
      intros (_ & _ & [? ?] & _). done. }
  destruct (parse_decimal (SStr ask)) as [a|].
  2:{ intros [= <-]. split; [split; [done|]|intros; done].
      intros (_ & _ & _ & [? ?]). done. }
  destruct (Dec.add b a) as [s|e] eqn:Hadd; cbn; [|discriminate].
  destruct (Dec.truediv s Dec.two) as [m|e] eqn:Hdiv; cbn; [|discriminate].
  intros [= <-]. split.
  - split; [eauto|]. intros _. apply to_string_nonempty.
  - intros b' a' _ _ [= <-] [= <-]. split; [eauto|].
    intros Hw. destruct (mean_exact b a Hw) as (s' & m' & Hadd' & Hdiv' & Hm).
    rewrite Hadd in Hadd'. injection Hadd' as <-.
    rewrite Hdiv in Hdiv'. injection Hdiv' as <-.
    eauto.
Qed.

Lemma C3_witness :
  ∃ m, "0.46" = Dec.to_string m
       ∧ is_mean m (Dec.Finite false 45 (-2)) (Dec.Finite false 47 (-2)).
Proof.
  destruct scenario_prices as [[[results raws] st]|e] eqn:Hrun;
    [|discriminate].
  pose (r := PriceResult.mk "" "polymarket_clob" "m" "slug" "question" "t1"
               "Yes" "0.45" "0.47" "0.46" SNone "ok" SNone SNone).
  refine (proj2 (proj2 (C3_mid_decimal_mean scenario_pricing ""
                          scenario_tokens 5 500 None results raws st _ r _)
                   (Dec.Finite false 45 (-2)) (Dec.Finite false 47 (-2))
                   _ _ _ _) _).
  - rewrite <- Hrun. vm_compute. reflexivity.
  - injection Hrun as <- _ _. left.
  - discriminate.
  - discriminate.
  - vm_compute. reflexivity.
  - vm_compute. reflexivity.
  - vm_compute. repeat split; discriminate.
Defined.

(** * Further properties of the code *)

(** ** [utils.chunk_list] *)

Lemma chunks_lookup {A : Type} (fuel size : nat) :
  ∀ (items : list A) (i : nat),
    (0 < size)%nat → (length items ≤ fuel)%nat →
    chunks fuel size items !! i
    = if decide (i * size < length items)%nat
      then Some (take size (drop (i * size) items)) else None.
Proof.
  induction fuel as [|f IH]; intros items i Hsize Hfuel.
  - destruct items; [|cbn in Hfuel; lia]. cbn.
    destruct (decide _) as [H|H]; [cbn in H; lia|reflexivity].
  - destruct items as [|x items].
    { cbn. destruct (decide _) as [H|H]; [cbn in H; lia|reflexivity]. }
    cbn [chunks]. destruct i as [|i].
    + cbn [lookup list_lookup Nat.mul drop].
      destruct (decide _) as [H|H]; [reflexivity|cbn in H; lia].
    + cbn [lookup list_lookup].
      change (chunks f size (drop size (x :: items)) !! i
              = if decide (S i * size < length (x :: items))%nat
                then Some (take size (drop (S i * size) (x :: items)))
                else None).
      rewrite IH; [|exact Hsize|rewrite length_drop; cbn in *; lia].
      rewrite length_drop, drop_drop.
      replace (size + i * size)%nat with (S i * size)%nat by lia.
      destruct (decide (i * size < length (x :: items) - size)%nat),
        (decide (S i * size < length (x :: items))%nat);
        first [reflexivity | lia].
Qed.

Lemma chunks_concat {A : Type} (fuel size : nat) :
  ∀ items : list A,
    (0 < size)%nat → (length items ≤ fuel)%nat →
    concat (chunks fuel size items) = items.
Proof.
  induction fuel as [|f IH]; intros items Hsize Hfuel.
  - destruct items; [reflexivity|cbn in Hfuel; lia].
  - destruct items as [|x items]; [reflexivity|].
    cbn [chunks concat].
    rewrite IH; [apply take_drop|exact Hsize|].
    rewrite length_drop. cbn in *. lia.
Qed.

(** X1: for a positive size chunk_list returns the items cut into
    consecutive slices: chunk [i] is [items[i*size : i*size+size]], the
    chunks put together give back the items, no chunk is empty or longer
    than size, and every chunk but the last has exactly size items. *)
Theorem X1_chunk_list_partitions {A : Type} (items : list A) (size : Z) :
  0 < size →
  ∃ cs,
    chunk_list items size = Ok cs
    ∧ concat cs = items
    ∧ ∀ i c, cs !! i = Some c →
        c = take (Z.to_nat size) (drop (i * Z.to_nat size) items)
        ∧ (0 < length c ≤ Z.to_nat size)%nat
        ∧ ((S i < length cs)%nat → length c = Z.to_nat size).
Proof.
  intros Hsize. unfold chunk_list.
  destruct (Z.eqb_spec size 0); [lia|].
  destruct (Z.ltb_spec size 0); [lia|].
  set (sz := Z.to_nat size). assert (Hn : (0 < sz)%nat) by lia.
  eexists. split; [reflexivity|].
  split; [now apply chunks_concat|].
  assert (Hlook := λ i, chunks_lookup (length items) sz items i Hn (le_n _)).
  intros i c Hc. rewrite Hlook in Hc.
  destruct (decide (i * sz < length items)%nat) as [Hi|Hi]; [|discriminate].
  injection Hc as <-. split; [reflexivity|].
  rewrite length_take, length_drop. split; [lia|].
  intros Hnext.
  destruct (lookup_lt_is_Some_2 _ _ Hnext) as [c' Hc'].
  rewrite Hlook in Hc'.
  destruct (decide (S i * sz < length items)%nat); [lia|discriminate].
Qed.

Lemma X1_witness :
  ∃ cs, chunk_list [1; 2; 3; 4; 5] 2 = Ok cs ∧ concat cs = [1; 2; 3; 4; 5].
Proof.
  destruct (X1_chunk_list_partitions [1; 2; 3; 4; 5] 2) as (cs & H & Hc & _).
  - lia.
  - exists cs. split; assumption.
Defined.

(** ** [ClobClient.fetch_all_prices]: batching *)

Lemma batches_of_positive tokens batch_size :
  0 < batch_size →
  batches_of tokens batch_size
  = chunks (length (Clob.build_request_items tokens)) (Z.to_nat batch_size)
      (Clob.build_request_items tokens).
Proof.
  intros H. unfold batches_of, chunk_list.
  destruct (Z.eqb_spec batch_size 0); [lia|].
  destruct (Z.ltb_spec batch_size 0); [lia|reflexivity].
Qed.

(** X3: with a positive even batch size the BUY item and the SELL item of
    every token sit next to each other in one and the same batch, so a
    token is never split between a batch that fails and one that
    succeeds. *)
Theorem X3_even_batch_keeps_sides_together (tokens : list TokenOutcome.t)
    (batch_size : Z) (i : nat) (token : TokenOutcome.t) :
  0 < batch_size →
  Z.even batch_size = true →
  tokens !! i = Some token →
  ∃ j batch k,
    batches_of tokens batch_size !! j = Some batch
    ∧ batch !! k = Some (Clob.mk_item (TokenOutcome.token_id token) "BUY")
    ∧ batch !! S k
      = Some (Clob.mk_item (TokenOutcome.token_id token) "SELL").
Proof.
  intros Hpos Heven Hi.
  rewrite batches_of_positive by exact Hpos.
  apply Z.even_spec in Heven. destruct Heven as [h ->].
  set (items := Clob.build_request_items tokens).
  destruct (build_request_items_lookup tokens i token Hi) as [Hbuy Hsell].
  fold items in Hbuy, Hsell.
  assert (Hh : (0 < Z.to_nat h)%nat) by lia.
  replace (Z.to_nat (2 * h)) with (2 * Z.to_nat h)%nat by lia.
  set (n := Z.to_nat h) in *.
  pose proof (lookup_lt_Some _ _ _ Hsell) as Hlen.
  pose proof (Nat.div_mod_eq (2 * i) (2 * n)) as Hdiv.
  assert (Hmod : ((2 * i) mod (2 * n) = 2 * (i mod n))%nat)
    by (apply Nat.Div0.mul_mod_distr_l).
  pose proof (Nat.mod_upper_bound i n ltac:(lia)) as Hbound.
  exists ((2 * i) / (2 * n))%nat, (take (2 * n) (drop ((2 * i) / (2 * n) * (2 * n)) items)),
    ((2 * i) mod (2 * n))%nat.
  split; [|split].
  - rewrite chunks_lookup by lia.
    destruct (decide _) as [_|Hn]; [reflexivity|]. exfalso. apply Hn. lia.
  - rewrite lookup_take_lt by lia. rewrite lookup_drop.
    rewrite <- Hbuy. f_equal. lia.
  - rewrite lookup_take_lt by lia. rewrite lookup_drop.
    rewrite <- Hsell. f_equal. lia.
Qed.

Lemma X3_witness :
  ∃ j batch k,
    batches_of scenario_tokens 2 !! j = Some batch
    ∧ batch !! k = Some (Clob.mk_item "t2" "BUY")
    ∧ batch !! S k = Some (Clob.mk_item "t2" "SELL").
Proof.
  apply (X3_even_batch_keeps_sides_together scenario_tokens 2 1 (token "t2")).
  - lia.
  - reflexivity.
  - reflexivity.
Defined.

(** ** [ClobClient.fetch_all_prices]: the counters *)

Lemma build_results_stats ts c tokens acc st out st' :
  Clob.build_results ts c tokens acc st = Ok (out, st') →
  ∃ rs, out = acc ++ rs
        ∧ Forall2 (λ token r, Clob.price_result ts c token = Ok r) tokens rs
        ∧ st' = foldl Clob.count st (map PriceResult.status rs).
Proof.
  revert acc st. induction tokens as [|token tokens IH]; intros acc st; cbn.
  - intros [= <- <-]. exists []. rewrite app_nil_r. repeat split. constructor.
  - destruct (Clob.price_result ts c token) as [r|e] eqn:Hr; cbn;
      [|discriminate].
    intros H. destruct (IH _ _ H) as (rs & -> & Hrs & ->).
    exists (r :: rs). rewrite <- app_assoc. repeat split.
    constructor; assumption.
Qed.

Lemma count_tally statuses st :
  Forall (λ s, s ∈ ["ok"; "missing_price"; "api_error"]) statuses →
  let st' := foldl Clob.count st statuses in
  let tally s := Z.of_nat (length (filter (λ x, x = s) statuses)) in
  Clob.tokens_priced_ok st' = Clob.tokens_priced_ok st + tally "ok"
  ∧ Clob.tokens_missing_price st'
    = Clob.tokens_missing_price st + tally "missing_price"
  ∧ Clob.api_errors st' = Clob.api_errors st + tally "api_error".
Proof.
  cbn zeta. intros Hall. revert st.
  induction Hall as [|s statuses Hs Hall IH]; intros st; cbn [foldl].
  - cbn. lia.
  - destruct (IH (Clob.count st s)) as (Hok & Hmiss & Herr).
    rewrite Hok, Hmiss, Herr. clear IH Hok Hmiss Herr.
    rewrite !filter_cons. unfold Clob.count.
    repeat (apply elem_of_cons in Hs; destruct Hs as [-> | Hs]);
      [| | |now apply elem_of_nil in Hs];
      repeat (destruct (decide _); try congruence); cbn; lia.
Qed.

Lemma filter_status_map s (results : list PriceResult.t) :
  length (filter (λ x, x = s) (map PriceResult.status results))
  = length (filter (λ r, PriceResult.status r = s) results).
Proof.
  induction results as [|r results IH]; [reflexivity|].
  cbn [map]. rewrite !filter_cons.
  destruct (decide (PriceResult.status r = s)); cbn; lia.
Qed.

Lemma fetch_all_prices_stats E clock tokens concurrency batch_size ts
    results raws st :
  Clob.fetch_all_prices E clock tokens concurrency batch_size ts
  = Ok (results, raws, st) →
  Forall (λ r, PriceResult.status r ∈ ["ok"; "missing_price"; "api_error"])
    results
  ∧ length results = length tokens
  ∧ st = foldl Clob.count (Clob.mk_stats 0 0 0)
           (map PriceResult.status results).
Proof.
  intros Hret.
  destruct (fetch_all_prices_ok _ _ _ _ _ _ _ _ _ Hret) as (_ & _ & _ & Hall).
  split; [|split].
  - apply Forall_forall. intros r Hr.
    apply list_elem_of_lookup in Hr. destruct Hr as [j Hj].
    destruct (Forall2_lookup_r _ _ _ _ _ Hall Hj) as (token & _ & Hpr).
    destruct (price_result_ok _ _ _ _ Hpr) as (_ & _ & _ & _ & _ & _ & _ & Hst).
    rewrite Hst. apply (compute_status_spec _ _ _ _).
  - symmetry. eapply Forall2_length, Hall.
  - revert Hret. unfold Clob.fetch_all_prices.
    destruct (chunk_list _ _) as [batches|e]; cbn; [|discriminate].
    destruct (concurrency <=? 0); [discriminate|].
    destruct (Clob.build_results _ _ _ _ _) as [[out st']|e] eqn:Hbuild; cbn;
      [|discriminate].
    intros [= <- <- <-].
    destruct (build_results_stats _ _ _ _ _ _ _ Hbuild) as (rs & -> & _ & ->).
    reflexivity.
Qed.

(** X4: the counters returned by fetch_all_prices count the results by
    status: tokens_priced_ok, tokens_missing_price and api_errors are the
    numbers of results with status ok, missing_price and api_error, and
    they add up to the number of input tokens. *)
Theorem X4_stats_count_statuses (E : Clob.env) (clock : string)
    (tokens : list TokenOutcome.t) (concurrency batch_size : Z)
    (snapshot_ts : option string) (results : list PriceResult.t)
    (raws : list Clob.raw_response) (st : Clob.stats) :
  Clob.fetch_all_prices E clock tokens concurrency batch_size snapshot_ts
  = Ok (results, raws, st) →
  Clob.tokens_priced_ok st = with_status "ok" results
  ∧ Clob.tokens_missing_price st = with_status "missing_price" results
  ∧ Clob.api_errors st = with_status "api_error" results
  ∧ Clob.tokens_priced_ok st + Clob.tokens_missing_price st
    + Clob.api_errors st = Z.of_nat (length tokens).
Proof.
  intros Hret.
  destruct (fetch_all_prices_stats _ _ _ _ _ _ _ _ _ Hret)
    as (Hin & Hlen & ->).
  assert (Hstat : Forall (λ s, s ∈ ["ok"; "missing_price"; "api_error"])
                    (map PriceResult.status results))
    by (apply Forall_fmap; exact Hin).
  destruct (count_tally _ (Clob.mk_stats 0 0 0) Hstat) as (Hok & Hmiss & Herr).
  cbn zeta in *. cbn [Clob.tokens_priced_ok Clob.tokens_missing_price
                      Clob.api_errors] in *.
  rewrite !filter_status_map in *. unfold with_status.
  split; [lia|]. split; [lia|]. split; [lia|].
  rewrite Hok, Hmiss, Herr, <- Hlen. clear -Hin.
  induction Hin as [|r results Hr Hin IH]; [reflexivity|].
  rewrite !filter_cons. cbn [length].
  repeat (apply elem_of_cons in Hr; destruct Hr as [Hr | Hr]);
    [| | |now apply elem_of_nil in Hr];
    rewrite Hr; repeat (destruct (decide _); try congruence); cbn; lia.
Qed.

Lemma X4_witness :
  ∃ st, Clob.tokens_priced_ok st = 3 ∧ Clob.tokens_missing_price st = 1
        ∧ Clob.api_errors st = 0
        ∧ Clob.tokens_priced_ok st + Clob.tokens_missing_price st
          + Clob.api_errors st = Z.of_nat (length scenario_tokens).
Proof.
  destruct scenario_prices as [[[results raws] st]|e] eqn:Hrun;
    [|discriminate].
  exists st.
  destruct (X4_stats_count_statuses scenario_pricing "" scenario_tokens 5
              500 None results raws st) as (Hok & Hmiss & Herr & Hsum).
  - rewrite <- Hrun. vm_compute. reflexivity.
  - injection Hrun as <- _ <-. repeat split; reflexivity.
Defined.

Lemma filter_all_same (s s' : string) (statuses : list string) :
  Forall (λ x, x = s) statuses →
  length (filter (λ x, x = s') statuses)
  = if decide (s = s') then length statuses else 0%nat.
Proof.
  induction 1 as [|x statuses -> _ IH]; [now destruct (decide _)|].
  rewrite filter_cons. destruct (decide (s = s')); cbn; lia.
Qed.

(** X2: a negative batch size is not rejected: chunk_list yields no batch,
    no request is made and no raw response is kept, and every input token
    comes back as missing_price with empty bid, ask and mid. *)
Theorem X2_negative_batch_size_prices_nothing (E : Clob.env) (clock : string)
    (tokens : list TokenOutcome.t) (concurrency batch_size : Z)
    (snapshot_ts : option string) :
  batch_size < 0 →
  0 < concurrency →
  ∃ results st,
    Clob.fetch_all_prices E clock tokens concurrency batch_size snapshot_ts
    = Ok (results, [], st)
    ∧ map PriceResult.token_id results = map TokenOutcome.token_id tokens
    ∧ Forall (λ r, PriceResult.status r = "missing_price"
                   ∧ PriceResult.bid r = "" ∧ PriceResult.ask r = ""
                   ∧ PriceResult.mid r = "") results
    ∧ Clob.tokens_priced_ok st = 0
    ∧ Clob.tokens_missing_price st = Z.of_nat (length tokens)
    ∧ Clob.api_errors st = 0.
Proof.
  intros Hneg Hconc.
  assert (Hbatches : batches_of tokens batch_size = []).
  { unfold batches_of, chunk_list.
    destruct (Z.eqb_spec batch_size 0); [lia|].
    destruct (Z.ltb_spec batch_size 0); [reflexivity|lia]. }
  assert (Hc : collected E tokens batch_size = Clob.mk_collector [] ∅ ∅).
  { unfold collected. rewrite Hbatches. reflexivity. }
  destruct (fetch_all_prices_returns E clock tokens concurrency batch_size
              snapshot_ts) as [[[results raws] st] Hret]; [lia|lia| |].
  { intros token _. rewrite Hc. eexists. reflexivity. }
  destruct (fetch_all_prices_ok _ _ _ _ _ _ _ _ _ Hret)
    as (_ & _ & -> & Hall).
  destruct (fetch_all_prices_stats _ _ _ _ _ _ _ _ _ Hret)
    as (Hin & Hlen & Hst).
  rewrite Hc in *. cbn [Clob.all_raw_responses] in *.
  exists results, st. split; [exact Hret|].
  assert (Hrows : Forall2 (λ token r,
            PriceResult.token_id r = TokenOutcome.token_id token
            ∧ PriceResult.status r = "missing_price"
            ∧ PriceResult.bid r = "" ∧ PriceResult.ask r = ""
            ∧ PriceResult.mid r = "") tokens results).
  { eapply Forall2_impl; [exact Hall|]. intros token r Hpr.
    destruct (price_result_ok _ _ _ _ Hpr)
      as (Hid & _ & _ & _ & Hbid & Hask & Hmid & Hstatus).
    unfold bid_of, ask_of in *. cbn in Hbid, Hask.
    rewrite Hbid, Hask in *.
    split; [exact Hid|]. split; [rewrite Hstatus; reflexivity|].
    split; [reflexivity|]. split; [reflexivity|].
    now apply compute_mid_empty. }
  assert (Hmissing : Forall (λ x, x = "missing_price")
                       (map PriceResult.status results)).
  { apply Forall_fmap. clear -Hrows.
    induction Hrows as [|t r ts rs (_ & H & _) _ IH]; constructor; auto. }
  split; [|split].
  - clear -Hrows. induction Hrows as [|t r ts rs (H & _) _ IH];
      [reflexivity|]. cbn. now rewrite H, IH.
  - clear -Hrows. induction Hrows as [|t r ts rs (_ & H) _ IH];
      constructor; auto.
  - assert (Hstat : Forall (λ s, s ∈ ["ok"; "missing_price"; "api_error"])
                      (map PriceResult.status results))
      by (apply Forall_fmap; exact Hin).
    destruct (count_tally _ (Clob.mk_stats 0 0 0) Hstat) as (Hok & Hm & Herr).
    cbn zeta in *. rewrite <- Hst in *.
    rewrite !(filter_all_same "missing_price") in * by exact Hmissing.
    cbn [Clob.tokens_priced_ok Clob.tokens_missing_price Clob.api_errors] in *.
    rewrite length_map in *.
    repeat (destruct (decide _) in *; try congruence). lia.
Qed.

Lemma X2_witness :
  ∃ results st,
    Clob.fetch_all_prices scenario_pricing "" scenario_tokens 5 (-1) None
    = Ok (results, [], st)
    ∧ Clob.tokens_missing_price st = 4.
Proof.
  destruct (X2_negative_batch_size_prices_nothing scenario_pricing ""
              scenario_tokens 5 (-1) None)
    as (results & st & Hret & _ & _ & _ & Hm & _).
  - lia.
  - lia.
  - exists results, st. split; [exact Hret|exact Hm].
Defined.

(** ** [ClobClient.fetch_all_prices]: the collecting loop and the order of
    completion *)

Lemma enumerate_fst {A} (l : list A) :
  (Clob.enumerate l).*1 = seq 0 (length l).
Proof.
  unfold Clob.enumerate. rewrite fmap_imap.
  rewrite (imap_ext _ (λ i _, i)) by done.
  rewrite imap_seq_0. apply list_fmap_id.
Qed.

Lemma futures_fst {A} (key : nat * A → nat) (l : list A) :
  (Clob.as_completed key (Clob.enumerate l)).*1 ≡ₚ seq 0 (length l).
Proof. now rewrite as_completed_perm, enumerate_fst. Qed.

Lemma collect_raws E c future :
  Clob.all_raw_responses (Clob.collect E c future)
  = Clob.all_raw_responses c ++ option_list (raw_of E future.1).
Proof.
  unfold Clob.collect, raw_of.
  destruct (Clob._fetch_batch E future.1) as [[[n d] status]|e]; cbn;
    [|now rewrite app_nil_r].
  destruct (status =? 200); cbn.
  - destruct d as [[|entry entries]|[|]]; reflexivity.
  - reflexivity.
Qed.

Lemma foldl_collect_raws E futures c :
  Clob.all_raw_responses (foldl (Clob.collect E) c futures)
  = Clob.all_raw_responses c ++ omap (raw_of E) futures.*1.
Proof.
  revert c. induction futures as [|f futures IH]; intros c; cbn [foldl].
  - cbn. now rewrite app_nil_r.
  - rewrite IH, collect_raws, <- app_assoc. f_equal.
    cbn. destruct (raw_of E f.1); reflexivity.
Qed.

Lemma omap_length_le {A B} (f : A → option B) (l : list A) :
  (length (omap f l) ≤ length l)%nat.
Proof.
  induction l as [|x l IH]; cbn; [lia|]. destruct (f x); cbn; lia.
Qed.

Lemma run_batches_raws E batches :
  Clob.all_raw_responses (Clob.run_batches E batches)
  ≡ₚ omap (raw_of E) (seq 0 (length batches)).
Proof.
  unfold Clob.run_batches. rewrite foldl_collect_raws. cbn [app].
  cbn [Clob.all_raw_responses app]. now rewrite futures_fst.
Qed.

(** X5: the raw responses returned by fetch_all_prices are, up to the
    order of completion, exactly one record for every batch whose worker
    returned, with the batch's number and the status and data it got; a
    batch whose worker raised leaves no record, so there are at most as
    many records as batches and no batch number occurs twice. *)
Theorem X5_raw_responses_per_batch (E : Clob.env) (clock : string)
    (tokens : list TokenOutcome.t) (concurrency batch_size : Z)
    (snapshot_ts : option string) (results : list PriceResult.t)
    (raws : list Clob.raw_response) (st : Clob.stats) :
  Clob.fetch_all_prices E clock tokens concurrency batch_size snapshot_ts
  = Ok (results, raws, st) →
  let batches := batches_of tokens batch_size in
  raws ≡ₚ omap (raw_of E) (seq 0 (length batches))
  ∧ (length raws ≤ length batches)%nat
  ∧ NoDup (map Clob.raw_batch_num raws)
  ∧ ∀ r, r ∈ raws →
      Clob._fetch_batch E (Clob.raw_batch_num r)
      = Ok (Clob.raw_batch_num r, Clob.raw_data r, Clob.raw_status r).
Proof.
  intros Hret. cbn zeta.
  destruct (fetch_all_prices_ok _ _ _ _ _ _ _ _ _ Hret) as (_ & _ & -> & _).
  unfold collected.
  set (batches := batches_of tokens batch_size).
  pose proof (run_batches_raws E batches) as Hperm.
  assert (Hnum : ∀ i r, raw_of E i = Some r →
            Clob.raw_batch_num r = i
            ∧ Clob._fetch_batch E i = Ok (i, Clob.raw_data r, Clob.raw_status r)).
  { intros i r. unfold raw_of, Clob._fetch_batch.
    destruct (Clob._request_with_retry E i) as [[d status]|e]; cbn;
      [|discriminate].
    intros [= <-]. split; reflexivity. }
  split; [exact Hperm|]. split; [|split].
  - rewrite Hperm. etrans; [apply omap_length_le|]. now rewrite length_seq.
  - rewrite Hperm. clear Hperm.
    assert (Hgen : ∀ l, NoDup l →
              NoDup (map Clob.raw_batch_num (omap (raw_of E) l))).
    { induction 1 as [|i l Hi Hl IH]; cbn; [constructor|].
      destruct (raw_of E i) as [r|] eqn:Hr; [|exact IH].
      cbn. constructor; [|exact IH].
      destruct (Hnum _ _ Hr) as [-> _].
      intros Hin. apply Hi.
      apply list_elem_of_fmap in Hin. destruct Hin as (r' & Heq & Hin).
      apply list_elem_of_omap in Hin. destruct Hin as (j & Hj & Hr').
      destruct (Hnum _ _ Hr') as [Hnum' _]. congruence. }
    apply Hgen, NoDup_seq.
  - intros r Hr. rewrite Hperm in Hr.
    apply list_elem_of_omap in Hr. destruct Hr as (i & _ & Hi).
    destruct (Hnum _ _ Hi) as [-> H]. exact H.
Qed.

Lemma X5_witness :
  ∃ raws,
    raws ≡ₚ omap (raw_of split_env)
              (seq 0 (length (batches_of [token "t1"] 1)))
    ∧ (length raws ≤ 2)%nat.
Proof.
  destruct (Clob.fetch_all_prices split_env "" [token "t1"] 5 1 None)
    as [[[results raws] st]|e] eqn:Hrun; [|vm_compute in Hrun; discriminate].
  destruct (X5_raw_responses_per_batch split_env "" [token "t1"] 5 1 None
              results raws st Hrun) as (Hperm & Hlen & _).
  exists raws. split; [exact Hperm|exact Hlen].
Defined.

Lemma compute_status_api_error c token_id bid ask :
  Clob.compute_status c token_id bid ask = "api_error"
  ↔ token_id ∈ Clob.api_error_tokens c.
Proof.
  unfold Clob.compute_status.
  destruct (decide (token_id ∈ Clob.api_error_tokens c)); [tauto|].
  destruct (negb (nonempty bid) && negb (nonempty ask)); split;
    intros; done.
Qed.

Lemma api_error_tokens_order serve t1 t2 batches :
  Clob.api_error_tokens (Clob.run_batches (Clob.mk_env serve t1) batches)
  = Clob.api_error_tokens (Clob.run_batches (Clob.mk_env serve t2) batches).
Proof.
  apply set_eq. intros token_id. rewrite !api_error_tokens_spec. reflexivity.
Qed.

(** X6: which tokens are marked api_error does not depend on the order in
    which the batches complete: for the same answers of the pricing
    service, the set of marked tokens after the join is the same for any
    two completion orders, and so is, token by token, whether the result
    has status api_error. *)
Theorem X6_api_errors_ignore_completion_order
    (serve : nat → nat → attempt_outcome Clob.data)
    (t1 t2 : nat → nat) (clock : string) (tokens : list TokenOutcome.t)
    (concurrency batch_size : Z) (snapshot_ts : option string)
    (results1 results2 : list PriceResult.t)
    (raws1 raws2 : list Clob.raw_response) (st1 st2 : Clob.stats) :
  Clob.fetch_all_prices (Clob.mk_env serve t1) clock tokens concurrency
    batch_size snapshot_ts = Ok (results1, raws1, st1) →
  Clob.fetch_all_prices (Clob.mk_env serve t2) clock tokens concurrency
    batch_size snapshot_ts = Ok (results2, raws2, st2) →
  Clob.api_error_tokens (collected (Clob.mk_env serve t1) tokens batch_size)
  = Clob.api_error_tokens (collected (Clob.mk_env serve t2) tokens batch_size)
  ∧ Forall2
      (λ r1 r2,
         PriceResult.token_id r1 = PriceResult.token_id r2
         ∧ (PriceResult.status r1 = "api_error"
            ↔ PriceResult.status r2 = "api_error"))
      results1 results2.
Proof.
  intros Hret1 Hret2.
  pose proof (api_error_tokens_order serve t1 t2
                (batches_of tokens batch_size)) as Hset.
  split; [exact Hset|].
  destruct (fetch_all_prices_ok _ _ _ _ _ _ _ _ _ Hret1) as (_ & _ & _ & H1).
  destruct (fetch_all_prices_ok _ _ _ _ _ _ _ _ _ Hret2) as (_ & _ & _ & H2).
  unfold collected in *.
  clear Hret1 Hret2.
  set (c1 := Clob.run_batches (Clob.mk_env serve t1) _) in *.
  set (c2 := Clob.run_batches (Clob.mk_env serve t2) _) in *.
  clearbody c1 c2. revert results2 H2.
  induction H1 as [|token r1 tokens' rs1 Hr1 _ IH]; intros results2 H2.
  - inversion H2. constructor.
  - inversion H2 as [|? r2 ? rs2 Hr2 Hrest]; subst. constructor; [|now apply IH].
    destruct (price_result_ok _ _ _ _ Hr1)
      as (Hid1 & _ & _ & _ & _ & _ & _ & Hs1).
    destruct (price_result_ok _ _ _ _ Hr2)
      as (Hid2 & _ & _ & _ & _ & _ & _ & Hs2).
    split; [congruence|].
    rewrite Hs1, Hs2, !compute_status_api_error, Hset. reflexivity.
Qed.

Lemma X6_witness :
  Clob.api_error_tokens
    (collected (Clob.mk_env (Clob.server split_env) (λ i, i)) [token "t1"] 1)
  = Clob.api_error_tokens
      (collected (Clob.mk_env (Clob.server split_env) reversed)
         [token "t1"] 1).
Proof.
  destruct (Clob.fetch_all_prices
              (Clob.mk_env (Clob.server split_env) (λ i, i)) ""
              [token "t1"] 5 1 None)
    as [[[results1 raws1] st1]|e] eqn:Hrun1;
    [|vm_compute in Hrun1; discriminate].
  destruct (Clob.fetch_all_prices
              (Clob.mk_env (Clob.server split_env) reversed) ""
              [token "t1"] 5 1 None)
    as [[[results2 raws2] st2]|e] eqn:Hrun2;
    [|vm_compute in Hrun2; discriminate].
  exact (proj1 (X6_api_errors_ignore_completion_order _ _ _ _ _ _ _ _
                  _ _ _ _ _ _ Hrun1 Hrun2)).
Defined.

Lemma merge_data_skip entries prices token_id :
  token_id ∉ dict_keys entries →
  Clob.merge_data entries prices !! token_id = prices !! token_id.
Proof.
  unfold Clob.merge_data. revert prices.
  induction entries as [|[k v] entries IH]; intros prices Hnot; cbn;
    [reflexivity|].
  destruct v as [es|]; cbn in *.
  - rewrite IH by (intros H; apply Hnot; now right).
    apply lookup_insert_ne. intros ->. apply Hnot. left.
  - now apply IH.
Qed.

Lemma merge_data_local entries prices prices' token_id :
  prices !! token_id = prices' !! token_id →
  Clob.merge_data entries prices !! token_id
  = Clob.merge_data entries prices' !! token_id.
Proof.
  unfold Clob.merge_data. revert prices prices'.
  induction entries as [|[k v] entries IH]; intros prices prices' Heq; cbn;
    [exact Heq|].
  apply IH. destruct v as [es|]; cbn; [|exact Heq].
  destruct (decide (k = token_id)) as [->|Hne].
  - rewrite !lookup_insert_eq, Heq. reflexivity.
  - now rewrite !lookup_insert_ne.
Qed.

Lemma merge_data_commute es1 es2 prices :
  (∀ token_id, token_id ∈ dict_keys es1 → token_id ∉ dict_keys es2) →
  Clob.merge_data es1 (Clob.merge_data es2 prices)
  = Clob.merge_data es2 (Clob.merge_data es1 prices).
Proof.
  intros Hdisj. apply map_eq. intros token_id.
  destruct (decide (token_id ∈ dict_keys es1)) as [Hin|Hout].
  - rewrite (merge_data_skip es2 (Clob.merge_data es1 prices))
      by now apply Hdisj.
    apply merge_data_local, merge_data_skip. now apply Hdisj.
  - rewrite (merge_data_skip es1 (Clob.merge_data es2 prices)) by exact Hout.
    apply merge_data_local. symmetry. now apply merge_data_skip.
Qed.

Lemma foldl_as_foldr {A B} (f : A → B → A) (a : A) (l : list B) :
  foldl f a l = foldr (λ x acc, f acc x) a (reverse l).
Proof.
  revert a. induction l as [|x l IH]; intros a; [reflexivity|].
  cbn [foldl]. rewrite IH, reverse_cons, foldr_app. reflexivity.
Qed.

Lemma collect_same_prices E c c' future :
  same_prices c c' →
  same_prices (Clob.collect E c future) (Clob.collect E c' future).
Proof.
  intros [Hp He]. split.
  - now rewrite !collect_prices, Hp.
  - now rewrite !collect_errors, He.
Qed.

(** Completion order does not matter to the prices and marks when the
    batches deliver for different tokens. *)
Lemma foldl_collect_permutation E (n : nat) c
    (l1 l2 : list (nat * list Clob.request_item)) :
  deliveries_disjoint E n →
  NoDup l1.*1 → Forall (λ f, (f.1 < n)%nat) l1 →
  l1 ≡ₚ l2 →
  same_prices (foldl (Clob.collect E) c l1) (foldl (Clob.collect E) c l2).
Proof.
  intros Hdisj Hnodup Hbound Hperm. rewrite !foldl_as_foldr.
  assert (Hpre : PreOrder same_prices).
  { split.
    - intros x. split; reflexivity.
    - intros x y z [H1 H2] [H3 H4]. split; congruence. }
  assert (Hproper : ∀ f, Proper (same_prices ==> same_prices)
                           (λ acc, Clob.collect E acc f)).
  { intros f x y Hxy. now apply collect_same_prices. }
  apply (foldr_permutation same_prices (λ f acc, Clob.collect E acc f) c);
    [|etrans; [apply reverse_Permutation|];
      etrans; [exact Hperm|]; symmetry; apply reverse_Permutation].
  intros j1 f1 j2 f2 b Hne H1 H2.
  assert (Hidx : f1.1 ≠ f2.1).
  { intros Heq. apply Hne.
    assert (Hnd : NoDup (reverse l1).*1)
      by (rewrite fmap_reverse, reverse_Permutation; exact Hnodup).
    apply (NoDup_lookup _ _ _ f1.1 Hnd).
    - now rewrite list_lookup_fmap, H1.
    - now rewrite list_lookup_fmap, H2, Heq. }
  assert (Hin : ∀ j f, reverse l1 !! j = Some f → (f.1 < n)%nat).
  { intros j f Hj. rewrite Forall_forall in Hbound. apply Hbound.
    apply elem_of_reverse. eapply list_elem_of_lookup_2. exact Hj. }
  split.
  - rewrite !collect_prices. apply merge_data_commute.
    intros token_id. apply Hdisj; eauto.
  - rewrite !collect_errors. apply set_eq. intros token_id.
    rewrite !elem_of_union. tauto.
Qed.

Lemma run_batches_order serve t1 t2 batches :
  deliveries_disjoint (Clob.mk_env serve t1) (length batches) →
  same_prices (Clob.run_batches (Clob.mk_env serve t1) batches)
    (Clob.run_batches (Clob.mk_env serve t2) batches).
Proof.
  intros Hdisj. unfold Clob.run_batches.
  change (Clob.collect (Clob.mk_env serve t2))
    with (Clob.collect (Clob.mk_env serve t1)).
  apply (foldl_collect_permutation _ (length batches)); [exact Hdisj| | |].
  - rewrite futures_fst. apply NoDup_seq.
  - apply Forall_forall. intros [i b] Hin. apply elem_of_futures in Hin.
    cbn. now apply lookup_lt_Some in Hin.
  - now rewrite !as_completed_perm.
Qed.

Lemma build_results_same_prices ts c c' tokens acc st :
  same_prices c c' →
  Clob.build_results ts c tokens acc st
  = Clob.build_results ts c' tokens acc st.
Proof.
  intros [Hp He]. revert acc st.
  induction tokens as [|token tokens IH]; intros acc st; cbn; [reflexivity|].
  assert (Hpr : Clob.price_result ts c token = Clob.price_result ts c' token).
  { unfold Clob.price_result, Clob.compute_status. now rewrite Hp, He. }
  rewrite Hpr. destruct (Clob.price_result ts c' token); cbn;
    [apply IH|reflexivity].
Qed.

(** X7: when no token id is delivered by two different batches, the order
    in which the batches complete changes nothing but the order of the raw
    responses: for the same answers of the pricing service two completion
    orders give the same results and counters, or raise the same error. *)
Theorem X7_results_ignore_completion_order
    (serve : nat → nat → attempt_outcome Clob.data)
    (t1 t2 : nat → nat) (clock : string) (tokens : list TokenOutcome.t)
    (concurrency batch_size : Z) (snapshot_ts : option string) :
  deliveries_disjoint (Clob.mk_env serve t1)
    (length (batches_of tokens batch_size)) →
  match
    Clob.fetch_all_prices (Clob.mk_env serve t1) clock tokens concurrency
      batch_size snapshot_ts,
    Clob.fetch_all_prices (Clob.mk_env serve t2) clock tokens concurrency
      batch_size snapshot_ts
  with
  | Ok (results1, raws1, st1), Ok (results2, raws2, st2) =>
      results1 = results2 ∧ st1 = st2 ∧ raws1 ≡ₚ raws2
  | Raise e1, Raise e2 => e1 = e2
  | _, _ => False
  end.
Proof.
  intros Hdisj. unfold Clob.fetch_all_prices. unfold batches_of in Hdisj.
  destruct (chunk_list (Clob.build_request_items tokens) batch_size)
    as [batches|e]; cbn; [|reflexivity].
  destruct (concurrency <=? 0); [reflexivity|].
  rewrite (build_results_same_prices _ _ _ _ _ _
             (run_batches_order serve t1 t2 batches Hdisj)).
  destruct (Clob.build_results _ _ _ _ _) as [[out st]|e]; cbn;
    [|reflexivity].
  split; [reflexivity|]. split; [reflexivity|].
  rewrite !run_batches_raws. reflexivity.
Qed.

Lemma X7_witness :
  match
    Clob.fetch_all_prices (Clob.mk_env (Clob.server split_env) (λ i, i)) ""
      [token "t1"; token "t2"] 5 2 None,
    Clob.fetch_all_prices (Clob.mk_env (Clob.server split_env) reversed) ""
      [token "t1"; token "t2"] 5 2 None
  with
  | Ok (results1, raws1, st1), Ok (results2, raws2, st2) =>
      results1 = results2 ∧ st1 = st2 ∧ raws1 ≡ₚ raws2
  | Raise e1, Raise e2 => e1 = e2
  | _, _ => False
  end.
Proof.
  apply (X7_results_ignore_completion_order (Clob.server split_env)
           (λ i, i) reversed "" [token "t1"; token "t2"] 5 2 None).
  intros i j token_id Hi Hj Hne Hin.
  change (length (batches_of [token "t1"; token "t2"] 2)) with 2%nat in Hi, Hj.
  destruct i as [|[|i]]; [|destruct j as [|[|j]]|]; try lia.
  - vm_compute in Hin. inversion Hin.
  - vm_compute. intros H. inversion H.
Defined.

(** ** The retry loops *)

Lemma clob_retry_result serve a r :
  match Clob.retry serve a r with
  | Ok (d, status) =>
      ((∀ k, (k < r)%nat → retried (serve (a + k)%nat))
       ∧ d = Clob.DataDict [] ∧ status = 0)
      ∨ ∃ k body,
          (k < r)%nat
          ∧ (∀ k', (k' < k)%nat → retried (serve (a + k')%nat))
          ∧ serve (a + k)%nat = Response status body
          ∧ status ≠ 429 ∧ status < 500
          ∧ (if status =? 200 then body = Some d else d = Clob.DataDict [])
  | Raise e =>
      ∃ k,
        (k < r)%nat
        ∧ (∀ k', (k' < k)%nat → retried (serve (a + k')%nat))
        ∧ (serve (a + k)%nat = Failure e
           ∨ (serve (a + k)%nat = Response 200 None ∧ e = JSONDecodeError))
  end.
Proof.
  revert a. induction r as [|r IH]; intros a; cbn [Clob.retry].
  { left. split; [intros k Hk; lia|]. split; reflexivity. }
  assert (Hshift : ∀ k, (S a + k = a + S k)%nat) by (intros; lia).
  assert (Hnext : retried (serve a) →
    match Clob.retry serve (S a) r with
    | Ok (d, status) =>
        ((∀ k, (k < S r)%nat → retried (serve (a + k)%nat))
         ∧ d = Clob.DataDict [] ∧ status = 0)
        ∨ ∃ k body,
            (k < S r)%nat
            ∧ (∀ k', (k' < k)%nat → retried (serve (a + k')%nat))
            ∧ serve (a + k)%nat = Response status body
            ∧ status ≠ 429 ∧ status < 500
            ∧ (if status =? 200 then body = Some d else d = Clob.DataDict [])
    | Raise e =>
        ∃ k,
          (k < S r)%nat
          ∧ (∀ k', (k' < k)%nat → retried (serve (a + k')%nat))
          ∧ (serve (a + k)%nat = Failure e
             ∨ (serve (a + k)%nat = Response 200 None ∧ e = JSONDecodeError))
    end).
  { intros Hretried. specialize (IH (S a)).
    assert (Hprefix : ∀ k, (∀ k', (k' < k)%nat → retried (serve (S a + k')%nat)) →
              ∀ k', (k' < S k)%nat → retried (serve (a + k')%nat)).
    { intros k Hk [|k'] Hlt; [now rewrite Nat.add_0_r|].
      rewrite <- Hshift. apply Hk. lia. }
    destruct (Clob.retry serve (S a) r) as [[d status]|e].
    - destruct IH as [(Hall & -> & ->) | (k & body & Hk & Hbefore & Hat & Hrest)].
      + left. split; [now apply Hprefix|]. split; reflexivity.
      + right. exists (S k), body. rewrite <- Hshift.
        split; [lia|]. split; [now apply Hprefix|]. split; assumption.
    - destruct IH as (k & Hk & Hbefore & Hat).
      exists (S k). rewrite <- Hshift.
      split; [lia|]. split; [now apply Hprefix|]. exact Hat. }
  assert (Hfirst : ∀ k', (k' < 0)%nat → retried (serve (a + k')%nat))
    by (intros k' Hlt; lia).
  destruct (serve a) as [status body| |e] eqn:Hserve.
  - destruct (Z.eqb_spec status 429) as [H429|H429];
      [apply Hnext; now left|].
    destruct (Z.leb_spec 500 status) as [H500|H500];
      [apply Hnext; now right|].
    destruct (Z.eqb_spec status 200) as [->|H200].
    + destruct body as [d|].
      * right. exists 0%nat, (Some d). rewrite Nat.add_0_r.
        repeat split; try assumption; lia.
      * exists 0%nat. rewrite Nat.add_0_r.
        split; [lia|]. split; [assumption|]. right. split; [assumption|reflexivity].
    + right. exists 0%nat, body. rewrite Nat.add_0_r.
      split; [lia|]. split; [assumption|]. split; [assumption|].
      split; [assumption|]. split; [assumption|].
      destruct (Z.eqb_spec status 200); [contradiction|reflexivity].
  - apply Hnext. exact I.
  - exists 0%nat. rewrite Nat.add_0_r.
    split; [lia|]. split; [assumption|]. now left.
Qed.

(** X8: what a [POST /prices] request with retries can give.  It returns
    the empty dict with status 0 when each of the three attempts was
    rate limited, a server error or a transport error; otherwise the first
    attempt that is none of these decides: its status is returned, never
    429 or 5xx, with its decoded body when the status is 200 and the empty
    dict otherwise.  It raises only what that attempt raises: an error that
    is not a transport error, or the JSON error of a 200 response whose
    body does not decode. *)
Theorem X8_clob_request_with_retry_result (E : Clob.env) (batch_num : nat) :
  match Clob._request_with_retry E batch_num with
  | Ok (d, status) =>
      (exhausted E batch_num ∧ d = Clob.DataDict [] ∧ status = 0)
      ∨ ∃ k body,
          (k < MAX_RETRIES)%nat
          ∧ (∀ k', (k' < k)%nat → retried (Clob.server E batch_num k'))
          ∧ Clob.server E batch_num k = Response status body
          ∧ status ≠ 429 ∧ status < 500
          ∧ (if status =? 200 then body = Some d else d = Clob.DataDict [])
  | Raise e =>
      ∃ k,
        (k < MAX_RETRIES)%nat
        ∧ (∀ k', (k' < k)%nat → retried (Clob.server E batch_num k'))
        ∧ (Clob.server E batch_num k = Failure e
           ∨ (Clob.server E batch_num k = Response 200 None
              ∧ e = JSONDecodeError))
  end.
Proof.
  unfold Clob._request_with_retry, exhausted.
  exact (clob_retry_result (Clob.server E batch_num) 0 MAX_RETRIES).
Qed.

Lemma gamma_retry_result serve a r last_error :
  match Gamma.retry serve a r last_error with
  | Ok b =>
      ∃ k status,
        (k < r)%nat
        ∧ (∀ k', (k' < k)%nat → retried_page (serve (a + k')%nat))
        ∧ serve (a + k)%nat = Response status b
        ∧ 200 ≤ status ≤ 299
  | Raise e =>
      ((∀ k, (k < r)%nat → retried_page (serve (a + k)%nat))
       ∧ (((∃ k, (k < r)%nat ∧ serve (a + k)%nat = TransportError)
           ∧ e = RequestError)
          ∨ ((∀ k, (k < r)%nat → serve (a + k)%nat ≠ TransportError)
             ∧ e = default RuntimeError last_error)))
      ∨ ∃ k,
          (k < r)%nat
          ∧ (∀ k', (k' < k)%nat → retried_page (serve (a + k')%nat))
          ∧ (serve (a + k)%nat = Failure e
             ∨ ∃ status b,
                 serve (a + k)%nat = Response status b
                 ∧ status ≠ 429 ∧ status < 500
                 ∧ ¬ 200 ≤ status ≤ 299
                 ∧ e = HTTPStatusError)
  end.
Proof.
  revert a last_error. induction r as [|r IH]; intros a last_error;
    cbn [Gamma.retry].
  { left. split; [intros k Hk; lia|]. right.
    split; [intros k Hk; lia|reflexivity]. }
  assert (Hshift : ∀ k, (S a + k = a + S k)%nat) by (intros; lia).
  assert (Hprefix : ∀ k, retried_page (serve a) →
            (∀ k', (k' < k)%nat → retried_page (serve (S a + k')%nat)) →
            ∀ k', (k' < S k)%nat → retried_page (serve (a + k')%nat)).
  { intros k H0 Hk [|k'] Hlt; [now rewrite Nat.add_0_r|].
    rewrite <- Hshift. apply Hk. lia. }
  assert (Hnext : ∀ last', retried_page (serve a) →
    (serve a = TransportError ∧ last' = Some RequestError
     ∨ serve a ≠ TransportError ∧ last' = last_error) →
    match Gamma.retry serve (S a) r last' with
    | Ok b =>
        ∃ k status,
          (k < S r)%nat
          ∧ (∀ k', (k' < k)%nat → retried_page (serve (a + k')%nat))
          ∧ serve (a + k)%nat = Response status b
          ∧ 200 ≤ status ≤ 299
    | Raise e =>
        ((∀ k, (k < S r)%nat → retried_page (serve (a + k)%nat))
         ∧ (((∃ k, (k < S r)%nat ∧ serve (a + k)%nat = TransportError)
             ∧ e = RequestError)
            ∨ ((∀ k, (k < S r)%nat → serve (a + k)%nat ≠ TransportError)
               ∧ e = default RuntimeError last_error)))
        ∨ ∃ k,
            (k < S r)%nat
            ∧ (∀ k', (k' < k)%nat → retried_page (serve (a + k')%nat))
            ∧ (serve (a + k)%nat = Failure e
               ∨ ∃ status b,
                   serve (a + k)%nat = Response status b
                   ∧ status ≠ 429 ∧ status < 500
                   ∧ ¬ 200 ≤ status ≤ 299
                   ∧ e = HTTPStatusError)
    end).
  { intros last' Hretried Hlast. specialize (IH (S a) last').
    destruct (Gamma.retry serve (S a) r last') as [b|e].
    - destruct IH as (k & status & Hk & Hbefore & Hat & Hok).
      exists (S k), status. rewrite <- Hshift.
      split; [lia|]. split; [now apply Hprefix|]. split; assumption.
    - destruct IH as [(Hall & Hwhich) | (k & Hk & Hbefore & Hat)].
      + left. split; [now apply Hprefix|].
        destruct Hwhich as [((k & Hk & Hat) & ->) | (Hnone & ->)].
        * left. split; [|reflexivity]. exists (S k). rewrite <- Hshift.
          split; [lia|assumption].
        * destruct Hlast as [(Htr & ->) | (Hntr & ->)].
          -- left. split; [|reflexivity]. exists 0%nat. rewrite Nat.add_0_r.
             split; [lia|assumption].
          -- right. split; [|reflexivity]. intros [|k] Hk.
             ++ now rewrite Nat.add_0_r.
             ++ rewrite <- Hshift. apply Hnone. lia.
      + right. exists (S k). rewrite <- Hshift.
        split; [lia|]. split; [now apply Hprefix|]. exact Hat. }
  assert (Hfirst : ∀ k', (k' < 0)%nat → retried_page (serve (a + k')%nat))
    by (intros k' Hlt; lia).
  destruct (serve a) as [status b| |e] eqn:Hserve.
  - destruct (Z.eqb_spec status 429) as [H429|H429];
      [apply Hnext; [now left|right; split; [discriminate|reflexivity]]|].
    destruct (Z.leb_spec 500 status) as [H500|H500];
      [apply Hnext; [now right|right; split; [discriminate|reflexivity]]|].
    unfold Gamma.is_success.
    destruct (Z.leb_spec 200 status), (Z.leb_spec status 299); cbn.
    + exists 0%nat, status. rewrite Nat.add_0_r.
      split; [lia|]. split; [assumption|]. split; [assumption|lia].
    + right. exists 0%nat. rewrite Nat.add_0_r.
      split; [lia|]. split; [assumption|]. right. exists status, b.
      repeat split; try assumption; lia.
    + right. exists 0%nat. rewrite Nat.add_0_r.
      split; [lia|]. split; [assumption|]. right. exists status, b.
      repeat split; try assumption; lia.
    + right. exists 0%nat. rewrite Nat.add_0_r.
      split; [lia|]. split; [assumption|]. right. exists status, b.
      repeat split; try assumption; lia.
  - apply Hnext; [exact I|]. left. split; reflexivity.
  - right. exists 0%nat. rewrite Nat.add_0_r.
    split; [lia|]. split; [assumption|]. now left.
Qed.

(** X9: what a catalog request with retries can give.  It returns the
    response of the first attempt that is not rate limited, a server error
    or a transport error, when that response is a 2xx.  It raises the HTTP
    status error when that response is not a 2xx, and whatever else that
    attempt raises; when all three attempts were repeated it raises the
    transport error if there was one among them and the runtime error
    [Max retries exceeded] otherwise. *)
Theorem X9_gamma_request_with_retry_result (E : Gamma.env)
    (p : Gamma.params) (page_num : nat) :
  match Gamma._request_with_retry E p page_num with
  | Ok b =>
      ∃ k status,
        (k < MAX_RETRIES)%nat
        ∧ (∀ k', (k' < k)%nat → retried_page (E p page_num k'))
        ∧ E p page_num k = Response status b
        ∧ 200 ≤ status ≤ 299
  | Raise e =>
      ((∀ k, (k < MAX_RETRIES)%nat → retried_page (E p page_num k))
       ∧ (((∃ k, (k < MAX_RETRIES)%nat ∧ E p page_num k = TransportError)
           ∧ e = RequestError)
          ∨ ((∀ k, (k < MAX_RETRIES)%nat → E p page_num k ≠ TransportError)
             ∧ e = RuntimeError)))
      ∨ ∃ k,
          (k < MAX_RETRIES)%nat
          ∧ (∀ k', (k' < k)%nat → retried_page (E p page_num k'))
          ∧ (E p page_num k = Failure e
             ∨ ∃ status b,
                 E p page_num k = Response status b
                 ∧ status ≠ 429 ∧ status < 500
                 ∧ ¬ 200 ≤ status ≤ 299
                 ∧ e = HTTPStatusError)
  end.
Proof.
  unfold Gamma._request_with_retry.
  exact (gamma_retry_result (E p page_num) 0 MAX_RETRIES None).
Qed.

(** ** Token extraction *)

Lemma token_outcomes_paired market pre outcomes token_ids :
  length outcomes = length token_ids →
  map token_label
    (concat (imap (λ i, Runner.token_outcome market (pre ++ outcomes)
                          (length pre + i)) token_ids))
  = paired token_ids outcomes.
Proof.
  unfold paired. revert pre outcomes.
  induction token_ids as [|token_id token_ids IH];
    intros pre [|o outcomes] Hlen; try discriminate; [reflexivity|].
  cbn [imap concat zip zip_with]. rewrite map_app, filter_cons. cbn [fst].
  assert (Hrest :
    map token_label
      (concat (imap ((λ i, Runner.token_outcome market (pre ++ o :: outcomes)
                             (length pre + i)) ∘ S) token_ids))
    = map (λ p, (py_str p.1, py_str p.2))
        (filter (λ p, truthy p.1 = true) (zip token_ids outcomes))).
  { rewrite <- (IH (pre ++ [o]) outcomes) by (cbn in Hlen; lia).
    f_equal. f_equal. apply imap_ext. intros i x _. cbn.
    rewrite <- app_assoc, length_app. cbn. f_equal. lia. }
  rewrite Hrest. unfold Runner.token_outcome at 1.
  rewrite Nat.add_0_r, lookup_app_r, Nat.sub_diag by lia. cbn [lookup].
  destruct (truthy token_id) eqn:Htruthy.
  - rewrite decide_True by reflexivity. reflexivity.
  - rewrite decide_False by discriminate. reflexivity.
Qed.

Lemma token_outcomes_market market outcomes token_ids f :
  Forall (λ t, TokenOutcome.market_id t
               = py_str (Runner.get_or (SStr "") (Gamma.id market)))
    (concat (imap (λ i, Runner.token_outcome market outcomes (f i))
               token_ids)).
Proof.
  revert f. induction token_ids as [|token_id token_ids IH]; intros f;
    cbn [imap concat]; [constructor|].
  apply Forall_app. split; [|apply (IH (f ∘ S))].
  unfold Runner.token_outcome. destruct (truthy token_id); repeat constructor.
Qed.

(** X10: the tokens extracted from a market are the token ids that are
    not falsy, in their order and as strings, each with the outcome label
    at its own position in the equally long list of outcomes (a skipped
    token id does not shift the labels, and the code's fallback to an
    empty label is never taken); there is at least one, and each carries
    the market's id. *)
Theorem X10_token_outcomes_paired_by_position (market : Gamma.market)
    (tokens : list TokenOutcome.t) :
  Runner.extract_token_outcomes market = Some tokens →
  ∃ outcomes token_ids,
    Gamma._outcomes_parsed market = Some outcomes
    ∧ Gamma._clobTokenIds_parsed market = Some token_ids
    ∧ length outcomes = length token_ids
    ∧ tokens ≠ []
    ∧ map token_label tokens = paired token_ids outcomes
    ∧ Forall (λ t, TokenOutcome.market_id t
                   = py_str (Runner.get_or (SStr "") (Gamma.id market)))
        tokens.
Proof.
  unfold Runner.extract_token_outcomes. intros H.
  destruct (Gamma._outcomes_parsed market) as [outcomes|];
    [|discriminate].
  destruct (Gamma._clobTokenIds_parsed market) as [token_ids|];
    [|destruct (Runner.missing (Some outcomes)); discriminate].
  destruct (Runner.missing (Some outcomes) || Runner.missing (Some token_ids));
    [discriminate|].
  cbn [default id] in H.
  destruct (Nat.eqb_spec (length outcomes) (length token_ids)) as [Hlen|];
    [|cbn in H; discriminate].
  cbn [negb] in H.
  exists outcomes, token_ids.
  split; [reflexivity|]. split; [reflexivity|]. split; [exact Hlen|].
  pose proof (token_outcomes_paired market [] outcomes token_ids Hlen) as Hp.
  pose proof (token_outcomes_market market outcomes token_ids (λ i, i)) as Hm.
  cbn in Hp.
  destruct (concat (imap (Runner.token_outcome market outcomes) token_ids))
    as [|t ts] eqn:Hc; [discriminate|].
  cbn in H. injection H as <-. split; [discriminate|]. split; assumption.
Qed.

Lemma X10_witness :
  ∃ outcomes token_ids,
    Gamma._outcomes_parsed half_listed_market = Some outcomes
    ∧ Gamma._clobTokenIds_parsed half_listed_market = Some token_ids
    ∧ length outcomes = length token_ids
    ∧ [TokenOutcome.mk "t2" "No" "m4" "" "" SNone SNone SNone] ≠ []
    ∧ map token_label [TokenOutcome.mk "t2" "No" "m4" "" "" SNone SNone SNone]
      = paired token_ids outcomes
    ∧ Forall (λ t, TokenOutcome.market_id t
                   = py_str (Runner.get_or (SStr "")
                               (Gamma.id half_listed_market)))
        [TokenOutcome.mk "t2" "No" "m4" "" "" SNone SNone SNone].
Proof.
  apply (X10_token_outcomes_paired_by_position half_listed_market).
  vm_compute. reflexivity.
Defined.

(** ** The run *)

Lemma series_loop_pricing cfg E P ids k raw_events :
  Runner.series_loop cfg (with_pricing E P) ids k raw_events
  = Runner.series_loop cfg E ids k raw_events.
Proof.
  revert k raw_events. induction ids as [|sid ids IH]; intros k raw_events;
    cbn; [reflexivity|].
  destruct (Gamma.fetch_all_events _ _ _ _ _ _ _ _) as [rs [events|e]]; cbn;
    [|reflexivity].
  now rewrite IH.
Qed.

Lemma fetch_catalog_pricing cfg E P :
  Runner.fetch_catalog cfg (with_pricing E P) = Runner.fetch_catalog cfg E.
Proof.
  unfold Runner.fetch_catalog.
  destruct (Runner.sports_series_ids cfg) as [[|sid ids]|];
    [reflexivity| |reflexivity].
  apply series_loop_pricing.
Qed.

(** X12: a dry run never consults the pricing service: its trace and its
    outcome are the same whatever that service would answer.  When it
    returns, it has written three files, the raw events, the markets and
    the manifest, in this order; the manifest written is the one returned,
    its price counters and its count of batches are zero, and it indexes
    the two other files only. *)
Theorem X12_dry_run_never_prices (cfg : Runner.config) (E : Runner.env)
    (P : Clob.env) :
  Runner.dry_run cfg = true →
  Runner.run_fetch cfg (with_pricing E P) = Runner.run_fetch cfg E
  ∧ ∀ t m, Runner.run_fetch cfg E = (t, Ok m) →
      (∃ events records,
         map Runner.content (Runner.writes t)
         = [Runner.RawGamma events; Runner.MarketsCsv records;
            Runner.ManifestJson m])
      ∧ RunManifest.tokens_priced_ok m = 0
      ∧ RunManifest.tokens_missing_price m = 0
      ∧ RunManifest.api_errors m = 0
      ∧ RunManifest.price_batches m = 0
      ∧ map fst (RunManifest.files m) = ["raw_gamma"; "markets_csv"]
      ∧ map snd (RunManifest.files m)
        = take 2 (map Runner.path (Runner.writes t)).
Proof.
  intros Hdry. unfold Runner.run_fetch.
  rewrite fetch_catalog_pricing, Hdry. cbn [Runner.today Runner.pulled_at
    Runner.start_ts Runner.end_ts with_pricing].
  split.
  - destruct (negb _); [reflexivity|].
    destruct (Runner.fetch_catalog cfg E) as [[cs rs] [events|e]];
      reflexivity.
  - intros t m. destruct (negb _); [discriminate|].
    destruct (Runner.fetch_catalog cfg E) as [[cs rs] [events|e]];
      [|discriminate].
    destruct (Runner.extract cfg (Runner.pulled_at E) events) as [ex|e];
      [|discriminate].
    intros [= <- <-]. cbn.
    split; [eexists _, _; reflexivity|]. repeat split; reflexivity.
Qed.

Lemma X12_witness :
  Runner.run_fetch dry_config (with_pricing scenario_env split_env)
  = Runner.run_fetch dry_config scenario_env.
Proof.
  exact (proj1 (X12_dry_run_never_prices dry_config scenario_env split_env
                  eq_refl)).
Defined.

Lemma fetch_all_prices_total E clock tokens concurrency batch_size ts
    results raws st :
  Clob.fetch_all_prices E clock tokens concurrency batch_size ts
  = Ok (results, raws, st) →
  Clob.tokens_priced_ok st + Clob.tokens_missing_price st + Clob.api_errors st
  = Z.of_nat (length tokens)
  ∧ 0 ≤ Clob.tokens_priced_ok st ∧ 0 ≤ Clob.tokens_missing_price st
  ∧ 0 ≤ Clob.api_errors st.
Proof.
  intros Hret.
  destruct (fetch_all_prices_stats _ _ _ _ _ _ _ _ _ Hret)
    as (Hin & Hlen & ->).
  assert (Hstat : Forall (λ s, s ∈ ["ok"; "missing_price"; "api_error"])
                    (map PriceResult.status results))
    by (apply Forall_fmap; exact Hin).
  destruct (count_tally _ (Clob.mk_stats 0 0 0) Hstat) as (Hok & Hmiss & Herr).
  cbn zeta in *. cbn [Clob.tokens_priced_ok Clob.tokens_missing_price
                      Clob.api_errors] in *.
  rewrite Hok, Hmiss, Herr, <- Hlen.
  split; [|lia]. clear -Hin. rewrite !filter_status_map.
  induction Hin as [|r results Hr Hin IH]; [reflexivity|].
  rewrite !filter_cons. cbn [length].
  repeat (apply elem_of_cons in Hr; destruct Hr as [Hr | Hr]);
    [| | |now apply elem_of_nil in Hr];
    rewrite Hr; repeat (destruct (decide _); try congruence); cbn; lia.
Qed.

(** X13: a run that prices accounts for every token in its manifest: when
    a run that is not a dry run returns, tokens_priced_ok,
    tokens_missing_price and api_errors are not negative and add up to
    tokens_total, and price_batches is the number of batch files the run
    wrote. *)
Theorem X13_manifest_accounts_for_tokens (cfg : Runner.config)
    (E : Runner.env) (t : Runner.trace) (m : RunManifest.t) :
  Runner.dry_run cfg = false →
  Runner.run_fetch cfg E = (t, Ok m) →
  RunManifest.tokens_priced_ok m + RunManifest.tokens_missing_price m
  + RunManifest.api_errors m = RunManifest.tokens_total m
  ∧ 0 ≤ RunManifest.tokens_priced_ok m
  ∧ 0 ≤ RunManifest.tokens_missing_price m
  ∧ 0 ≤ RunManifest.api_errors m
  ∧ RunManifest.price_batches m
    = Z.of_nat (length (omap (λ w, match Runner.content w with
                                   | Runner.ClobBatch r => Some r
                                   | _ => None
                                   end) (Runner.writes t))).
Proof.
  intros Hdry. unfold Runner.run_fetch. rewrite Hdry.
  destruct (negb _); [discriminate|].
  destruct (Runner.fetch_catalog cfg E) as [[cs rs] [events|e]];
    [|discriminate].
  destruct (Runner.extract cfg (Runner.pulled_at E) events) as [ex|e];
    [|discriminate].
  destruct (Runner.all_token_outcomes ex) as [|token tokens] eqn:Htokens.
  { intros [= <- <-]. cbn. rewrite Htokens. cbn. repeat split; lia. }
  destruct (Clob.fetch_all_prices _ _ _ _ _ _)
    as [[[results raws] st]|e] eqn:Hret; [|discriminate].
  intros [= <- <-]. cbn. rewrite Htokens.
  destruct (fetch_all_prices_total _ _ _ _ _ _ _ _ _ Hret)
    as (Hsum & Hok & Hmiss & Herr).
  split; [exact Hsum|]. split; [exact Hok|]. split; [exact Hmiss|].
  split; [exact Herr|].
  f_equal. rewrite omap_app. cbn. rewrite app_nil_r.
  clear. induction raws as [|r raws IH]; [reflexivity|].
  cbn. now rewrite <- IH.
Qed.

Lemma X13_witness :
  ∃ m, scenario_run.2 = Ok m
       ∧ RunManifest.tokens_priced_ok m + RunManifest.tokens_missing_price m
         + RunManifest.api_errors m = RunManifest.tokens_total m.
Proof.
  eexists. split; [reflexivity|].
  apply (X13_manifest_accounts_for_tokens scenario_config scenario_env
           scenario_run.1 _ eq_refl).
  vm_compute. reflexivity.
Defined.

(** ** The files of a run *)

Lemma number_of_app l1 l2 acc :
  number_of (l1 ++ l2) acc = number_of l2 (number_of l1 acc).
Proof.
  revert acc. induction l1 as [|c l1 IH]; intros acc; cbn; [reflexivity|].
  apply IH.
Qed.

Lemma digits_go_acc fuel : ∀ n acc,
  digits_go fuel n acc = digits_go fuel n [] ++ acc.
Proof.
  induction fuel as [|f IH]; intros n acc; cbn [digits_go]; [reflexivity|].
  destruct (n <? 10); [reflexivity|].
  rewrite IH, (IH _ [_]), <- app_assoc. reflexivity.
Qed.

Lemma digit_val_digit d :
  0 ≤ d < 10 → digit_val (ascii_of_N (Z.to_N (48 + d))) = d.
Proof.
  intros Hd. unfold digit_val, code.
  rewrite N_ascii_embedding by lia. lia.
Qed.

Lemma number_of_digits_go fuel : ∀ n,
  0 ≤ n < 10 ^ Z.of_nat (S fuel) →
  number_of (digits_go fuel n []) 0 = n.
Proof.
  induction fuel as [|f IH]; intros n Hn; cbn [digits_go].
  - cbn [number_of]. rewrite digit_val_digit by (apply Z.mod_pos_bound; lia).
    change (10 ^ Z.of_nat 1) with 10 in Hn. rewrite Z.mod_small; lia.
  - destruct (Z.ltb_spec n 10) as [Hlt|Hge].
    + cbn [number_of].
      rewrite digit_val_digit by (apply Z.mod_pos_bound; lia).
      rewrite Z.mod_small; lia.
    + rewrite digits_go_acc, number_of_app, IH.
      * cbn [number_of].
        rewrite digit_val_digit by (apply Z.mod_pos_bound; lia).
        pose proof (Z.div_mod n 10). lia.
      * split; [apply Z.div_pos; lia|].
        apply Z.div_lt_upper_bound; [lia|].
        replace (Z.of_nat (S (S f))) with (Z.succ (Z.of_nat (S f))) in Hn
          by lia.
        rewrite Z.pow_succ_r in Hn by lia. lia.
Qed.

Lemma number_of_digits n : 0 ≤ n → number_of (digits n) 0 = n.
Proof.
  intros Hn. unfold digits. apply number_of_digits_go.
  split; [exact Hn|].
  destruct (Z.eq_dec n 0) as [->|Hne]; [cbn; lia|].
  pose proof (Z.log2_spec n ltac:(lia)) as [_ Hlt].
  rewrite Nat2Z.inj_succ, Z2Nat.id by apply Z.log2_nonneg.
  eapply Z.lt_le_trans; [exact Hlt|].
  apply Z.pow_le_mono_l. lia.
Qed.

Lemma chars_text l : chars (text l) = l.
Proof. apply list_ascii_of_string_of_list_ascii. Qed.

Lemma number_of_zeros k : number_of (replicate k "0"%char) 0 = 0.
Proof. induction k as [|k IH]; [reflexivity|exact IH]. Qed.

Lemma pad4_inj a b : Runner.pad4 a = Runner.pad4 b → a = b.
Proof.
  intros Heq. apply (f_equal (λ s, number_of (chars s) 0)) in Heq.
  unfold Runner.pad4 in Heq. cbn zeta in Heq.
  rewrite !chars_text, !number_of_app, !number_of_zeros,
    !number_of_digits in Heq by lia.
  lia.
Qed.

Lemma chars_append a b : chars (String.append a b) = chars a ++ chars b.
Proof.
  unfold chars. induction a as [|c a IH]; [reflexivity|].
  change (String c a +:+ b) with (String c (a +:+ b)). cbn.
  f_equal. exact IH.
Qed.

Lemma chars_inj a b : chars a = chars b → a = b.
Proof.
  intros H. apply (f_equal text) in H. unfold text, chars in H.
  now rewrite !string_of_list_ascii_of_string in H.
Qed.

Lemma path_key_below base p rest :
  chars p = chars base ++ rest → path_key base p = take 9 rest.
Proof.
  intros H. unfold path_key. now rewrite H, drop_app_length.
Qed.

Lemma raws_batch_nums E clock tokens concurrency batch_size ts
    results raws st :
  Clob.fetch_all_prices E clock tokens concurrency batch_size ts
  = Ok (results, raws, st) →
  NoDup (map Clob.raw_batch_num raws).
Proof.
  intros Hret.
  destruct (fetch_all_prices_ok _ _ _ _ _ _ _ _ _ Hret) as (_ & _ & -> & _).
  unfold collected. rewrite run_batches_raws.
  assert (Hnum : ∀ i r, raw_of E i = Some r → Clob.raw_batch_num r = i).
  { intros i r. unfold raw_of.
    destruct (Clob._fetch_batch E i) as [[[n d] status]|e];
      [|discriminate].
    now intros [= <-]. }
  generalize (NoDup_seq 0 (length (batches_of tokens batch_size))).
  generalize (seq 0 (length (batches_of tokens batch_size))).
  induction 1 as [|i l Hi Hl IH]; cbn; [constructor|].
  destruct (raw_of E i) as [r|] eqn:Hr; [|exact IH].
  cbn. constructor; [|exact IH].
  rewrite (Hnum _ _ Hr). intros Hin. apply Hi.
  apply list_elem_of_fmap in Hin. destruct Hin as (r' & Heq & Hin).
  apply list_elem_of_omap in Hin. destruct Hin as (j & Hj & Hr').
  rewrite (Hnum _ _ Hr') in Heq. congruence.
Qed.

Lemma batch_path_inj dir a b :
  Runner.join dir (String.append "batch_"
                     (String.append (Runner.pad4 a) ".json"))
  = Runner.join dir (String.append "batch_"
                       (String.append (Runner.pad4 b) ".json")) →
  a = b.
Proof.
  intros Heq. apply (f_equal chars) in Heq. unfold Runner.join in Heq.
  rewrite !chars_append in Heq.
  repeat apply app_inv_head in Heq. apply app_inv_tail in Heq.
  now apply pad4_inj, chars_inj.
Qed.

Lemma NoDup_by_key base (paths : list string) :
  NoDup (map (path_key base) paths) → NoDup paths.
Proof. apply NoDup_fmap_1. Qed.

Lemma path_keys base date :
  let key := path_key base in
  key (Runner.join (Runner.join (Runner.join base "raw") "gamma")
         (String.append "events_" (String.append date ".json")))
  = chars "/raw/gamm"
  ∧ key (Runner.join (Runner.join base "markets")
           (String.append "markets_" (String.append date ".csv")))
    = chars "/markets/"
  ∧ key (Runner.join (Runner.join base "run")
           (String.append "run_manifest_" (String.append date ".json")))
    = chars "/run/run_"
  ∧ key (Runner.join (Runner.join base "prices")
           (String.append "prices_" (String.append date ".csv")))
    = chars "/prices/p"
  ∧ key (Runner.join (Runner.join base "prices") "latest.csv")
    = chars "/prices/l"
  ∧ ∀ name,
      key (Runner.join
             (Runner.join
                (Runner.join (Runner.join (Runner.join base "raw") "clob")
                   "prices_batches")
                (String.append "markets_" date)) name)
      = chars "/raw/clob".
Proof.
  cbn zeta. repeat split; intros;
    (erewrite path_key_below;
     [|unfold Runner.join; rewrite !chars_append, <- !app_assoc;
       reflexivity]);
    reflexivity.
Qed.

Ltac decided := refine (bool_decide_unpack _ _); vm_compute; exact I.

Ltac absurd_key H :=
  exfalso; revert H;
  match goal with |- ?P → False => change (¬ P) end;
  decided.

(** X14: a run writes no file twice: the paths of the raw events, the
    markets, the batch responses, the prices, latest.csv and the manifest
    differ from one another, for every output directory and date and
    whatever the outcome of the run; in particular two batches never share
    a file. *)
Theorem X14_no_file_written_twice (cfg : Runner.config) (E : Runner.env) :
  NoDup (map Runner.path (Runner.writes (Runner.run_fetch cfg E).1)).
Proof.
  unfold Runner.run_fetch.
  set (date := default (Runner.today E) (Runner.date_str cfg)).
  set (base := default "data" (Runner.outdir cfg)).
  destruct (path_keys base date) as (Kraw & Kmarkets & Krun & Kprices
                                      & Klatest & Kbatch).
  destruct (negb _); [constructor|].
  destruct (Runner.fetch_catalog cfg E) as [[cs rs] [events|e]];
    [|constructor].
  assert (Htwo :
    NoDup
      [Runner.join (Runner.join (Runner.join base "raw") "gamma")
         (String.append "events_" (String.append date ".json"));
       Runner.join (Runner.join base "markets")
         (String.append "markets_" (String.append date ".csv"))]).
  { apply (NoDup_by_key base). cbn [map]. rewrite Kraw, Kmarkets. decided. }
  assert (Hthree :
    NoDup
      [Runner.join (Runner.join (Runner.join base "raw") "gamma")
         (String.append "events_" (String.append date ".json"));
       Runner.join (Runner.join base "markets")
         (String.append "markets_" (String.append date ".csv"));
       Runner.join (Runner.join base "run")
         (String.append "run_manifest_" (String.append date ".json"))]).
  { apply (NoDup_by_key base). cbn [map]. rewrite Kraw, Kmarkets, Krun.
    decided. }
  destruct (Runner.extract cfg (Runner.pulled_at E) events) as [ex|e];
    [|apply NoDup_singleton].
  destruct (Runner.dry_run cfg); [exact Hthree|].
  destruct (Runner.all_token_outcomes ex) as [|token tokens];
    [exact Hthree|].
  destruct (Clob.fetch_all_prices _ _ _ _ _ _)
    as [[[results raws] st]|e] eqn:Hret; [|exact Htwo].
  cbn [fst Runner.writes]. rewrite !map_app, map_map. cbn [map Runner.path].
  apply NoDup_app. split; [exact Htwo|]. split.
  - intros p Hp Hin.
    apply (list_elem_of_fmap_2 (path_key base)) in Hp. cbn [fmap list_fmap map] in Hp.
    rewrite Kraw, Kmarkets in Hp.
    apply elem_of_app in Hin. destruct Hin as [Hin|Hin].
    + apply list_elem_of_fmap in Hin. destruct Hin as (r & -> & _).
      rewrite Kbatch in Hp. absurd_key Hp.
    + apply (list_elem_of_fmap_2 (path_key base)) in Hin. cbn [fmap list_fmap map] in Hin.
      rewrite Kprices, Klatest, Krun in Hin.
      repeat (apply elem_of_cons in Hp; destruct Hp as [Hp|Hp]);
        [rewrite Hp in Hin; absurd_key Hin
        |rewrite Hp in Hin; absurd_key Hin
        |now apply elem_of_nil in Hp].
  - apply NoDup_app. split; [|split].
    + rewrite <- (map_map Clob.raw_batch_num
                   (λ n, Runner.join _ (String.append "batch_"
                           (String.append (Runner.pad4 n) ".json")))).
      apply NoDup_fmap_2; [|exact (raws_batch_nums _ _ _ _ _ _ _ _ _ Hret)].
      intros a b. apply batch_path_inj.
    + intros p Hp Hin.
      apply list_elem_of_fmap in Hp. destruct Hp as (r & -> & _).
      apply (list_elem_of_fmap_2 (path_key base)) in Hin. cbn [fmap list_fmap map] in Hin.
      rewrite Kbatch, Kprices, Klatest, Krun in Hin. absurd_key Hin.
    + apply (NoDup_by_key base). cbn [map]. rewrite Kprices, Klatest, Krun.
      decided.
Qed.

(** ** Sports mode *)

Lemma series_loop_spec cfg E ids k0 acc :
  let out := Runner.series_loop cfg E ids k0 acc in
  out.1.1 = map series_call (take (length out.1.1) ids)
  ∧ match out.2 with
    | Ok events =>
        length out.1.1 = length ids
        ∧ ∃ parts,
            length parts = length ids
            ∧ events = acc ++ concat parts
            ∧ ∀ k sid, ids !! k = Some sid →
                ∃ part, parts !! k = Some part
                        ∧ series_events cfg E (k0 + k) sid = Ok part
    | Raise e =>
        ∃ k sid,
          ids !! k = Some sid ∧ length out.1.1 = S k
          ∧ series_events cfg E (k0 + k) sid = Raise e
          ∧ ∀ j sid', (j < k)%nat → ids !! j = Some sid' →
              returns (series_events cfg E (k0 + j) sid')
    end.
Proof.
  cbn zeta. revert k0 acc.
  induction ids as [|sid ids IH]; intros k0 acc; cbn [Runner.series_loop].
  { cbn. split; [reflexivity|]. split; [reflexivity|].
    exists []. rewrite app_nil_r. repeat split. intros k sid Hk.
    discriminate. }
  specialize (IH (S k0)).
  unfold series_events in *. 
  destruct (Gamma.fetch_all_events (Runner.catalog E k0) None
              (Some (show_int sid)) _ _ _ _ _) as [rs0 [events|e]] eqn:Hfetch;
    cbn [fst snd].
  - specialize (IH (acc ++ events)).
    destruct (Runner.series_loop cfg E ids (S k0) (acc ++ events))
      as [[cs rs] r]. cbn [fst snd] in *.
    destruct IH as [Hcs Hr]. split; [cbn; now rewrite <- Hcs|].
    destruct r as [all|e].
    + destruct Hr as (Hlen & parts & Hparts & -> & Hall).
      split; [cbn; now rewrite Hlen|].
      exists (events :: parts). split; [cbn; now rewrite Hparts|].
      split; [cbn; now rewrite app_assoc|].
      intros [|k] sid' Hk.
      * injection Hk as <-. exists events. split; [reflexivity|].
        now rewrite Nat.add_0_r, Hfetch.
      * destruct (Hall k sid' Hk) as (part & Hpart & Hev).
        exists part. split; [exact Hpart|].
        now rewrite <- Nat.add_succ_comm.
    + destruct Hr as (k & sid' & Hk & Hlen & Hev & Hbefore).
      exists (S k), sid'. split; [exact Hk|]. split; [cbn; now rewrite Hlen|].
      split; [now rewrite <- Nat.add_succ_comm|].
      intros [|j] sid'' Hj Hlook.
      * injection Hlook as <-. rewrite Nat.add_0_r, Hfetch. now exists events.
      * rewrite <- Nat.add_succ_comm. apply Hbefore; [lia|exact Hlook].
  - split; [reflexivity|].
    exists 0%nat, sid. split; [reflexivity|]. split; [reflexivity|].
    split; [now rewrite Nat.add_0_r, Hfetch|]. intros j sid' Hj. lia.
Qed.

Lemma series_loop_tag cfg tag E ids k raw_events :
  Runner.series_loop (with_tag cfg tag) E ids k raw_events
  = Runner.series_loop cfg E ids k raw_events.
Proof.
  revert k raw_events. induction ids as [|sid ids IH]; intros k raw_events;
    cbn; [reflexivity|].
  change (Runner.max_events (with_tag cfg tag)) with (Runner.max_events cfg).
  change (Runner.gamma_active (with_tag cfg tag))
    with (Runner.gamma_active cfg).
  change (Runner.gamma_closed (with_tag cfg tag))
    with (Runner.gamma_closed cfg).
  destruct (Gamma.fetch_all_events _ _ _ _ _ _ _ _) as [rs [events|e]]; cbn;
    [|reflexivity].
  now rewrite IH.
Qed.

(** X16: the loop over the series ids of sports mode.  It never reads the
    tag of the configuration.  It enumerates the catalog once per series
    id, in the order of the list and without a tag, until an enumeration
    raises: when all return, the events it gives are the events of the
    series one after the other; when one raises, it raises the same error,
    the events of the series before it are dropped and the series after it
    are not enumerated. *)
Theorem X16_series_enumerated_in_order (cfg : Runner.config)
    (E : Runner.env) (ids : list Z) (tag : option string) :
  let out := Runner.series_loop cfg E ids 0 [] in
  Runner.series_loop (with_tag cfg tag) E ids 0 [] = out
  ∧ out.1.1 = map series_call (take (length out.1.1) ids)
  ∧ match out.2 with
    | Ok events =>
        length out.1.1 = length ids
        ∧ ∃ parts,
            length parts = length ids
            ∧ events = concat parts
            ∧ ∀ k sid, ids !! k = Some sid →
                ∃ part, parts !! k = Some part
                        ∧ series_events cfg E k sid = Ok part
    | Raise e =>
        ∃ k sid,
          ids !! k = Some sid ∧ length out.1.1 = S k
          ∧ series_events cfg E k sid = Raise e
          ∧ ∀ j sid', (j < k)%nat → ids !! j = Some sid' →
              returns (series_events cfg E j sid')
    end.
Proof.
  cbn zeta. split; [apply series_loop_tag|].
  exact (series_loop_spec cfg E ids 0 []).
Qed.

(** ** The events of an enumeration *)

Lemma ingest_item_ingested i i' :
  Gamma.ingest_item i = Ok i' → ingested i'.
Proof.
  destruct i as [e|[|]]; cbn; [|now intros [= <-]|discriminate].
  unfold Gamma.ingest_event.
  destruct (Gamma.markets e) as [[ms|before|[|]|]|] eqn:Hm; cbn; intros H;
    try discriminate; injection H as <-; cbn;
    rewrite ?Hm; [|reflexivity|exact I].
  apply Forall_fmap, Forall_forall. intros m _. split; reflexivity.
Qed.

Lemma ingest_events_ingested es es' :
  Gamma.ingest_events es = Ok es' → Forall ingested es'.
Proof.
  revert es'. induction es as [|e es IH]; intros es'.
  - intros [= <-]. constructor.
  - change (Gamma.ingest_events (e :: es))
      with (rbind (Gamma.ingest_item e)
              (λ e', rbind (Gamma.ingest_events es)
                       (λ rest', Ok (e' :: rest')))).
    destruct (Gamma.ingest_item e) as [e'|] eqn:He; cbn; [|discriminate].
    destruct (Gamma.ingest_events es) as [rest|]; cbn; [|discriminate].
    intros [= <-]. constructor; [eapply ingest_item_ingested, He|].
    now apply IH.
Qed.

Lemma paginate_content E tag_id series_id max_events page_size active closed
    remaining :
  ∀ page offset all_events reqs res,
    Gamma.paginate E tag_id series_id max_events page_size active closed
      remaining page offset all_events = (reqs, Ok res) →
    res = all_events
          ++ concat (imap (λ k p, page_events E p (page + k)) reqs).
Proof.
  induction remaining as [|r IH]; intros page offset all_events reqs res;
    cbn [Gamma.paginate].
  { intros [= <- <-]. cbn. now rewrite app_nil_r. }
  destruct (Gamma.limit_reached max_events (length all_events)).
  { intros [= <- <-]. cbn. now rewrite app_nil_r. }
  set (p := Gamma.page_params tag_id series_id page_size offset active closed).
  pose proof (eq_refl (page_events E p page)) as Hpe.
  unfold page_events in Hpe at 2.
  assert (Hone : ∀ evs, page_events E p page = evs →
            all_events ++ evs
            = all_events
              ++ concat (imap (λ k q, page_events E q (page + k)) [p])).
  { intros evs <-. cbn. now rewrite Nat.add_0_r, app_nil_r. }
  destruct (Gamma._request_with_retry E p page) as [[[events|]|]|e] eqn:Hreq;
    try discriminate;
    try (intros [= <- <-]; rewrite <- (Hone [] Hpe), app_nil_r;
         reflexivity).
  destruct events as [|e0 events].
  { intros [= <- <-]. rewrite <- (Hone [] Hpe), app_nil_r. reflexivity. }
  destruct (Gamma.ingest_events (e0 :: events)) as [evs|e] eqn:Hing;
    [|discriminate].
  destruct (Z.of_nat (length evs) <? page_size).
  { intros [= <- <-]. now rewrite <- (Hone evs Hpe). }
  destruct (Gamma.paginate E tag_id series_id max_events page_size active
              closed r (S page) (offset + Z.of_nat (length evs))
              (all_events ++ evs)) as [reqs' res'] eqn:Hrest.
  cbn [fst snd]. intros [= <- ->].
  rewrite (IH _ _ _ _ _ Hrest). cbn [imap concat].
  rewrite Nat.add_0_r, Hpe, <- app_assoc. do 3 f_equal.
  apply imap_ext. intros k q _. cbn. f_equal. lia.
Qed.

Lemma page_events_ingested E p k : Forall ingested (page_events E p k).
Proof.
  unfold page_events.
  destruct (Gamma._request_with_retry E p k) as [[[events|]|]|e];
    try constructor.
  destruct (Gamma.ingest_events events) as [evs|e] eqn:Hing;
    [|constructor].
  eapply ingest_events_ingested, Hing.
Qed.

Lemma truncate_take max_events (all_events : list Gamma.item) :
  ∃ n, Gamma.truncate max_events all_events = take n all_events.
Proof.
  unfold Gamma.truncate, Gamma.slice_to.
  destruct max_events as [m|]; [|exists (length all_events); now rewrite take_ge].
  destruct (m =? 0); [exists (length all_events); now rewrite take_ge|].
  destruct (0 <=? m); eexists; reflexivity.
Qed.

(** X17: what an enumeration of the catalog returns.  The events are
    those of the pages requested, in the order of the pages and within a
    page in the order served, cut to max_events when that is set; and
    every market of every returned event carries, as its parsed outcomes
    and token ids, the parsed forms of its raw outcomes and clobTokenIds
    fields.  An item that is not such an event is returned only if the
    ingestion passes over it: a string or a list without the key, or an
    event whose markets value is an empty string or dict. *)
Theorem X17_events_in_page_order (E : Gamma.env)
    (tag_id series_id : option string) (max_events : option Z)
    (page_size max_pages : Z) (active closed : option bool)
    (reqs : list Gamma.params) (events : list Gamma.item) :
  Gamma.fetch_all_events E tag_id series_id max_events page_size max_pages
    active closed = (reqs, Ok events) →
  events
  = Gamma.truncate max_events
      (concat (imap (λ k p, page_events E p k) reqs))
  ∧ Forall ingested events.
Proof.
  unfold Gamma.fetch_all_events.
  destruct (Gamma.paginate E tag_id series_id max_events page_size active
              closed (Z.to_nat max_pages) 0 0 [])
    as [reqs0 [all_events|e]] eqn:Hpag; cbn; [|intros [=]].
  intros [= <- <-].
  pose proof (paginate_content _ _ _ _ _ _ _ _ _ _ _ _ _ Hpag) as Hall.
  cbn in Hall. subst all_events. split; [reflexivity|].
  destruct (truncate_take max_events
              (concat (imap (λ k p, page_events E p k) reqs0))) as [n ->].
  apply Forall_take, Forall_concat, Forall_forall. intros evs Hin.
  apply list_elem_of_lookup in Hin. destruct Hin as [k Hk].
  rewrite list_lookup_imap in Hk.
  destruct (reqs0 !! k) as [p|]; [|discriminate].
  injection Hk as <-. apply page_events_ingested.
Qed.

Lemma X17_witness :
  ∃ events,
    (Gamma.fetch_all_events (catalog_serving [[served_event]]) None None None
       500 500 None None).2 = Ok events
    ∧ Forall ingested events.
Proof.
  eexists. split; [vm_compute; reflexivity|].
  refine (proj2 (X17_events_in_page_order (catalog_serving [[served_event]])
                   None None None 500 500 None None _ _ _)).
  vm_compute. reflexivity.
Defined.






(** ** The file index of the manifest *)

Ltac find_member :=
  first [reflexivity | left; find_member | right; find_member].

Ltac written_as c :=
  match goal with
  | |- ∃ w, _ ∧ Runner.path w = ?p ∧ _ =>
      exists (Runner.mk_write p c);
      split; [repeat (rewrite elem_of_cons || rewrite elem_of_app); find_member|];
      split; [reflexivity|cbn; auto]
  end.

(** X15: the file index of the manifest a run returns is truthful: its
    keys are distinct, and every path it lists was written by the run,
    with the content the key names (the raw events, the markets, the
    prices for both prices_csv and latest_csv, the manifest); the batch
    files are not indexed. *)
Theorem X15_manifest_indexes_written_files (cfg : Runner.config)
    (E : Runner.env) (t : Runner.trace) (m : RunManifest.t) :
  Runner.run_fetch cfg E = (t, Ok m) →
  NoDup (map fst (RunManifest.files m))
  ∧ ∀ key p, (key, p) ∈ RunManifest.files m →
      ∃ w, w ∈ Runner.writes t ∧ Runner.path w = p
           ∧ indexes key (Runner.content w).
Proof.
  unfold Runner.run_fetch.
  destruct (negb _); [discriminate|].
  destruct (Runner.fetch_catalog cfg E) as [[cs rs] [events|e]];
    [|discriminate].
  destruct (Runner.extract cfg (Runner.pulled_at E) events) as [ex|e];
    [|discriminate].
  destruct (Runner.dry_run cfg).
  { intros [= <- <-]. cbn. split; [decided|].
    intros key p Hin.
    repeat (apply elem_of_cons in Hin; destruct Hin as [[= -> ->]|Hin]);
      [written_as (Runner.RawGamma events)
      |written_as (Runner.MarketsCsv (Runner.market_records ex))
      |now apply elem_of_nil in Hin]. }
  destruct (Runner.all_token_outcomes ex) as [|token tokens] eqn:Htokens.
  { intros [= <- <-]. cbn. split; [decided|].
    intros key p Hin.
    repeat (apply elem_of_cons in Hin; destruct Hin as [[= -> ->]|Hin]);
      [written_as (Runner.RawGamma events)
      |written_as (Runner.MarketsCsv (Runner.market_records ex))
      |eexists (Runner.mk_write _ (Runner.ManifestJson _));
       split; [repeat (rewrite elem_of_cons || rewrite elem_of_app); find_member|];
       split; [reflexivity|reflexivity]
      |now apply elem_of_nil in Hin]. }
  destruct (Clob.fetch_all_prices _ _ _ _ _ _)
    as [[[results raws] st]|e] eqn:Hret; [|discriminate].
  intros [= <- <-]. cbn. split; [decided|].
  intros key p Hin.
  repeat (apply elem_of_cons in Hin; destruct Hin as [[= -> ->]|Hin]);
    [written_as (Runner.RawGamma events)
    |written_as (Runner.MarketsCsv (Runner.market_records ex))
    |written_as (Runner.PricesCsv results)
    |written_as (Runner.PricesCsv results)
    |eexists (Runner.mk_write _ (Runner.ManifestJson _));
     split; [repeat (rewrite elem_of_cons || rewrite elem_of_app); find_member|];
     split; [reflexivity|reflexivity]
    |now apply elem_of_nil in Hin].
Qed.

Lemma X15_witness :
  ∃ m, scenario_run.2 = Ok m
       ∧ map fst (RunManifest.files m)
         = ["raw_gamma"; "markets_csv"; "prices_csv"; "latest_csv";
            "manifest"]
       ∧ NoDup (map fst (RunManifest.files m)).
Proof.
  eexists. split; [reflexivity|]. split; [reflexivity|].
  refine (proj1 (X15_manifest_indexes_written_files scenario_config
                   scenario_env scenario_run.1 _ _)).
  vm_compute. reflexivity.
Defined.

(** ** What the extraction keeps *)

Lemma events_loop_raises cfg pulled events st e :
  Runner.events_loop cfg pulled events st = Raise e → e = AttributeError.
Proof.
  revert st.
  induction events as [|[event|skipped] events IH]; intros st;
    cbn [Runner.events_loop]; [discriminate| |congruence].
  destruct (Gamma.markets event) as [[ms|before|quiet|]|];
    try apply IH;
    (destruct (Runner.cap_reached cfg _);
     [discriminate|first [apply IH|congruence]]).
Qed.

(** X19: what the extraction loop keeps.  The markets recorded for the
    markets file are, in the order of the catalog, the markets that pass
    the category filter, the first max_markets of them when that cap is
    set (other than 0; none when it is negative); a market that the filter
    rejects does not use up the cap.  The tokens queued for pricing are
    the tokens of exactly these markets, market after market.  The
    extraction returns when every item of the catalog is an event dict
    whose list of markets holds dicts, and the one exception it raises is
    AttributeError. *)
Theorem X19_extraction_keeps_first_accepted (cfg : Runner.config)
    (pulled : string) (raw_events : list Gamma.item) :
  (Forall dict_event raw_events →
   returns (Runner.extract cfg pulled raw_events))
  ∧ (∀ e, Runner.extract cfg pulled raw_events = Raise e →
          e = AttributeError)
  ∧ ∀ ex, Runner.extract cfg pulled raw_events = Ok ex →
      let markets := kept cfg pulled raw_events in
      Runner.market_records ex = map (record_of pulled) markets
      ∧ Runner.all_token_outcomes ex = concat (map tokens_of markets)
      ∧ Runner.total_markets_processed ex = Z.of_nat (length markets).
Proof.
  split; [apply events_loop_returns|].
  split; [intros e; apply events_loop_raises|].
  intros ex Hex.
  destruct (extract_counts cfg pulled raw_events ex Hex)
    as (Hr & Htok & Ht & _).
  cbn zeta. auto.
Qed.

Lemma X19_witness :
  returns (Runner.extract capped_config ""
             (map Gamma.Event (concat scenario_pages)))
  ∧ ∃ ex,
      Runner.extract capped_config ""
        (map Gamma.Event (concat scenario_pages)) = Ok ex
      ∧ Runner.total_markets_processed ex
        = Z.of_nat (length (kept capped_config ""
                              (map Gamma.Event (concat scenario_pages)))).
Proof.
  destruct (X19_extraction_keeps_first_accepted capped_config ""
              (map Gamma.Event (concat scenario_pages)))
    as (Hret & _ & Hkept).
  split; [apply Hret; vm_compute; repeat constructor|].
  eexists. split; [vm_compute; reflexivity|].
  edestruct Hkept as (_ & _ & Ht); [vm_compute; reflexivity|exact Ht].
Defined.

Lemma results_rows ts c tokens results :
  Forall2 (λ token r, Clob.price_result ts c token = Ok r) tokens results →
  map row_key results = map token_key tokens
  ∧ Forall (λ r, PriceResult.snapshot_ts_utc r = ts) results.
Proof.
  induction 1 as [|token r tokens results Hr _ [IHk IHs]];
    [split; [reflexivity|constructor]|].
  destruct (price_result_ok _ _ _ _ Hr) as (Hid & Hm & Ho & Hts & _).
  split.
  - cbn. rewrite IHk. unfold row_key, token_key.
    now rewrite Hid, Hm, Ho.
  - constructor; assumption.
Qed.

Ltac member_cases H :=
  repeat (rewrite elem_of_app in H || rewrite elem_of_cons in H);
  repeat match goal with
         | H' : _ ∨ _ |- _ => destruct H'
         | H' : _ ∈ [] |- _ => apply elem_of_nil in H'; contradiction
         | H' : _ ∈ map _ _ |- _ =>
             apply list_elem_of_fmap in H'; destruct H' as (? & ? & ?)
         end;
  subst.

(** X11: the files of a run cover the markets kept.  When a run returns,
    the markets file holds the records of the markets the extraction
    keeps, and every prices file holds exactly one row per token of these
    markets, in their order, with the token's id, outcome and market id,
    stamped with the moment the markets were pulled; a run that is not a
    dry run writes the prices as soon as there is a token.  The manifest
    counts these markets and these tokens. *)
Theorem X11_files_cover_kept_markets (cfg : Runner.config) (E : Runner.env)
    (t : Runner.trace) (m : RunManifest.t) :
  Runner.run_fetch cfg E = (t, Ok m) →
  ∃ events,
    (Runner.fetch_catalog cfg E).2 = Ok events
    ∧ let markets := kept cfg (Runner.pulled_at E) events in
      let tokens := concat (map tokens_of markets) in
      (∀ w records, w ∈ Runner.writes t →
         Runner.content w = Runner.MarketsCsv records →
         records = map (record_of (Runner.pulled_at E)) markets)
      ∧ (∀ w rows, w ∈ Runner.writes t →
           Runner.content w = Runner.PricesCsv rows →
           map row_key rows = map token_key tokens
           ∧ Forall (λ r, PriceResult.snapshot_ts_utc r = Runner.pulled_at E)
               rows)
      ∧ (∃ w records, w ∈ Runner.writes t
                      ∧ Runner.content w = Runner.MarketsCsv records)
      ∧ (Runner.dry_run cfg = false → tokens ≠ [] →
         ∃ w rows, w ∈ Runner.writes t
                   ∧ Runner.content w = Runner.PricesCsv rows)
      ∧ RunManifest.markets_total m = Z.of_nat (length markets)
      ∧ RunManifest.tokens_total m = Z.of_nat (length tokens).
Proof.
  unfold Runner.run_fetch.
  destruct (negb _); [discriminate|].
  destruct (Runner.fetch_catalog cfg E) as [[cs rs] [events|e]];
    [|discriminate].
  destruct (Runner.extract cfg (Runner.pulled_at E) events) as [ex|e]
    eqn:Hex; [|discriminate].
  intros Hrun. exists events. split; [reflexivity|]. cbn zeta.
  destruct (extract_counts cfg (Runner.pulled_at E) events ex Hex)
    as (Hr & Htok & Ht & _).
  set (markets := kept cfg (Runner.pulled_at E) events) in *.
  destruct (Runner.dry_run cfg).
  { injection Hrun as <- <-. cbn.
    split; [intros w records Hin Hc; member_cases Hin; cbn in Hc;
            try discriminate; injection Hc as <-; exact Hr|].
    split; [intros w rows Hin Hc; member_cases Hin; cbn in Hc;
            discriminate|].
    split; [eexists _, _; split; [apply list_elem_of_further, list_elem_of_here
                                 |reflexivity]|].
    split; [discriminate|]. split; [exact Ht|]. now rewrite Htok. }
  destruct (Runner.all_token_outcomes _) as [|token tokens] eqn:Htokens.
  { injection Hrun as <- <-. cbn. rewrite Htokens.
    split; [intros w records Hin Hc; member_cases Hin; cbn in Hc;
            try discriminate; injection Hc as <-; exact Hr|].
    split; [intros w rows Hin Hc; member_cases Hin; cbn in Hc;
            discriminate|].
    split; [eexists _, _; split; [apply list_elem_of_further, list_elem_of_here
                                 |reflexivity]|].
    split; [intros _ Hne; now rewrite <- Htok in Hne|].
    split; [exact Ht|]. now rewrite <- Htok. }
  destruct (Clob.fetch_all_prices _ _ _ _ _ _)
    as [[[results raws] st]|e] eqn:Hret; [|discriminate].
  injection Hrun as <- <-. cbn. rewrite Htokens.
  destruct (fetch_all_prices_ok _ _ _ _ _ _ _ _ _ Hret) as (_ & _ & _ & Hall).
  destruct (results_rows _ _ _ _ Hall) as [Hkeys Hts].
  cbn [default] in Hts. rewrite Htok in Hkeys.
  split; [intros w records Hin Hc; member_cases Hin; cbn in Hc;
          try discriminate; injection Hc as <-; exact Hr|].
  split; [intros w rows Hin Hc; member_cases Hin; cbn in Hc;
          try discriminate; injection Hc as <-; split; assumption|].
  split; [eexists _, _; split; [apply list_elem_of_further, list_elem_of_here
                               |reflexivity]|].
  split.
  { intros _ _. eexists (Runner.mk_write _ (Runner.PricesCsv results)), _.
    split; [|reflexivity].
    do 2 apply list_elem_of_further. apply elem_of_app. right.
    apply list_elem_of_here. }
  split; [exact Ht|]. now rewrite <- Htok.
Qed.

Lemma X11_witness :
  ∃ m, scenario_run.2 = Ok m
       ∧ ∃ events,
           (Runner.fetch_catalog scenario_config scenario_env).2 = Ok events
           ∧ RunManifest.markets_total m
             = Z.of_nat (length (kept scenario_config
                                   (Runner.pulled_at scenario_env) events)).
Proof.
  eexists. split; [reflexivity|].
  edestruct (X11_files_cover_kept_markets scenario_config scenario_env
               scenario_run.1)
    as (events & Hev & _ & _ & _ & _ & Hm & _); [vm_compute; reflexivity|].
  exists events. split; [exact Hev|exact Hm].
Defined.

(** ** What the counters of the extraction count *)

(** X20: what the counters of the extraction count.  Of the markets the
    loop keeps, markets_with_tokens counts those that give at least one
    token, markets_skipped_no_tokens those without usable token lists or
    without a token, markets_skipped_mismatched those whose lists differ
    in length, and markets_not_clob_tradable those whose enableOrderBook
    is false among the markets with two non-empty lists of equal length.
    So there are at least as many tokens as markets with tokens, and a
    market counted as not tradable is also counted as with tokens or as
    without.  The extraction returns these counters when every item of
    the catalog is an event dict whose list of markets holds dicts. *)
Theorem X20_counters_count_kept_markets (cfg : Runner.config)
    (pulled : string) (raw_events : list Gamma.item) :
  (Forall dict_event raw_events →
   returns (Runner.extract cfg pulled raw_events))
  ∧ ∀ ex, Runner.extract cfg pulled raw_events = Ok ex →
      let markets := kept cfg pulled raw_events in
      Runner.markets_with_tokens ex
      = total_of (counted_as WithTokens) markets
      ∧ Runner.markets_skipped_no_tokens ex
        = total_of (counted_as NoTokens) markets
      ∧ Runner.markets_skipped_mismatched ex
        = total_of (counted_as Mismatched) markets
      ∧ Runner.markets_not_clob_tradable ex
        = total_of flagged_untradable markets
      ∧ Runner.markets_with_tokens ex
        ≤ Z.of_nat (length (Runner.all_token_outcomes ex))
      ∧ Runner.markets_not_clob_tradable ex
        ≤ Runner.markets_with_tokens ex
          + Runner.markets_skipped_no_tokens ex.
Proof.
  split; [apply events_loop_returns|].
  intros ex Hex.
  destruct (extract_counts cfg pulled raw_events ex Hex)
    as (_ & Htok & _ & Hw & Hn & Hm & Hf).
  cbn zeta. rewrite Hw, Hn, Hm, Hf, Htok, length_concat_map.
  repeat split.
  - apply total_of_le, counted_with_tokens.
  - rewrite <- total_of_plus. apply total_of_le, flagged_counted.
Qed.

Lemma X20_witness :
  ∃ ex,
    Runner.extract scenario_config ""
      (map Gamma.Event (concat scenario_pages)) = Ok ex
    ∧ Runner.markets_with_tokens ex
      ≤ Z.of_nat (length (Runner.all_token_outcomes ex)).
Proof.
  eexists. split; [vm_compute; reflexivity|].
  edestruct (proj2 (X20_counters_count_kept_markets scenario_config ""
                      (map Gamma.Event (concat scenario_pages))))
    as (_ & _ & _ & _ & Hle & _); [vm_compute; reflexivity|].
  exact Hle.
Defined.
